(** * pyexchange.dydx: the dYdX adapter of the Maker keeper framework

    A shallow embedding of [pyexchange/dydx.py] and of the library calls it
    makes (Python [float], [int], [decimal.Decimal], [eth_utils.from_wei],
    [pymaker.Wad.from_number]), followed by the properties of the adapter.

    Python [float] is IEEE 754 binary64; it is modelled with the Standard
    Library's specification of binary floating point ([SpecFloat]) at
    precision 53 and maximal exponent 1024. *)

From Stdlib Require Import ZArith List String Ascii Bool Lia QArith Qabs Qpower Lqa.
From Stdlib Require Import Floats.SpecFloat.
Import ListNotations.
Set Warnings "-register-all".
Open Scope string_scope.
Open Scope Z_scope.

(** ** Exceptions and fallible computations *)

Inductive exn : Type :=
| AssertionError
| KeyError (key : string)
| TypeError
| ValueError
| OverflowError
| AttributeError
| InvalidOperation
| ClientError (code : Z).

Inductive result (A : Type) : Type :=
| Ok (a : A)
| Raise (e : exn).

Arguments Ok {A} a.
Arguments Raise {A} e.

Definition bind {A B : Type} (m : result A) (k : A -> result B) : result B :=
  match m with
  | Ok a => k a
  | Raise e => Raise e
  end.

Notation "x <- m ;; k" := (bind m (fun x => k))
  (at level 61, m at next level, right associativity).

(** [list(map(f, xs))] for a fallible [f]: the first exception stops the
    traversal. *)
Fixpoint mapM {A B : Type} (f : A -> result B) (xs : list A) : result (list B) :=
  match xs with
  | [] => Ok []
  | x :: xs' =>
      y <- f x ;;
      ys <- mapM f xs' ;;
      Ok (y :: ys)
  end.

(** ** binary64 *)

Module F64.

Definition prec : Z := 53.
Definition emax : Z := 1024.

Definition float : Type := spec_float.

Definition zero : float := S754_zero false.
Definition one : float := S754_finite false 4503599627370496 (-52).

Definition valid (x : float) : bool := valid_binary prec emax x.

Definition is_finite (x : float) : bool :=
  match x with
  | S754_zero _ | S754_finite _ _ _ => true
  | _ => false
  end.

(** [x * y] on floats. *)
Definition mul (x y : float) : float := SFmul prec emax x y.

(** The float nearest to an integer (ties to even), as [PyLong_AsDouble]
    computes it; an infinite result is the caller's [OverflowError]. *)
Definition of_Z (n : Z) : float := binary_normalize prec emax n 0 false.

(** The float nearest to [m * 10^e] for [m >= 0], with sign [neg]: what
    string-to-double conversion returns for a decimal literal.  A negative
    exponent divides by the power of ten with the division core of
    [SFdiv], which keeps a sticky remainder, so the result is rounded
    once. *)
Definition of_decimal (neg : bool) (m e : Z) : float :=
  match m with
  | Zpos p =>
      match e with
      | Z0 => binary_round prec emax neg p 0
      | Zpos k => binary_round prec emax neg (p * Pos.pow 10 k) 0
      | Zneg k =>
          let '(q, e', l) :=
            SFdiv_core_binary prec emax (Zpos p) 0 (Zpos (Pos.pow 10 k)) 0 in
          binary_round_aux prec emax neg q e' l
      end
  | _ => S754_zero neg
  end.

(** [x < 0]. *)
Definition ltb0 (x : float) : bool := SFltb x zero.

(** [int(x)]: truncation toward zero. *)
Definition to_Z (x : float) : result Z :=
  match x with
  | S754_zero _ => Ok 0
  | S754_finite s m e =>
      let a := match e with
               | Z0 => Zpos m
               | Zpos k => Zpos m * 2 ^ Zpos k
               | Zneg k => Zpos m / 2 ^ Zpos k
               end in
      Ok (if s then - a else a)
  | S754_infinity _ => Raise OverflowError
  | S754_nan => Raise ValueError
  end.

(** The exact value of a finite float as a rational. *)
Definition to_Q (x : float) : Q :=
  match x with
  | S754_finite s m e =>
      let a := (inject_Z (Zpos m) * Qpower 2 e)%Q in
      if s then Qopp a else a
  | _ => 0%Q
  end.

End F64.

(** ** Numeric literals in strings

    The grammar that [float(s)], [int(s)] and [Decimal(s)] accept for an
    ASCII string [s]: surrounding white space is dropped, digits may be
    grouped with single underscores, and a literal denotes [m * 10^e]. *)

Module Lit.

Inductive literal : Type :=
| LFinite (neg : bool) (m : Z) (e : Z)
| LInfinity (neg : bool)
| LNaN.

Definition code (c : ascii) : Z := Z.of_nat (nat_of_ascii c).

(** The white space that [float(s)] and [int(s)] drop around an ASCII
    string: tab to carriage return, and the space. *)
Definition is_space (c : ascii) : bool :=
  let n := code c in
  ((9 <=? n) && (n <=? 13)) || (n =? 32).

(** The white space of [str.strip()], which [Decimal(s)] applies: the
    separators 28 to 31 as well. *)
Definition is_str_space (c : ascii) : bool :=
  let n := code c in
  ((9 <=? n) && (n <=? 13)) || ((28 <=? n) && (n <=? 32)).

Definition digit_of (c : ascii) : option Z :=
  let n := code c in
  if (48 <=? n) && (n <=? 57) then Some (n - 48) else None.

Definition lower (c : ascii) : ascii :=
  let n := code c in
  if (65 <=? n) && (n <=? 90) then ascii_of_nat (Z.to_nat (n + 32)) else c.

Fixpoint lower_string (s : string) : string :=
  match s with
  | EmptyString => EmptyString
  | String c s' => String (lower c) (lower_string s')
  end.

Fixpoint lstrip (sp : ascii -> bool) (s : string) : string :=
  match s with
  | EmptyString => EmptyString
  | String c s' => if sp c then lstrip sp s' else s
  end.

Fixpoint rstrip (sp : ascii -> bool) (s : string) : string :=
  match s with
  | EmptyString => EmptyString
  | String c s' =>
      match rstrip sp s' with
      | EmptyString => if sp c then EmptyString else String c EmptyString
      | r => String c r
      end
  end.

Definition strip (sp : ascii -> bool) (s : string) : string :=
  rstrip sp (lstrip sp s).

Fixpoint remove_underscores (s : string) : string :=
  match s with
  | EmptyString => EmptyString
  | String c s' =>
      if Ascii.eqb c "_" then remove_underscores s'
      else String c (remove_underscores s')
  end.

(** A run [digit (["_"] digit)*]: the number read after [acc], the count
    of digits read after [cnt], and the rest of the string. *)
Fixpoint digits_from (acc cnt : Z) (s : string) : Z * Z * string :=
  match s with
  | EmptyString => (acc, cnt, s)
  | String c s' =>
      match digit_of c with
      | Some d => digits_from (10 * acc + d) (cnt + 1) s'
      | None =>
          if Ascii.eqb c "_" && (0 <? cnt) then
            match s' with
            | String c2 s'' =>
                match digit_of c2 with
                | Some d => digits_from (10 * acc + d) (cnt + 1) s''
                | None => (acc, cnt, s)
                end
            | EmptyString => (acc, cnt, s)
            end
          else (acc, cnt, s)
      end
  end.

Definition split_sign (s : string) : bool * string :=
  match s with
  | String "-" s' => (true, s')
  | String "+" s' => (false, s')
  | _ => (false, s)
  end.

(** [[(e|E) [sign] digits]] at the end of a literal: the exponent read,
    if the rest of the string is exactly an exponent part or is empty. *)
Definition exponent_part (s : string) : option Z :=
  match s with
  | EmptyString => Some 0
  | String c s' =>
      if Ascii.eqb (lower c) "e" then
        let '(neg, s1) := split_sign s' in
        match digits_from 0 0 s1 with
        | (x, cnt, EmptyString) =>
            if 0 <? cnt then Some (if neg then - x else x) else None
        | _ => None
        end
      else None
  end.

(** [digits [. [digits]] [exponent]] or [. digits [exponent]]. *)
Definition unsigned_number (s : string) : option (Z * Z) :=
  let '(ip, icnt, s1) := digits_from 0 0 s in
  let '(m, fcnt, s2) :=
    match s1 with
    | String "." s1' => digits_from ip 0 s1'
    | _ => (ip, 0, s1)
    end in
  if 0 <? icnt + fcnt then
    match exponent_part s2 with
    | Some x => Some (m, x - fcnt)
    | None => None
    end
  else None.

Fixpoint all_digits (s : string) : bool :=
  match s with
  | EmptyString => true
  | String c s' =>
      match digit_of c with
      | Some _ => all_digits s'
      | None => false
      end
  end.

(** The literals of [float(s)]. *)
Definition float_literal (s : string) : option literal :=
  let '(neg, body) := split_sign (strip is_space s) in
  let l := lower_string body in
  if String.eqb l "inf" || String.eqb l "infinity" then Some (LInfinity neg)
  else if String.eqb l "nan" then Some LNaN
  else match unsigned_number body with
       | Some (m, e) => Some (LFinite neg m e)
       | None => None
       end.

(** The literals of [Decimal(s)]: every underscore is dropped first, and a
    NaN may be signalling and may carry digits. *)
Definition decimal_literal (s : string) : option literal :=
  let '(neg, body) := split_sign (remove_underscores (strip is_str_space s)) in
  let l := lower_string body in
  if String.eqb l "inf" || String.eqb l "infinity" then Some (LInfinity neg)
  else
    match l with
    | String "n" (String "a" (String "n" d)) =>
        if all_digits d then Some LNaN else None
    | String "s" (String "n" (String "a" (String "n" d))) =>
        if all_digits d then Some LNaN else None
    | _ =>
        match unsigned_number body with
        | Some (m, e) => Some (LFinite neg m e)
        | None => None
        end
    end.

(** The literals of [int(s)]: [[sign] digits]. *)
Definition int_literal (s : string) : option Z :=
  let '(neg, body) := split_sign (strip is_space s) in
  match digits_from 0 0 body with
  | (x, cnt, EmptyString) =>
      if 0 <? cnt then Some (if neg then - x else x) else None
  | _ => None
  end.

End Lit.

(** ** decimal.Decimal

    A finite [Decimal] is a sign, a coefficient [c >= 0] and an exponent:
    its value is [c * 10^e].  Arithmetic is carried out under the default
    context, 28 significant digits with ties to even, which the adapter
    never changes. *)

Module Dec.

Inductive decimal : Type :=
| DFinite (neg : bool) (c : Z) (e : Z)
| DInfinity (neg : bool)
| DNaN.

Definition context_prec : Z := 28.

Definition of_Z (n : Z) : decimal := DFinite (n <? 0) (Z.abs n) 0.

(** [Decimal(s)] for a string [s]. *)
Definition of_string (s : string) : result decimal :=
  match Lit.decimal_literal s with
  | Some (Lit.LFinite neg m e) => Ok (DFinite neg m e)
  | Some (Lit.LInfinity neg) => Ok (DInfinity neg)
  | Some Lit.LNaN => Ok DNaN
  | None => Raise InvalidOperation
  end.

(** The number of trailing zero bits of a mantissa, at most [k]. *)
Fixpoint trailing_zeros (k : nat) (m : positive) : nat :=
  match k, m with
  | S k', xO m' => S (trailing_zeros k' m')
  | _, _ => O
  end.

(** [Decimal(x)] for a float [x]: the exact value, with the exponent of
    the fraction in lowest terms. *)
Definition of_float (x : F64.float) : decimal :=
  match x with
  | S754_zero s => DFinite s 0 0
  | S754_infinity s => DInfinity s
  | S754_nan => DNaN
  | S754_finite s m e =>
      match e with
      | Z0 => DFinite s (Zpos m) 0
      | Zpos k => DFinite s (Zpos m * 2 ^ Zpos k) 0
      | Zneg k =>
          let t := Z.of_nat (trailing_zeros (Pos.to_nat k) m) in
          let k' := Zpos k - t in
          DFinite s (Zpos m / 2 ^ t * 5 ^ k') (- k')
      end
  end.

Fixpoint digits_fuel (fuel : nat) (c : Z) : Z :=
  match fuel with
  | O => 1
  | S f => if c <? 10 then 1 else 1 + digits_fuel f (c / 10)
  end.

(** The number of decimal digits of a coefficient (1 for zero). *)
Definition digits (c : Z) : Z := digits_fuel (Z.to_nat (Z.log2 c)) c.

(** [c / p] rounded to the nearest integer, ties to even. *)
Definition div_half_even (c p : Z) : Z :=
  let q := c / p in
  match (2 * (c mod p) ?= p) with
  | Lt => q
  | Gt => q + 1
  | Eq => if Z.even q then q else q + 1
  end.

(** Rounding of an exact result to the precision of the context. *)
Definition round_context (d : decimal) : decimal :=
  match d with
  | DFinite s c e =>
      let n := digits c in
      if n <=? context_prec then d
      else
        let k := n - context_prec in
        DFinite s (div_half_even c (10 ^ k)) (e + k)
  | _ => d
  end.

(** [a * b] under the context. *)
Definition mul (a b : decimal) : result decimal :=
  match a, b with
  | DNaN, _ | _, DNaN => Ok DNaN
  | DInfinity s, DInfinity t => Ok (DInfinity (xorb s t))
  | DInfinity s, DFinite t c _ | DFinite t c _, DInfinity s =>
      if c =? 0 then Raise InvalidOperation else Ok (DInfinity (xorb s t))
  | DFinite s c e, DFinite t c' e' =>
      Ok (round_context (DFinite (xorb s t) (c * c') (e + e')))
  end.

(** [round(d, t)], that is [d.quantize(Decimal((0, (1,), -t)))]: [d]
    rounded to [t] decimal places, ties to even.  The operation is invalid
    when the coefficient of the result needs more digits than the context
    has, or when the exponent [-t] is below the least exponent of the
    context. *)
Definition round_ndigits (d : decimal) (t : Z) : result decimal :=
  match d with
  | DNaN => Ok DNaN
  | DInfinity _ => Raise InvalidOperation
  | DFinite s c e =>
      if (1000026 <? t) || (t <? -999999) then Raise InvalidOperation
      else
        let c' := if - t <=? e then c * 10 ^ (e + t)
                  else div_half_even c (10 ^ (- t - e)) in
        if (c' =? 0) || (digits c' <=? context_prec)
        then Ok (DFinite s c' (- t))
        else Raise InvalidOperation
  end.

(** [int(d.quantize(1, context=Context(prec=1000, rounding=ROUND_DOWN)))]:
    truncation toward zero. *)
Definition to_integral_down (d : decimal) : result Z :=
  match d with
  | DNaN => Raise ValueError
  | DInfinity _ => Raise InvalidOperation
  | DFinite s c e =>
      let a := if 0 <=? e then c * 10 ^ e else c / 10 ^ (- e) in
      if (a =? 0) || (digits a <=? 1000)
      then Ok (if s then - a else a)
      else Raise InvalidOperation
  end.

(** [d.as_tuple().exponent] when it is an integer. *)
Definition exponent (d : decimal) : result Z :=
  match d with
  | DFinite _ _ e => Ok e
  | _ => Raise TypeError
  end.

(** The value of a finite decimal. *)
Definition to_Q (d : decimal) : Q :=
  match d with
  | DFinite s c e =>
      let a := (inject_Z c * Qpower 10 e)%Q in
      if s then Qopp a else a
  | _ => 0%Q
  end.

(** The exact product [d * 10^k], with no rounding. *)
Definition scale10 (d : decimal) (k : Z) : decimal :=
  match d with
  | DFinite s c e => DFinite s c (e + k)
  | _ => d
  end.

End Dec.

(** ** [str(x)] for a float: the shortest digits that read back as [x] *)

Module Repr.

Definition float_eqb (x y : F64.float) : bool :=
  match x, y with
  | S754_zero s, S754_zero t => Bool.eqb s t
  | S754_infinity s, S754_infinity t => Bool.eqb s t
  | S754_nan, S754_nan => true
  | S754_finite s m e, S754_finite t m' e' =>
      Bool.eqb s t && Pos.eqb m m' && Z.eqb e e'
  | _, _ => false
  end.

(** [floor (log10 (num / den))] for positive [num] and [den]. *)
Definition floor_log10 (num den : Z) : Z :=
  if den <=? num then Dec.digits (num / den) - 1
  else
    let d := Dec.digits (den / num) in
    if den <=? num * 10 ^ (d - 1) then - (d - 1) else - d.

(** The decimal with [j] significant digits that reads back as the float
    [x = num / den], if there is one; of two such decimals, the nearer to
    [x], and the even one on a tie. *)
Definition try_digits (x : F64.float) (s : bool) (num den : Z) (j : Z)
  : option (Z * Z) :=
  let E := floor_log10 num den + 1 - j in
  let n' := if 0 <=? E then num else num * 10 ^ (- E) in
  let d' := if 0 <=? E then den * 10 ^ E else den in
  let lo := n' / d' in
  let r := n' mod d' in
  let ok_lo := float_eqb (F64.of_decimal s lo E) x in
  let ok_hi := float_eqb (F64.of_decimal s (lo + 1) E) x in
  if r =? 0 then Some (lo, E)
  else
    match ok_lo, ok_hi with
    | true, true =>
        match (2 * r ?= d') with
        | Lt => Some (lo, E)
        | Gt => Some (lo + 1, E)
        | Eq => if Z.even lo then Some (lo, E) else Some (lo + 1, E)
        end
    | true, false => Some (lo, E)
    | false, true => Some (lo + 1, E)
    | false, false => None
    end.

Fixpoint shortest (fuel : nat) (x : F64.float) (s : bool) (num den : Z) (j : Z)
  : Z * Z :=
  match fuel with
  | O => (Dec.div_half_even
            (if 0 <=? floor_log10 num den + 1 - j then num
             else num * 10 ^ (- (floor_log10 num den + 1 - j)))
            (if 0 <=? floor_log10 num den + 1 - j
             then den * 10 ^ (floor_log10 num den + 1 - j) else den),
          floor_log10 num den + 1 - j)
  | S f =>
      match try_digits x s num den j with
      | Some r => r
      | None => shortest f x s num den (j + 1)
      end
  end.

(** [Decimal(str(x))]. *)
Definition to_decimal (x : F64.float) : Dec.decimal :=
  match x with
  | S754_zero s => Dec.DFinite s 0 (-1)
  | S754_infinity s => Dec.DInfinity s
  | S754_nan => Dec.DNaN
  | S754_finite s m e =>
      let num := if 0 <=? e then Zpos m * 2 ^ e else Zpos m in
      let den := if 0 <=? e then 1 else 2 ^ (- e) in
      let '(c, E) := shortest 16 x s num den 1 in
      Dec.DFinite s c E
  end.

End Repr.

(** ** Python values

    The payloads of the exchange client are decoded JSON: [None], booleans,
    integers, floats, strings, lists and dictionaries.  A dictionary is the
    list of its items in insertion order; lookup takes the first item with
    the key. *)

Inductive pyval : Type :=
| PNone
| PBool (b : bool)
| PInt (z : Z)
| PFloat (f : F64.float)
| PStr (s : string)
| PList (l : list pyval)
| PDict (kv : list (string * pyval)).

Fixpoint assoc {A : Type} (k : string) (kv : list (string * A)) : option A :=
  match kv with
  | [] => None
  | (k', v) :: kv' => if String.eqb k k' then Some v else assoc k kv'
  end.

(** [d[k] = v]: the value of an existing key is replaced in place, a new key
    is added at the end. *)
Fixpoint dict_set {A : Type} (k : string) (v : A) (kv : list (string * A))
  : list (string * A) :=
  match kv with
  | [] => [(k, v)]
  | (k', v') :: kv' =>
      if String.eqb k k' then (k', v) :: kv' else (k', v') :: dict_set k v kv'
  end.

(** [v[k]] for a string key [k]. *)
Definition getitem (v : pyval) (k : string) : result pyval :=
  match v with
  | PDict kv =>
      match assoc k kv with
      | Some x => Ok x
      | None => Raise (KeyError k)
      end
  | _ => Raise TypeError
  end.

(** [v[k] = x] for a string key [k]. *)
Definition setitem (v : pyval) (k : string) (x : pyval) : result pyval :=
  match v with
  | PDict kv => Ok (PDict (dict_set k x kv))
  | _ => Raise TypeError
  end.

(** [v == s] for a string [s]. *)
Definition py_eq_str (v : pyval) (s : string) : bool :=
  match v with
  | PStr s' => String.eqb s' s
  | _ => false
  end.

Fixpoint chars (s : string) : list pyval :=
  match s with
  | EmptyString => []
  | String c s' => PStr (String c EmptyString) :: chars s'
  end.

(** The items that iteration over [v] yields. *)
Definition py_iter (v : pyval) : result (list pyval) :=
  match v with
  | PList l => Ok l
  | PDict kv => Ok (map (fun kx => PStr (fst kx)) kv)
  | PStr s => Ok (chars s)
  | _ => Raise TypeError
  end.

(** [v.items()]. *)
Definition py_items (v : pyval) : result (list (string * pyval)) :=
  match v with
  | PDict kv => Ok kv
  | _ => Raise AttributeError
  end.

(** Conversion of an integer to a float in mixed arithmetic and in
    [float(n)]. *)
Definition float_of_int (n : Z) : result F64.float :=
  let x := F64.of_Z n in
  if F64.is_finite x then Ok x else Raise OverflowError.

(** [float(v)]. *)
Definition py_float (v : pyval) : result F64.float :=
  match v with
  | PFloat f => Ok f
  | PInt n => float_of_int n
  | PBool b => Ok (if b then F64.one else F64.zero)
  | PStr s =>
      match Lit.float_literal s with
      | Some (Lit.LFinite neg m e) => Ok (F64.of_decimal neg m e)
      | Some (Lit.LInfinity neg) => Ok (S754_infinity neg)
      | Some Lit.LNaN => Ok S754_nan
      | None => Raise ValueError
      end
  | _ => Raise TypeError
  end.

(** [int(v)]. *)
Definition py_int (v : pyval) : result Z :=
  match v with
  | PInt n => Ok n
  | PBool b => Ok (if b then 1 else 0)
  | PFloat f => F64.to_Z f
  | PStr s =>
      match Lit.int_literal s with
      | Some n => Ok n
      | None => Raise ValueError
      end
  | _ => Raise TypeError
  end.

Definition as_int (v : pyval) : option Z :=
  match v with
  | PInt n => Some n
  | PBool b => Some (if b then 1 else 0)
  | _ => None
  end.

Fixpoint digits_value (acc : Z) (ds : list pyval) : option Z :=
  match ds with
  | [] => Some acc
  | d :: ds' =>
      match as_int d with
      | Some n =>
          if (0 <=? n) && (n <=? 9) then digits_value (10 * acc + n) ds'
          else None
      | None => None
      end
  end.

(** [Decimal(v)]: from a string, an integer, a float (exactly), or a
    sequence [[sign, digits, exponent]]. *)
Definition py_decimal (v : pyval) : result Dec.decimal :=
  match v with
  | PStr s => Dec.of_string s
  | PInt n => Ok (Dec.of_Z n)
  | PBool b => Ok (Dec.of_Z (if b then 1 else 0))
  | PFloat f => Ok (Dec.of_float f)
  | PList [sg; PList ds; ex] =>
      match as_int sg, digits_value 0 ds with
      | Some sn, Some c =>
          if (sn =? 0) || (sn =? 1) then
            match ex with
            | PStr "F" => Ok (Dec.DInfinity (sn =? 1))
            | PStr "n" | PStr "N" => Ok Dec.DNaN
            | PStr _ => Raise ValueError
            | _ =>
                match as_int ex with
                | Some e => Ok (Dec.DFinite (sn =? 1) c e)
                | None => Raise ValueError
                end
            end
          else Raise ValueError
      | _, _ => Raise ValueError
      end
  | PList _ => Raise ValueError
  | _ => Raise TypeError
  end.

(** ** Numbers handed to [Wad.from_number] *)

Inductive number : Type :=
| NInt (z : Z)
| NFloat (f : F64.float)
| NDecimal (d : Dec.decimal).

(** The value of [10**k]: an integer for [k >= 0]; for [k < 0] the float
    that the C library's [pow(10.0, k)] returns, taken to be the float
    nearest to [10^k]. *)
Definition pow10 (k : Z) : number :=
  if 0 <=? k then NInt (10 ^ k) else NFloat (F64.of_decimal false 1 k).

(** [10**k]: with [k < 0] both operands are converted to floats first, and
    an exponent that has no float raises [OverflowError]. *)
Definition py_pow10 (k : Z) : result number :=
  if 0 <=? k then Ok (pow10 k) else (_ <- float_of_int k ;; Ok (pow10 k)).

(** [x * y] for a float [x] and an integer or float [y]. *)
Definition float_mul (x : F64.float) (y : number) : result F64.float :=
  match y with
  | NInt n => g <- float_of_int n ;; Ok (F64.mul x g)
  | NFloat g => Ok (F64.mul x g)
  | NDecimal _ => Raise TypeError
  end.

(** [x * n] for the result [x] of [from_wei] and an integer [n]. *)
Definition number_mul_int (x : number) (n : Z) : result number :=
  match x with
  | NInt z => Ok (NInt (z * n))
  | NDecimal d => p <- Dec.mul d (Dec.of_Z n) ;; Ok (NDecimal p)
  | NFloat f => g <- float_of_int n ;; Ok (NFloat (F64.mul f g))
  end.

(** ** pymaker.Wad: an 18-decimal fixed-point number, held as the integer
    [value] that stands for [value / 10^18]. *)

Record Wad : Type := mkWad { wad_value : Z }.

Definition wad_to_Q (w : Wad) : Q := (inject_Z (wad_value w) * Qpower 10 (-18))%Q.

(** [Wad.from_number(number)]:
    [Wad(int((Decimal(str(number)) * Decimal(10) ** 18).quantize(1, context=_context)))]
    where the product is rounded by the default context and [_context]
    rounds down. *)
Definition Wad_from_number (x : number) : result Wad :=
  let d := match x with
           | NInt z => Dec.of_Z z
           | NFloat f => Repr.to_decimal f
           | NDecimal d => d
           end in
  p <- Dec.mul d (Dec.DFinite false (10 ^ 18) 0) ;;
  v <- Dec.to_integral_down p ;;
  Ok (mkWad v).

(** ** eth_utils.from_wei *)

Definition MAX_WEI : Z := 2 ^ 256 - 1.

(** The units the adapter names, with their decimal counts. *)
Definition units (u : string) : option Z :=
  if String.eqb u "ether" then Some 18
  else if String.eqb u "mwei" then Some 6
  else None.

(** [from_wei(number, unit)]: the integer [0] for [0], else the decimal
    [number / 10^k], computed exactly (999 digits of precision).  The
    coefficient is kept as [number]; the library's quotient has the same
    value with trailing zeros dropped. *)
Definition from_wei (n : Z) (unit : string) : result number :=
  match units (Lit.lower_string unit) with
  | None => Raise ValueError
  | Some k =>
      if n =? 0 then Ok (NInt 0)
      else if (n <? 0) || (MAX_WEI <? n) then Raise ValueError
      else Ok (NDecimal (Dec.DFinite false n (- k)))
  end.

(** ** pyexchange.model *)

(** Modelled from the spec: the normalized [Order] record of
    [pyexchange/model.py] (id, creation timestamp, trading pair, side, price,
    amount), which is not part of the source at hand.  The id is whatever the
    raw item holds. *)
Module Order.
Record t : Type := mk {
  order_id : pyval;
  timestamp : Z;
  pair : string;
  is_sell : bool;
  price : Wad;
  amount : Wad
}.
End Order.

(** Modelled from the spec: the normalized [Trade] record of
    [pyexchange/model.py] (id, timestamp, pair, side, price, amount).  The id
    and the pair are whatever the raw fill holds. *)
Module Trade.
Record t : Type := mk {
  trade_id : pyval;
  timestamp : Z;
  pair : pyval;
  is_sell : bool;
  price : Wad;
  amount : Wad
}.
End Trade.

(** ** The exchange client and the constants of the dydx package *)

(** The calls the adapter makes on [dydx.client.Client], with their
    arguments. *)
Inductive request : Type :=
| get_markets_req
| get_my_balances_req
| get_my_orders_req (market : list string) (limit startingBefore : pyval)
| get_fills_req (market : list string) (limit : Z)
| get_my_fills_req (market : list string)
| place_order_req (market side : string) (price : Dec.decimal) (amount : Z)
                  (fillOrKill postOnly : bool)
| cancel_order_req (hash : string)
| eth_deposit_req (market : Z) (wei : Z)
| eth_get_receipt_req (tx_hash : pyval).

(** [dydx.constants]: the market ids the adapter compares with. *)
Record constants : Type := mkConstants {
  MARKET_ETH : Z;
  MARKET_SAI : Z;
  MARKET_USDC : Z;
  MARKET_DAI : Z
}.

(** An entry of a converted balance: a raw value, or the [Wad] that the
    conversion adds. *)
Inductive field : Type :=
| Raw (v : pyval)
| WadObj (w : Wad).

(** A computation that calls the client: it extends the trace of the calls
    made so far and returns a value or raises. *)
Definition M (A : Type) : Type := list request -> result A * list request.

Definition ret {A : Type} (a : A) : M A := fun tr => (Ok a, tr).

Definition lift {A : Type} (r : result A) : M A := fun tr => (r, tr).

Definition bindM {A B : Type} (m : M A) (k : A -> M B) : M B :=
  fun tr =>
    match m tr with
    | (Ok a, tr') => k a tr'
    | (Raise e, tr') => (Raise e, tr')
    end.

Notation "x <~ m ;; k" := (bindM m (fun x => k))
  (at level 61, m at next level, right associativity).

(** [assert b]. *)
Definition assert (b : bool) : M unit :=
  lift (if b then Ok tt else Raise AssertionError).

(** [list(map(f, filter(p, xs)))]: [filter] and [map] are lazy, so the test
    of an item and its translation are interleaved, item by item. *)
Fixpoint list_map_filter {A B : Type} (f : A -> result B) (p : A -> result bool)
  (xs : list A) : result (list B) :=
  match xs with
  | [] => Ok []
  | x :: xs' =>
      keep <- p x ;;
      if keep then
        y <- f x ;;
        ys <- list_map_filter f p xs' ;;
        Ok (y :: ys)
      else list_map_filter f p xs'
  end.

Record DydxApi : Type := mkDydxApi { market_info : pyval }.

Section Adapter.

(** [int(dateutil.parser.parse(v).timestamp())]. *)
Variable parse_timestamp : pyval -> result Z.

(** [dydx.util.token_to_wei(amount, market_id)]. *)
Variable token_to_wei : F64.float -> pyval -> result Z.

Variable consts : constants.

(** The replies of the exchange client. *)
Variable client : request -> result pyval.

Definition call (q : request) : M pyval := fun tr => (client q, (tr ++ [q])%list).

(** *** DydxOrder.from_message *)

Definition DydxOrder_from_message (item : pyval) (pair : string)
  (market_info : pyval) : result Order.t :=
  qc <- getitem market_info "quoteCurrency" ;;
  dv <- getitem qc "decimals" ;;
  d <- py_int dv ;;
  let decimal_exponent := 18 - d in
  pv <- getitem item "price" ;;
  pf <- py_float pv ;;
  factor <- py_pow10 decimal_exponent ;;
  scaled <- float_mul pf factor ;;
  price <- Wad_from_number (NFloat scaled) ;;
  id <- getitem item "id" ;;
  cv <- getitem item "createdAt" ;;
  ts <- parse_timestamp cv ;;
  sv <- getitem item "side" ;;
  bv <- getitem item "baseAmount" ;;
  bf <- py_float bv ;;
  bi <- F64.to_Z bf ;;
  w <- from_wei (Z.abs bi) "ether" ;;
  amount <- Wad_from_number w ;;
  Ok (Order.mk id ts pair (py_eq_str sv "SELL") price amount).

(** *** DydxTrade.from_message *)

Definition DydxTrade_from_message (trade : pyval) (pair : string)
  (market_info : pyval) : result Trade.t :=
  qc <- getitem market_info "quoteCurrency" ;;
  dv <- getitem qc "decimals" ;;
  d <- py_int dv ;;
  let decimal_exponent := 18 - d in
  pv <- getitem trade "price" ;;
  pf <- py_float pv ;;
  factor <- py_pow10 decimal_exponent ;;
  scaled <- float_mul pf factor ;;
  price <- Wad_from_number (NFloat scaled) ;;
  id <- getitem trade "uuid" ;;
  cv <- getitem trade "createdAt" ;;
  ts <- parse_timestamp cv ;;
  mk <- getitem trade "market" ;;
  sv <- getitem trade "side" ;;
  av <- getitem trade "amount" ;;
  af <- py_float av ;;
  ai <- F64.to_Z af ;;
  w <- from_wei (Z.abs ai) "ether" ;;
  amount <- Wad_from_number w ;;
  Ok (Trade.mk id ts mk (py_eq_str sv "SELL") price amount).

(** *** DydxApi *)

Definition init : M DydxApi :=
  r <~ call get_markets_req ;;
  m <~ lift (getitem r "markets") ;;
  ret (mkDydxApi m).

Definition get_markets : M pyval :=
  r <~ call get_markets_req ;;
  lift (getitem r "markets").

Definition get_pair (pair : string) : M pyval :=
  m <~ get_markets ;;
  lift (getitem m pair).

Definition _convert_balance_to_wad (balance : pyval) (decimals : Z)
  : result (list (string * field)) :=
  wv <- getitem balance "wei" ;;
  wei_balance <- py_float wv ;;
  let is_negative := F64.ltb0 wei_balance in
  n <- F64.to_Z wei_balance ;;
  converted_balance <- from_wei (Z.abs n) "ether" ;;
  converted_balance <-
    (if decimals =? 6 then from_wei (Z.abs n) "mwei"
     else Ok converted_balance) ;;
  converted_balance <-
    (if is_negative then number_mul_int converted_balance (-1)
     else Ok converted_balance) ;;
  wad <- Wad_from_number converted_balance ;;
  kv <- py_items balance ;;
  Ok (dict_set "wad" (WadObj wad) (map (fun kx => (fst kx, Raw (snd kx))) kv)).

(** One turn of the loop of [_balances_to_list]. *)
Definition balance_entry (entry : string * pyval)
  : result (list (string * field)) :=
  let '(market_id, balance) := entry in
  id <- py_int (PStr market_id) ;;
  labelled <-
    (if id =? MARKET_ETH consts then
       b <- setitem balance "currency" (PStr "ETH") ;; Ok (b, 18)
     else if id =? MARKET_SAI consts then
       b <- setitem balance "currency" (PStr "SAI") ;; Ok (b, 18)
     else if id =? MARKET_USDC consts then
       b <- setitem balance "currency" (PStr "USDC") ;; Ok (b, 6)
     else if id =? MARKET_DAI consts then
       b <- setitem balance "currency" (PStr "DAI") ;; Ok (b, 18)
     else Ok (balance, 18)) ;;
  _convert_balance_to_wad (fst labelled) (snd labelled).

Definition _balances_to_list (balances : pyval)
  : result (list (list (string * field))) :=
  items <- py_items balances ;;
  mapM balance_entry items.

Definition get_balances : M (list (list (string * field))) :=
  r <~ call get_my_balances_req ;;
  lift (b <- getitem r "balances" ;; _balances_to_list b).

Definition get_orders (self : DydxApi) (pair : string) : M (list Order.t) :=
  orders <~ call (get_my_orders_req [pair] PNone PNone) ;;
  lift (
    os <- getitem orders "orders" ;;
    items <- py_iter os ;;
    market_info <- getitem (market_info self) pair ;;
    list_map_filter
      (fun item => DydxOrder_from_message item pair market_info)
      (fun order => st <- getitem order "status" ;; Ok (py_eq_str st "OPEN"))
      items).

Definition deposit_funds (token : pyval) (amount : F64.float) : M pyval :=
  let market_id := if py_eq_str token "USDC" then MARKET_USDC consts
                   else MARKET_ETH consts in
  wei <~ lift (token_to_wei amount (PInt market_id)) ;;
  tx_hash <~ call (eth_deposit_req market_id wei) ;;
  call (eth_get_receipt_req tx_hash).

(** The price that [place_order] hands to the client. *)
Definition order_price (self : DydxApi) (pair : string) (price : F64.float)
  : result Dec.decimal :=
  mi <- getitem (market_info self) pair ;;
  tv <- getitem mi "minimumTickSize" ;;
  td <- py_decimal tv ;;
  te <- Dec.exponent td ;;
  let tick_size := Z.abs te in
  mi <- getitem (market_info self) pair ;;
  bc <- getitem mi "baseCurrency" ;;
  _ <- getitem bc "soloMarketId" ;;
  mi <- getitem (market_info self) pair ;;
  qc <- getitem mi "quoteCurrency" ;;
  dv <- getitem qc "decimals" ;;
  d <- py_int dv ;;
  let decimal_exponent := (18 - d) * -1 in
  factor <- py_pow10 decimal_exponent ;;
  scaled <- float_mul price factor ;;
  Dec.round_ndigits (Dec.of_float scaled) tick_size.

Definition place_order (self : DydxApi) (pair : string) (is_sell : bool)
  (price amount : F64.float) : M pyval :=
  let side := if is_sell then "SELL" else "BUY" in
  args <~ lift (
    p <- order_price self pair price ;;
    mi <- getitem (market_info self) pair ;;
    bc <- getitem mi "baseCurrency" ;;
    market_id <- getitem bc "soloMarketId" ;;
    a <- token_to_wei amount market_id ;;
    Ok (p, a)) ;;
  r <~ call (place_order_req pair side (fst args) (snd args) false false) ;;
  lift (created_order <- getitem r "order" ;; getitem created_order "id").

Definition cancel_order (order_id : string) : M bool :=
  canceled_order <~ call (cancel_order_req order_id) ;;
  lift (
    o <- getitem canceled_order "order" ;;
    id <- getitem o "id" ;;
    Ok (py_eq_str id order_id)).

Definition get_trades (self : DydxApi) (pair : string) (page_number : Z)
  : M (list Trade.t) :=
  result <~ call (get_my_fills_req [pair]) ;;
  lift (
    market_info <- getitem (market_info self) pair ;;
    fs <- getitem result "fills" ;;
    items <- py_iter fs ;;
    mapM (fun item => DydxTrade_from_message item pair market_info) items).

Definition get_all_trades (self : DydxApi) (pair : string) (page_number : Z)
  : M (list Trade.t) :=
  _ <~ assert (page_number =? 1) ;;
  r <~ call (get_fills_req [pair] 100) ;;
  lift (
    result <- getitem r "fills" ;;
    items <- py_iter result ;;
    market_info <- getitem (market_info self) pair ;;
    list_map_filter
      (fun item => DydxTrade_from_message item pair market_info)
      (fun item => st <- getitem item "status" ;; Ok (py_eq_str st "CONFIRMED"))
      items).


(** *** Notions used to state the properties *)

(** The raw orders that [get_orders] keeps. *)
Definition is_open (order : pyval) : bool :=
  match getitem order "status" with
  | Ok st => py_eq_str st "OPEN"
  | Raise _ => false
  end.

(** The raw fills that [get_all_trades] keeps. *)
Definition is_confirmed (fill : pyval) : bool :=
  match getitem fill "status" with
  | Ok st => py_eq_str st "CONFIRMED"
  | Raise _ => false
  end.

Definition has_status (item : pyval) : Prop :=
  exists st, getitem item "status" = Ok st.

(** The four market ids that [_balances_to_list] knows. *)
Definition known_market (id : Z) : Prop :=
  id = MARKET_ETH consts \/ id = MARKET_SAI consts \/
  id = MARKET_USDC consts \/ id = MARKET_DAI consts.

(** The value [m * 10^e] that a numeric string denotes, when it denotes a
    finite one. *)
Definition literal_value (s : string) : option Q :=
  match Lit.float_literal s with
  | Some (Lit.LFinite neg m e) =>
      let a := (inject_Z m * Qpower 10 e)%Q in
      Some (if neg then Qopp a else a)
  | _ => None
  end.

(** The quote-currency decimal count [d] that the translations read from
    the metadata of a market. *)
Definition quote_decimals (market_info : pyval) (d : Z) : Prop :=
  exists qc dv,
    getitem market_info "quoteCurrency" = Ok qc /\
    getitem qc "decimals" = Ok dv /\ py_int dv = Ok d.

(** The tick size that [place_order] computes:
    [abs(Decimal(minimumTickSize).as_tuple().exponent)]. *)
Definition tick_size (market_info : pyval) (t : Z) : Prop :=
  exists tv td te,
    getitem market_info "minimumTickSize" = Ok tv /\
    py_decimal tv = Ok td /\ Dec.exponent td = Ok te /\ t = Z.abs te.

(** The base-asset market id that [place_order] reads. *)
Definition base_market_id (market_info : pyval) (id : pyval) : Prop :=
  exists bc,
    getitem market_info "baseCurrency" = Ok bc /\
    getitem bc "soloMarketId" = Ok id.

(** The price [p * 10^(-(18 - d))] with the scaling done exactly, rounded
    to [t] decimal places. *)
Definition exact_order_price (p : F64.float) (d t : Z) : result Dec.decimal :=
  Dec.round_ndigits (Dec.scale10 (Dec.of_float p) (- (18 - d))) t.

(** *** Sample data

    A small exchange, used to run the adapter on concrete inputs: the
    market ids of the dydx package, two markets (DAI with 18 decimals and
    USDC with 6, both with a tick of [10^-14]), and a client that knows
    three orders and three fills. *)

Definition sample_consts : constants := mkConstants 0 1 2 3.

(** Every date reads as 2020-01-01T00:00:00Z. *)
Definition sample_clock : pyval -> result Z := fun _ => Ok 1577836800.

(** Whole tokens to wei with 18 decimals, whatever the market. *)
Definition sample_token_to_wei (amount : F64.float) (market : pyval)
  : result Z :=
  x <- float_mul amount (pow10 18) ;; F64.to_Z x.

Definition sample_market (d : Z) : pyval :=
  PDict [("quoteCurrency", PDict [("decimals", PInt d)]);
         ("baseCurrency", PDict [("decimals", PInt 18);
                                 ("soloMarketId", PInt 0)]);
         ("minimumTickSize", PStr "0.00000000000001")].

Definition sample_self : DydxApi :=
  mkDydxApi (PDict [("WETH-DAI", sample_market 18);
                    ("WETH-USDC", sample_market 6)]).

Definition sample_order (id status price base : string) : pyval :=
  PDict [("id", PStr id); ("status", PStr status);
         ("createdAt", PStr "2020-01-01T00:00:00.000Z");
         ("side", PStr "SELL"); ("price", PStr price);
         ("baseAmount", PStr base)].

Definition sample_fill (id status market price amount : string) : pyval :=
  PDict [("uuid", PStr id); ("status", PStr status);
         ("createdAt", PStr "2020-01-01T00:00:00.000Z");
         ("market", PStr market); ("side", PStr "BUY");
         ("price", PStr price); ("amount", PStr amount)].

Definition sample_orders : list pyval :=
  [sample_order "0xa1" "OPEN" "100.0" "1000000000000000000";
   sample_order "0xa2" "FILLED" "101.5" "2000000000000000000";
   sample_order "0xa3" "CANCELED" "99.0" "500000000000000000"].

Definition sample_fills : list pyval :=
  [sample_fill "f1" "CONFIRMED" "WETH-DAI" "100.0" "1000000000000000000";
   sample_fill "f2" "PENDING" "WETH-DAI" "100.5" "3000000000000000000";
   sample_fill "f3" "CONFIRMED" "DAI-WETH" "0.01" "1000000000000000000"].

Definition sample_client (q : request) : result pyval :=
  match q with
  | get_markets_req => Ok (PDict [("markets", market_info sample_self)])
  | get_my_balances_req =>
      Ok (PDict [("balances",
                  PDict [("0", PDict [("wei", PStr "1500000000000000000")]);
                         ("2", PDict [("wei", PStr "-1000000")]);
                         ("7", PDict [("wei", PStr "-0.5")])])])
  | get_my_orders_req _ _ _ => Ok (PDict [("orders", PList sample_orders)])
  | get_fills_req _ _ => Ok (PDict [("fills", PList sample_fills)])
  | get_my_fills_req _ => Ok (PDict [("fills", PList sample_fills)])
  | place_order_req _ _ _ _ _ _ => Ok (PDict [("order", PDict [("id", PStr "0xb1")])])
  | cancel_order_req _ => Ok (PDict [("order", PDict [("id", PStr "0xa1")])])
  | eth_deposit_req _ _ => Ok (PStr "0xc1")
  | eth_get_receipt_req _ => Ok (PDict [("status", PInt 1)])
  end.

(** [float("0.055")]. *)
Definition price_0_055 : F64.float := S754_finite false 7926335344172073 (-57).

(** *** Traversals *)

Lemma bind_Ok {A B : Type} (m : result A) (k : A -> result B) (b : B) :
  bind m k = Ok b -> exists a, m = Ok a /\ k a = Ok b.
Proof.
  destruct m as [a|e]; simpl; intros H; [eauto | discriminate].
Qed.


Lemma mapM_Forall2 {A B : Type} (f : A -> result B) (xs : list A) :
  forall ys, mapM f xs = Ok ys <-> Forall2 (fun x y => f x = Ok y) xs ys.
Proof.
  induction xs as [|x xs IH]; simpl; intros ys; split; intros H.
  - inversion H. constructor.
  - inversion H. reflexivity.
  - apply bind_Ok in H. destruct H as (y0 & Hy0 & H).
    apply bind_Ok in H. destruct H as (ys0 & Hys0 & H).
    inversion H; subst. constructor; [assumption | now apply IH].
  - inversion H as [|? y ? ys' Hy Hys]; subst.
    rewrite Hy. simpl. apply IH in Hys. rewrite Hys. reflexivity.
Qed.

(** When the test of every item succeeds, the lazy pipeline is the
    translation of the items that pass the test. *)
Lemma list_map_filter_spec {A B : Type} (f : A -> result B)
  (p : A -> result bool) (q : A -> bool) (xs : list A) :
  Forall (fun x => p x = Ok (q x)) xs ->
  list_map_filter f p xs = mapM f (filter q xs).
Proof.
  induction 1 as [|x xs Hx _ IH]; simpl; [reflexivity|].
  rewrite Hx. simpl. destruct (q x); simpl; rewrite IH; reflexivity.
Qed.

Lemma status_test (s : string) (item : pyval) :
  has_status item ->
  (st <- getitem item "status" ;; Ok (py_eq_str st s)) =
  Ok (match getitem item "status" with
      | Ok st => py_eq_str st s
      | Raise _ => false
      end).
Proof.
  intros [st H]. rewrite H. reflexivity.
Qed.

(** *** cancel_order *)

Lemma py_eq_str_iff (v : pyval) (s : string) :
  py_eq_str v s = true <-> v = PStr s.
Proof.
  destruct v; simpl; split; intros H; try discriminate.
  - apply String.eqb_eq in H. now subst.
  - inversion H; subst. apply String.eqb_refl.
Qed.

(** C4: when the client reports a cancelled order with some id,
    [cancel_order] makes that one call and returns a boolean, which is
    true exactly when the reported id is the requested [order_id]; a
    mismatch is the value [false], not an exception. *)
Theorem cancel_order_true_iff_id_matches :
  forall (order_id : string) (reply o id : pyval) (tr : list request),
    client (cancel_order_req order_id) = Ok reply ->
    getitem reply "order" = Ok o ->
    getitem o "id" = Ok id ->
    exists b : bool,
      cancel_order order_id tr
        = (Ok b, (tr ++ [cancel_order_req order_id])%list) /\
      (b = true <-> id = PStr order_id) /\
      (id <> PStr order_id -> b = false).
Proof.
  intros order_id reply o id tr Hc Ho Hid.
  exists (py_eq_str id order_id). split; [|split].
  - unfold cancel_order, bindM, call, lift. rewrite Hc. simpl.
    rewrite Ho. simpl. rewrite Hid. reflexivity.
  - apply py_eq_str_iff.
  - intros Hne. destruct (py_eq_str id order_id) eqn:E; [|reflexivity].
    apply py_eq_str_iff in E. contradiction.
Qed.

(** *** get_orders *)

(** C5: for every list of raw orders that all carry a status,
    [get_orders] returns the translations of exactly the orders whose
    status is ["OPEN"], in their order; it returns a list as soon as each
    of those translates, whatever the other orders hold. *)
Theorem get_orders_keeps_exactly_open :
  forall (self : DydxApi) (pair : string) (reply mi : pyval)
         (items : list pyval) (tr : list request),
    client (get_my_orders_req [pair] PNone PNone) = Ok reply ->
    getitem reply "orders" = Ok (PList items) ->
    getitem (market_info self) pair = Ok mi ->
    Forall has_status items ->
    fst (get_orders self pair tr)
      = mapM (fun item => DydxOrder_from_message item pair mi)
             (filter is_open items) /\
    (forall os, fst (get_orders self pair tr) = Ok os <->
       Forall2 (fun item o => DydxOrder_from_message item pair mi = Ok o)
               (filter is_open items) os).
Proof.
  intros self pair reply mi items tr Hc Ho Hmi Hst.
  assert (E : fst (get_orders self pair tr)
      = mapM (fun item => DydxOrder_from_message item pair mi)
             (filter is_open items)).
  { unfold get_orders, bindM, call, lift. rewrite Hc. simpl.
    rewrite Ho. simpl. rewrite Hmi. simpl.
    apply list_map_filter_spec.
    eapply Forall_impl; [|exact Hst]. intros item Hi.
    unfold is_open. now apply status_test. }
  split; [exact E|]. intros os. rewrite E. apply mapM_Forall2.
Qed.

(** *** get_all_trades *)

(** C6: for every list of raw fills that all carry a status,
    [get_all_trades] (on page 1) returns the translations of exactly the
    fills whose status is ["CONFIRMED"], in their order. *)
Theorem get_all_trades_keeps_exactly_confirmed :
  forall (self : DydxApi) (pair : string) (reply mi : pyval)
         (items : list pyval) (tr : list request),
    client (get_fills_req [pair] 100) = Ok reply ->
    getitem reply "fills" = Ok (PList items) ->
    getitem (market_info self) pair = Ok mi ->
    Forall has_status items ->
    fst (get_all_trades self pair 1 tr)
      = mapM (fun item => DydxTrade_from_message item pair mi)
             (filter is_confirmed items) /\
    (forall ts, fst (get_all_trades self pair 1 tr) = Ok ts <->
       Forall2 (fun item t => DydxTrade_from_message item pair mi = Ok t)
               (filter is_confirmed items) ts).
Proof.
  intros self pair reply mi items tr Hc Ho Hmi Hst.
  assert (E : fst (get_all_trades self pair 1 tr)
      = mapM (fun item => DydxTrade_from_message item pair mi)
             (filter is_confirmed items)).
  { unfold get_all_trades, bindM, call, lift, assert. simpl.
    rewrite Hc. simpl. rewrite Ho. simpl. rewrite Hmi. simpl.
    apply list_map_filter_spec.
    eapply Forall_impl; [|exact Hst]. intros item Hi.
    unfold is_confirmed. now apply status_test. }
  split; [exact E|]. intros ts. rewrite E. apply mapM_Forall2.
Qed.

(** C7: [get_all_trades] with a page number other than 1 raises
    [AssertionError] and leaves the trace of client calls as it was, so
    no call has been made; with page number 1 the check passes and the
    fills are requested from the client. *)
Theorem get_all_trades_page_check :
  forall (self : DydxApi) (pair : string) (tr : list request),
    (forall page_number : Z,
        page_number <> 1 ->
        get_all_trades self pair page_number tr = (Raise AssertionError, tr)) /\
    snd (get_all_trades self pair 1 tr)
      = (tr ++ [get_fills_req [pair] 100])%list.
Proof.
  intros self pair tr. split.
  - intros page_number Hne. unfold get_all_trades, bindM, assert, lift.
    destruct (page_number =? 1) eqn:E; [|reflexivity].
    apply Z.eqb_eq in E. contradiction.
  - unfold get_all_trades, bindM, assert, lift, call. simpl.
    destruct (client (get_fills_req [pair] 100)); reflexivity.
Qed.

(** *** The pair of a trade and of an order *)

Ltac invert_binds H :=
  repeat (let a := fresh "a" in
          let Ha := fresh "Ha" in
          apply bind_Ok in H; destruct H as (a & Ha & H)).


Lemma DydxTrade_ignores_pair (trade : pyval) (pair pair' : string)
  (mi : pyval) :
  DydxTrade_from_message trade pair mi = DydxTrade_from_message trade pair' mi.
Proof. reflexivity. Qed.




(** *** Balances of unknown markets *)

Lemma mapM_In_source {A B : Type} (f : A -> result B) (xs : list A) :
  forall ys x, mapM f xs = Ok ys -> In x xs -> exists y, In y ys /\ f x = Ok y.
Proof.
  induction xs as [|x0 xs IH]; simpl; intros ys x H Hin; [contradiction|].
  apply bind_Ok in H. destruct H as (y0 & Hy0 & H).
  apply bind_Ok in H. destruct H as (ys0 & Hys0 & H).
  inversion H; subst. destruct Hin as [->|Hin].
  - exists y0. simpl. auto.
  - destruct (IH _ _ Hys0 Hin) as (y & Hy & Hf). exists y. simpl. auto.
Qed.

Lemma assoc_dict_set_other {A : Type} (k k' : string) (v : A)
  (kv : list (string * A)) :
  k <> k' -> assoc k (dict_set k' v kv) = assoc k kv.
Proof.
  intros Hne. induction kv as [|[k0 v0] kv IH]; simpl.
  - destruct (String.eqb_spec k k'); [contradiction | reflexivity].
  - destruct (String.eqb_spec k' k0) as [->|Hk]; simpl.
    + destruct (String.eqb_spec k k0); [contradiction | reflexivity].
    + destruct (String.eqb_spec k k0); [reflexivity | exact IH].
Qed.

Lemma assoc_dict_set_same {A : Type} (k : string) (v : A)
  (kv : list (string * A)) :
  assoc k (dict_set k v kv) = Some v.
Proof.
  induction kv as [|[k0 v0] kv IH]; simpl.
  - now rewrite String.eqb_refl.
  - destruct (String.eqb_spec k k0) as [->|Hk]; simpl.
    + now rewrite String.eqb_refl.
    + destruct (String.eqb_spec k k0); [contradiction | exact IH].
Qed.

Lemma assoc_map_Raw (k : string) (kv : list (string * pyval)) :
  assoc k (map (fun kx => (fst kx, Raw (snd kx))) kv)
  = option_map Raw (assoc k kv).
Proof.
  induction kv as [|[k0 v0] kv IH]; simpl; [reflexivity|].
  destruct (String.eqb k k0); [reflexivity | exact IH].
Qed.

Lemma convert_balance_shape (balance : pyval) (decimals : Z)
  (out : list (string * field)) :
  _convert_balance_to_wad balance decimals = Ok out ->
  exists kv w,
    balance = PDict kv /\
    out = dict_set "wad" (WadObj w) (map (fun kx => (fst kx, Raw (snd kx))) kv).
Proof.
  unfold _convert_balance_to_wad. intros H. invert_binds H.
  destruct balance; simpl in Ha6; try discriminate.
  inversion Ha6; subst. inversion H; subst. eauto.
Qed.

(** C8: a balance entry whose market id reads as an integer other than the
    four known ids goes through the loop as the 18-decimal conversion of
    the untouched entry, so the only errors are those of the conversion
    itself; the converted entry has every key of the raw entry with its
    raw value, ["currency"] included, and only ["wad"] set; and it is in
    the list that [_balances_to_list] returns. *)
Theorem unknown_market_is_passed_through :
  forall (market_id : string) (balance : pyval) (n : Z),
    py_int (PStr market_id) = Ok n ->
    ~ known_market n ->
    balance_entry (market_id, balance) = _convert_balance_to_wad balance 18 /\
    (forall out,
        balance_entry (market_id, balance) = Ok out ->
        exists kv w,
          balance = PDict kv /\
          assoc "wad" out = Some (WadObj w) /\
          forall k, k <> "wad" -> assoc k out = option_map Raw (assoc k kv)) /\
    (forall balances items outs,
        py_items balances = Ok items ->
        In (market_id, balance) items ->
        _balances_to_list balances = Ok outs ->
        exists out, In out outs /\ _convert_balance_to_wad balance 18 = Ok out).
Proof.
  intros market_id balance n Hn Hk.
  assert (E : balance_entry (market_id, balance)
              = _convert_balance_to_wad balance 18).
  { unfold balance_entry. rewrite Hn. simpl.
    unfold known_market in Hk.
    destruct (Z.eqb_spec n (MARKET_ETH consts)); [exfalso; apply Hk; auto|].
    destruct (Z.eqb_spec n (MARKET_SAI consts)); [exfalso; apply Hk; auto|].
    destruct (Z.eqb_spec n (MARKET_USDC consts)); [exfalso; apply Hk; auto|].
    destruct (Z.eqb_spec n (MARKET_DAI consts)); [exfalso; apply Hk; auto|].
    reflexivity. }
  split; [exact E|]. split.
  - intros out H. rewrite E in H.
    destruct (convert_balance_shape _ _ _ H) as (kv & w & -> & ->).
    exists kv, w. split; [reflexivity|]. split.
    + apply assoc_dict_set_same.
    + intros k Hne. rewrite assoc_dict_set_other by assumption.
      apply assoc_map_Raw.
  - intros balances items outs Hi Hin H. unfold _balances_to_list in H.
    rewrite Hi in H. simpl in H.
    destruct (mapM_In_source _ _ _ _ H Hin) as (out & Ho & Hf).
    exists out. split; [assumption|]. now rewrite <- E.
Qed.

(** *** Decimal digits and rounding *)

Lemma digits_fuel_spec (fuel : nat) :
  forall c, 0 < c -> c < 2 ^ (Z.of_nat fuel + 1) ->
            10 ^ (Dec.digits_fuel fuel c - 1) <= c < 10 ^ Dec.digits_fuel fuel c
            /\ 1 <= Dec.digits_fuel fuel c.
Proof.
  induction fuel as [|f IH]; intros c Hc Hlt.
  - simpl in *. assert (c = 1) by lia. subst. simpl. lia.
  - cbn [Dec.digits_fuel]. destruct (Z.ltb_spec c 10) as [H10|H10].
    + simpl. lia.
    + assert (Hq : 0 < c / 10) by (apply Z.div_str_pos; lia).
      assert (Hq2 : c / 10 < 2 ^ (Z.of_nat f + 1)).
      { apply Z.div_lt_upper_bound; [lia|].
        replace (Z.of_nat (S f) + 1) with (Z.of_nat f + 1 + 1) in Hlt by lia.
        rewrite Z.pow_add_r in Hlt by lia. simpl (2 ^ 1) in Hlt. lia. }
      destruct (IH _ Hq Hq2) as [[Hlo Hhi] Hd].
      set (d := Dec.digits_fuel f (c / 10)) in *.
      replace (1 + d - 1) with (d - 1 + 1) by lia.
      replace (1 + d) with (d + 1) by lia.
      rewrite !Z.pow_add_r by lia. simpl (10 ^ 1).
      pose proof (Z.div_mod c 10 ltac:(lia)) as Hdm.
      pose proof (Z.mod_pos_bound c 10 ltac:(lia)) as Hm.
      lia.
Qed.

Lemma digits_spec (c : Z) :
  0 < c -> 10 ^ (Dec.digits c - 1) <= c < 10 ^ Dec.digits c /\ 1 <= Dec.digits c.
Proof.
  intros Hc. unfold Dec.digits. apply digits_fuel_spec; [assumption|].
  rewrite Z2Nat.id by apply Z.log2_nonneg.
  replace (Z.log2 c + 1) with (Z.succ (Z.log2 c)) by lia.
  apply Z.log2_spec. assumption.
Qed.

Lemma digits_unique (c d : Z) :
  10 ^ (d - 1) <= c < 10 ^ d -> 1 <= d -> Dec.digits c = d.
Proof.
  intros [Hlo Hhi] Hd.
  assert (Hc : 0 < c).
  { assert (0 < 10 ^ (d - 1)) by (apply Z.pow_pos_nonneg; lia). lia. }
  destruct (digits_spec c Hc) as [[Hlo' Hhi'] Hd'].
  set (d' := Dec.digits c) in *.
  destruct (Z.lt_trichotomy d d') as [H|[H|H]]; [exfalso|lia|exfalso].
  - assert (10 ^ d <= 10 ^ (d' - 1)) by (apply Z.pow_le_mono_r; lia). lia.
  - assert (10 ^ d' <= 10 ^ (d - 1)) by (apply Z.pow_le_mono_r; lia). lia.
Qed.

Lemma digits_le_iff (c k : Z) :
  0 < c -> 1 <= k -> (Dec.digits c <= k <-> c < 10 ^ k).
Proof.
  intros Hc Hk. destruct (digits_spec c Hc) as [[Hlo Hhi] Hd].
  split; intros H.
  - assert (10 ^ Dec.digits c <= 10 ^ k) by (apply Z.pow_le_mono_r; lia). lia.
  - destruct (Z.le_gt_cases (Dec.digits c) k) as [|Hgt]; [assumption|].
    assert (10 ^ k <= 10 ^ (Dec.digits c - 1)) by (apply Z.pow_le_mono_r; lia).
    lia.
Qed.

Lemma div_half_even_bounds (c p : Z) :
  0 < p -> c / p <= Dec.div_half_even c p <= c / p + 1.
Proof.
  intros Hp. unfold Dec.div_half_even.
  destruct (2 * (c mod p) ?= p); [destruct (Z.even (c / p))| |]; lia.
Qed.

Lemma div_half_even_exact (c p : Z) :
  0 < p -> c mod p = 0 -> Dec.div_half_even c p = c / p.
Proof.
  intros Hp Hm. unfold Dec.div_half_even. rewrite Hm.
  replace (2 * 0) with 0 by lia.
  destruct (Z.compare_spec 0 p); lia.
Qed.

(** A positive coefficient that stands for at least [10^(-j)] still does
    after rounding to the context. *)
Lemma round_context_lower (j : Z) (s : bool) (c e : Z) :
  1 <= c -> 10 ^ (- (e + j)) <= c ->
  exists c' e',
    Dec.round_context (Dec.DFinite s c e) = Dec.DFinite s c' e' /\
    1 <= c' /\ 10 ^ (- (e' + j)) <= c'.
Proof.
  intros Hc Hlow. unfold Dec.round_context.
  destruct (Z.leb_spec (Dec.digits c) Dec.context_prec) as [Hd|Hd].
  - exists c, e. auto.
  - unfold Dec.context_prec in *.
    destruct (digits_spec c ltac:(lia)) as [[Hlo Hhi] _].
    set (k := Dec.digits c - 28) in *.
    assert (Hk : 0 < k) by lia.
    assert (Hp : 0 < 10 ^ k) by (apply Z.pow_pos_nonneg; lia).
    pose proof (div_half_even_bounds c (10 ^ k) Hp) as [Hb _].
    assert (H27 : 10 ^ 27 <= c / 10 ^ k).
    { apply Z.div_le_lower_bound; [lia|].
      rewrite <- Z.pow_add_r by lia.
      replace (k + 27) with (Dec.digits c - 1) by lia. assumption. }
    exists (Dec.div_half_even c (10 ^ k)), (e + k).
    split; [reflexivity|]. split; [lia|].
    destruct (Z.le_gt_cases (- (e + k + j)) 0) as [Hneg|Hpos].
    + assert (10 ^ (- (e + k + j)) <= 1).
      { destruct (Z.eq_dec (- (e + k + j)) 0) as [->|Hne]; [simpl; lia|].
        rewrite Z.pow_neg_r by lia. lia. }
      lia.
    + assert (10 ^ (- (e + k + j)) <= c / 10 ^ k); [|lia].
      apply Z.div_le_lower_bound; [lia|].
      rewrite <- Z.pow_add_r by lia.
      replace (k + - (e + k + j)) with (- (e + j)) by lia. assumption.
Qed.

Lemma round_context_sign (s : bool) (c e : Z) :
  0 <= c ->
  exists c' e',
    Dec.round_context (Dec.DFinite s c e) = Dec.DFinite s c' e' /\ 0 <= c'.
Proof.
  intros Hc. unfold Dec.round_context.
  destruct (Z.leb_spec (Dec.digits c) Dec.context_prec) as [Hd|Hd].
  - exists c, e. auto.
  - eexists _, _. split; [reflexivity|].
    set (k := Dec.digits c - Dec.context_prec).
    assert (Hp : 0 < 10 ^ k) by (apply Z.pow_pos_nonneg; lia).
    pose proof (div_half_even_bounds c (10 ^ k) Hp) as [Hb _].
    assert (0 <= c / 10 ^ k) by (apply Z.div_pos; lia). lia.
Qed.

Lemma to_integral_down_sign (s : bool) (c e v : Z) :
  0 <= c ->
  Dec.to_integral_down (Dec.DFinite s c e) = Ok v ->
  if s then v <= 0 else 0 <= v.
Proof.
  intros Hc. unfold Dec.to_integral_down.
  set (a := if 0 <=? e then c * 10 ^ e else c / 10 ^ (- e)).
  assert (Ha : 0 <= a).
  { unfold a. destruct (Z.leb_spec 0 e).
    - apply Z.mul_nonneg_nonneg; [lia|]. apply Z.pow_nonneg. lia.
    - apply Z.div_pos; [lia|]. apply Z.pow_pos_nonneg; lia. }
  destruct ((a =? 0) || (Dec.digits a <=? 1000)); [|discriminate].
  intros H. inversion H; subst. destruct s; lia.
Qed.

Lemma to_integral_down_lower (s : bool) (c e v : Z) :
  1 <= c -> 10 ^ (- e) <= c ->
  Dec.to_integral_down (Dec.DFinite s c e) = Ok v ->
  if s then v <= -1 else 1 <= v.
Proof.
  intros Hc Hlow. unfold Dec.to_integral_down.
  set (a := if 0 <=? e then c * 10 ^ e else c / 10 ^ (- e)).
  assert (Ha : 1 <= a).
  { unfold a. destruct (Z.leb_spec 0 e).
    - pose proof (Z.pow_pos_nonneg 10 e ltac:(lia) ltac:(lia)). nia.
    - apply Z.div_le_lower_bound; [apply Z.pow_pos_nonneg; lia | lia]. }
  destruct ((a =? 0) || (Dec.digits a <=? 1000)); [|discriminate].
  intros H. inversion H; subst. destruct s; lia.
Qed.

(** *** Wad.from_number on the results of from_wei *)

Lemma from_wei_cases (a : Z) (u : string) (w : number) :
  from_wei a u = Ok w ->
  (a = 0 /\ w = NInt 0) \/
  (exists k, units (Lit.lower_string u) = Some k /\
             0 < a <= MAX_WEI /\ w = NDecimal (Dec.DFinite false a (- k))).
Proof.
  unfold from_wei. destruct (units (Lit.lower_string u)) as [k|]; [|discriminate].
  destruct (Z.eqb_spec a 0) as [->|Hne].
  - intros H. inversion H. auto.
  - destruct (Z.ltb_spec a 0) as [Hlt|Hge]; simpl; [discriminate|].
    destruct (Z.ltb_spec MAX_WEI a) as [Hgt|Hle]; [discriminate|].
    intros H. inversion H. right. exists k. repeat split; auto; lia.
Qed.

Lemma units_decimals (u : string) (k : Z) :
  units u = Some k -> k = 18 \/ k = 6.
Proof.
  unfold units. destruct (String.eqb u "ether"); [intros H; inversion H; auto|].
  destruct (String.eqb u "mwei"); [intros H; inversion H; auto | discriminate].
Qed.

Lemma Wad_from_number_zero : Wad_from_number (NInt 0) = Ok (mkWad 0).
Proof. reflexivity. Qed.

Lemma Wad_from_decimal_nonneg (a e : Z) (r : Wad) :
  0 <= a ->
  Wad_from_number (NDecimal (Dec.DFinite false a e)) = Ok r ->
  0 <= wad_value r.
Proof.
  intros Ha. unfold Wad_from_number, Dec.mul. cbn [bind xorb].
  destruct (round_context_sign false (a * 10 ^ 18) (e + 0) ltac:(lia))
    as (c' & e' & -> & Hc').
  intros H. apply bind_Ok in H. destruct H as (v & Hv & H).
  inversion H; subst. simpl.
  exact (to_integral_down_sign false c' e' v Hc' Hv).
Qed.

Lemma Wad_from_decimal_negative (c e : Z) (r : Wad) :
  1 <= c -> 10 ^ (- (e + 18)) <= c ->
  Wad_from_number (NDecimal (Dec.DFinite true c e)) = Ok r ->
  wad_value r <= -1.
Proof.
  intros Hc Hlow. unfold Wad_from_number, Dec.mul. cbn [bind xorb].
  assert (H18 : 0 < 10 ^ 18) by (apply Z.pow_pos_nonneg; lia).
  assert (Hlow' : 10 ^ (- (e + 0 + 0)) <= c * 10 ^ 18).
  { replace (- (e + 0 + 0)) with (- e) by lia.
    destruct (Z.le_gt_cases (- e) 18) as [Hs|Hb].
    - destruct (Z.le_gt_cases 0 (- e)) as [Hp|Hn].
      + assert (10 ^ (- e) <= 10 ^ 18) by (apply Z.pow_le_mono_r; lia). nia.
      + rewrite Z.pow_neg_r by lia. nia.
    - replace (- e) with (- (e + 18) + 18) by lia.
      rewrite Z.pow_add_r by lia. nia. }
  destruct (round_context_lower 0 true (c * 10 ^ 18) (e + 0)
              ltac:(nia) Hlow') as (c' & e' & -> & Hc' & Hl').
  replace (- (e' + 0)) with (- e') in Hl' by lia.
  intros H. apply bind_Ok in H. destruct H as (v & Hv & H).
  inversion H; subst. simpl.
  exact (to_integral_down_lower true c' e' v Hc' Hl' Hv).
Qed.

(** Below [10^28] the conversion of whole wei is exact. *)
Lemma Wad_from_wei_exact (a : Z) :
  0 < a < 10 ^ 28 ->
  Wad_from_number (NDecimal (Dec.DFinite false a (-18))) = Ok (mkWad a).
Proof.
  intros [Hpos Hlt]. unfold Wad_from_number, Dec.mul. cbn [bind xorb].
  assert (H18 : 0 < 10 ^ 18) by (apply Z.pow_pos_nonneg; lia).
  assert (Hda : Dec.digits a <= 1000).
  { apply digits_le_iff; [lia | lia |].
    assert (10 ^ 28 <= 10 ^ 1000) by (apply Z.pow_le_mono_r; lia). lia. }
  assert (Hfin : forall c e, (if 0 <=? e then c * 10 ^ e else c / 10 ^ (- e)) = a ->
            bind (Dec.to_integral_down (Dec.DFinite false c e))
                 (fun v => Ok (mkWad v)) = Ok (mkWad a)).
  { intros c e Hv. unfold Dec.to_integral_down. rewrite Hv.
    destruct (Z.leb_spec (Dec.digits a) 1000); [|lia].
    rewrite orb_true_r. reflexivity. }
  unfold Dec.round_context.
  destruct (Z.leb_spec (Dec.digits (a * 10 ^ 18)) Dec.context_prec) as [Hd|Hd].
  - apply Hfin. simpl (0 <=? -18 + 0). cbv iota.
    replace (- (-18 + 0)) with 18 by lia. apply Z.div_mul. lia.
  - unfold Dec.context_prec in *.
    set (k := Dec.digits (a * 10 ^ 18) - 28) in *.
    assert (Hk : 0 < k <= 18).
    { split; [lia|].
      assert (Dec.digits (a * 10 ^ 18) <= 46); [|lia].
      apply digits_le_iff; [nia | lia |].
      replace 46 with (28 + 18) by lia. rewrite Z.pow_add_r by lia. nia. }
    assert (Hp : 0 < 10 ^ k) by (apply Z.pow_pos_nonneg; lia).
    assert (Hsplit : a * 10 ^ 18 = a * 10 ^ (18 - k) * 10 ^ k).
    { rewrite <- Z.mul_assoc, <- Z.pow_add_r by lia.
      replace (18 - k + k) with 18 by lia. reflexivity. }
    assert (Hdiv : Dec.div_half_even (a * 10 ^ 18) (10 ^ k) = a * 10 ^ (18 - k)).
    { rewrite div_half_even_exact; [| lia |].
      - rewrite Hsplit. apply Z.div_mul. lia.
      - rewrite Hsplit. apply Z.mod_mul. lia. }
    rewrite Hdiv. apply Hfin.
    destruct (Z.leb_spec 0 (-18 + 0 + k)) as [He|He].
    + assert (Hk18 : k = 18) by lia. rewrite Hk18.
      replace (18 - 18) with 0 by lia.
      replace (-18 + 0 + 18) with 0 by lia. rewrite Z.pow_0_r. lia.
    + replace (- (-18 + 0 + k)) with (18 - k) by lia.
      apply Z.div_mul.
      assert (0 < 10 ^ (18 - k)) by (apply Z.pow_pos_nonneg; lia). lia.
Qed.

(** *** Sign and truncation of a float *)

Lemma ltb0_sign (x : F64.float) (n : Z) :
  F64.to_Z x = Ok n ->
  (F64.ltb0 x = true -> n <= 0) /\ (F64.ltb0 x = false -> 0 <= n).
Proof.
  destruct x as [s|s| |s m e]; try discriminate.
  - intros H. inversion H. split; lia.
  - unfold F64.to_Z.
    set (a := match e with
              | 0 => Z.pos m
              | Z.pos k => Z.pos m * 2 ^ Z.pos k
              | Z.neg k => Z.pos m / 2 ^ Z.pos k
              end).
    assert (Ha : 0 <= a).
    { subst a. destruct e; [lia | |].
      - apply Z.mul_nonneg_nonneg; [lia|]. apply Z.pow_nonneg. lia.
      - apply Z.div_pos; [lia|]. apply Z.pow_pos_nonneg; lia. }
    intros H. inversion H; subst n. clear H.
    unfold F64.ltb0, SFltb, SFcompare, F64.zero.
    destruct s; split; intros H; try discriminate; lia.
Qed.

(** *** Exactness of binary64 on small integers and on multiplication by one *)

Lemma digits2_pos_bounds (p : positive) :
  2 ^ (Z.pos (digits2_pos p) - 1) <= Z.pos p < 2 ^ Z.pos (digits2_pos p).
Proof.
  induction p as [p IH|p IH|]; cbn [digits2_pos].
  - rewrite Pos2Z.inj_succ.
    replace (Z.succ (Z.pos (digits2_pos p)) - 1)
      with (Z.pos (digits2_pos p) - 1 + 1) by lia.
    rewrite Z.pow_succ_r by lia.
    rewrite Z.pow_add_r by lia. simpl (2 ^ 1). lia.
  - rewrite Pos2Z.inj_succ.
    replace (Z.succ (Z.pos (digits2_pos p)) - 1)
      with (Z.pos (digits2_pos p) - 1 + 1) by lia.
    rewrite Z.pow_succ_r by lia.
    rewrite Z.pow_add_r by lia. simpl (2 ^ 1). lia.
  - simpl. lia.
Qed.

Lemma iter_xO_value (p k : positive) :
  Z.pos (Pos.iter xO p k) = Z.pos p * 2 ^ Z.pos k.
Proof.
  induction k as [|k IH] using Pos.peano_ind.
  - simpl. lia.
  - rewrite Pos.iter_succ, Pos2Z.inj_succ, Z.pow_succ_r by lia.
    rewrite Pos2Z.inj_xO, IH. lia.
Qed.

Lemma digits2_iter_xO (p k : positive) :
  digits2_pos (Pos.iter xO p k) = (digits2_pos p + k)%positive.
Proof.
  induction k as [|k IH] using Pos.peano_ind.
  - simpl. lia.
  - rewrite Pos.iter_succ. cbn [digits2_pos]. rewrite IH. lia.
Qed.

(** A mantissa that already has its canonical exponent goes through the
    rounding of [SpecFloat] unchanged. *)
Lemma binary_round_aux_canonical (s : bool) (m : positive) (e : Z) :
  bounded F64.prec F64.emax m e = true ->
  binary_round_aux F64.prec F64.emax s (Z.pos m) e loc_Exact
  = S754_finite s m e.
Proof.
  unfold bounded, canonical_mantissa. intros H.
  apply andb_true_iff in H. destruct H as [Hc Hb].
  apply Z.eqb_eq in Hc.
  unfold binary_round_aux, shr_fexp. cbn [Zdigits2 shr_record_of_loc].
  rewrite Hc, Z.sub_diag. cbn [shr shr_m loc_of_shr_record round_nearest_even].
  cbn [Zdigits2 shr_record_of_loc]. rewrite Hc, Z.sub_diag.
  cbn [shr shr_m]. rewrite Hb. reflexivity.
Qed.

Lemma of_Z_pos_exact (s : bool) (p : positive) :
  Z.pos p < 2 ^ 53 ->
  exists m e,
    binary_round F64.prec F64.emax s p 0 = S754_finite s m e /\
    e <= 0 /\ Z.pos m = Z.pos p * 2 ^ (- e).
Proof.
  intros Hlt.
  pose proof (digits2_pos_bounds p) as [Hlo Hhi].
  set (d := Z.pos (digits2_pos p)) in *.
  assert (Hd : 1 <= d <= 53).
  { split; [lia|]. destruct (Z.le_gt_cases d 53) as [|Hgt]; [assumption|].
    assert (2 ^ 53 <= 2 ^ (d - 1)) by (apply Z.pow_le_mono_r; lia). lia. }
  unfold binary_round.
  assert (Hf : fexp F64.prec F64.emax (d + 0) = d - 53).
  { unfold fexp, emin, F64.prec, F64.emax. lia. }
  fold d. rewrite Hf. unfold shl_align.
  destruct (d - 53 - 0) as [|q|q] eqn:Hq; [| lia |].
  - exists p, 0. split; [|split; [lia | simpl; lia]].
    apply binary_round_aux_canonical.
    unfold bounded, canonical_mantissa. fold d.
    rewrite Hf. apply andb_true_iff. split; [apply Z.eqb_eq; lia|].
    unfold F64.emax, F64.prec. reflexivity.
  - exists (Pos.iter xO p q), (d - 53). split; [|split; [lia|]].
    + apply binary_round_aux_canonical.
      unfold bounded, canonical_mantissa. rewrite digits2_iter_xO.
      rewrite Pos2Z.inj_add. fold d.
      replace (d + Z.pos q + (d - 53)) with (d + 0) by lia.
      rewrite Hf. apply andb_true_iff. split; [apply Z.eqb_eq; lia|].
      unfold F64.emax, F64.prec. apply Z.leb_le. lia.
    + rewrite iter_xO_value. f_equal. f_equal. lia.
Qed.

(** An integer below [2^53] in absolute value survives the round trip
    through a float. *)
Lemma float_of_int_exact (n : Z) :
  Z.abs n < 2 ^ 53 ->
  exists x, float_of_int n = Ok x /\ F64.to_Z x = Ok n.
Proof.
  intros Hn. unfold float_of_int, F64.of_Z, binary_normalize.
  destruct n as [|p|p].
  - eexists. split; reflexivity.
  - destruct (of_Z_pos_exact false p Hn) as (m & e & -> & He & Hm).
    eexists. split; [reflexivity|]. unfold F64.to_Z.
    destruct e as [|k|k]; [simpl in Hm; f_equal; lia | lia |].
    rewrite Hm. replace (- Z.neg k) with (Z.pos k) by lia.
    rewrite Z.div_mul; [reflexivity|].
    assert (0 < 2 ^ Z.pos k) by (apply Z.pow_pos_nonneg; lia). lia.
  - destruct (of_Z_pos_exact true p Hn) as (m & e & -> & He & Hm).
    eexists. split; [reflexivity|]. unfold F64.to_Z.
    destruct e as [|k|k]; [simpl in Hm; f_equal; lia | lia |].
    rewrite Hm. replace (- Z.neg k) with (Z.pos k) by lia.
    rewrite Z.div_mul; [reflexivity|].
    assert (0 < 2 ^ Z.pos k) by (apply Z.pow_pos_nonneg; lia). lia.
Qed.

Lemma shr_52_shifted (m : positive) :
  iter_pos shr_1 52
    {| shr_m := Z.pos (4503599627370496 * m); shr_r := false; shr_s := false |}
  = {| shr_m := Z.pos m; shr_r := false; shr_s := false |}.
Proof. reflexivity. Qed.

Lemma digits2_shifted_52 (m : positive) :
  Z.pos (digits2_pos (4503599627370496 * m)) = Z.pos (digits2_pos m) + 52.
Proof.
  change (4503599627370496 * m)%positive with (Pos.iter xO m 52).
  rewrite digits2_iter_xO. lia.
Qed.

(** [x * 1.0 = x] for every float in canonical form. *)
Lemma mul_one_r (x : F64.float) :
  F64.valid x = true -> F64.mul x F64.one = x.
Proof.
  destruct x as [s|s| |s m e]; intros Hv;
    [destruct s; reflexivity | destruct s; reflexivity | reflexivity |].
  unfold F64.valid, valid_binary in Hv.
  pose proof Hv as Hb. unfold bounded, canonical_mantissa in Hb.
  apply andb_true_iff in Hb. destruct Hb as [Hc Hb]. apply Z.eqb_eq in Hc.
  unfold F64.mul, F64.one, SFmul. rewrite xorb_false_r.
  rewrite Pos.mul_comm.
  unfold binary_round_aux, shr_fexp. cbn [Zdigits2 shr_record_of_loc].
  rewrite digits2_shifted_52.
  replace (Z.pos (digits2_pos m) + 52 + (e + -52))
    with (Z.pos (digits2_pos m) + e) by lia.
  rewrite Hc. replace (e - (e + -52)) with 52 by lia.
  cbn [shr]. rewrite shr_52_shifted.
  cbn [shr_m loc_of_shr_record round_nearest_even Zdigits2 shr_record_of_loc].
  replace (e + -52 + 52) with e by lia.
  rewrite Hc, Z.sub_diag. cbn [shr shr_m]. rewrite Hb. reflexivity.
Qed.

Lemma float_mul_pow10_zero (x : F64.float) :
  F64.valid x = true -> float_mul x (pow10 0) = Ok x.
Proof.
  intros Hv. change (float_mul x (pow10 0)) with (Ok (F64.mul x F64.one)).
  now rewrite mul_one_r.
Qed.

Lemma py_pow10_Ok (k : Z) (y : number) :
  py_pow10 k = Ok y -> y = pow10 k.
Proof.
  unfold py_pow10. destruct (0 <=? k).
  - intros H. now inversion H.
  - destruct (float_of_int k); cbn [bind]; intros H; now inversion H.
Qed.

Lemma py_pow10_small (k : Z) :
  Z.abs k < 2 ^ 53 -> py_pow10 k = Ok (pow10 k).
Proof.
  intros Hk. unfold py_pow10. destruct (0 <=? k); [reflexivity|].
  destruct (float_of_int_exact k Hk) as (x & -> & _). reflexivity.
Qed.


(** *** The translations, step by step *)

Lemma DydxOrder_from_message_inv (item : pyval) (pair : string)
  (mi : pyval) (o : Order.t) :
  DydxOrder_from_message item pair mi = Ok o ->
  exists d pv pf scaled price id cv ts sv bv bf bi w amount,
    quote_decimals mi d /\
    getitem item "price" = Ok pv /\ py_float pv = Ok pf /\
    float_mul pf (pow10 (18 - d)) = Ok scaled /\
    Wad_from_number (NFloat scaled) = Ok price /\
    getitem item "id" = Ok id /\
    getitem item "createdAt" = Ok cv /\ parse_timestamp cv = Ok ts /\
    getitem item "side" = Ok sv /\
    getitem item "baseAmount" = Ok bv /\ py_float bv = Ok bf /\
    F64.to_Z bf = Ok bi /\ from_wei (Z.abs bi) "ether" = Ok w /\
    Wad_from_number w = Ok amount /\
    o = Order.mk id ts pair (py_eq_str sv "SELL") price amount.
Proof.
  unfold DydxOrder_from_message. intros H.
  apply bind_Ok in H. destruct H as (qc & Hqc & H).
  apply bind_Ok in H. destruct H as (dv & Hdv & H).
  apply bind_Ok in H. destruct H as (d & Hd & H).
  apply bind_Ok in H. destruct H as (pv & Hpv & H).
  apply bind_Ok in H. destruct H as (pf & Hpf & H).
  apply bind_Ok in H. destruct H as (factor & Hfa & H).
  apply py_pow10_Ok in Hfa. subst factor.
  apply bind_Ok in H. destruct H as (scaled & Hsc & H).
  apply bind_Ok in H. destruct H as (price & Hprice & H).
  apply bind_Ok in H. destruct H as (id & Hid & H).
  apply bind_Ok in H. destruct H as (cv & Hcv & H).
  apply bind_Ok in H. destruct H as (ts & Hts & H).
  apply bind_Ok in H. destruct H as (sv & Hsv & H).
  apply bind_Ok in H. destruct H as (bv & Hbv & H).
  apply bind_Ok in H. destruct H as (bf & Hbf & H).
  apply bind_Ok in H. destruct H as (bi & Hbi & H).
  apply bind_Ok in H. destruct H as (w & Hw & H).
  apply bind_Ok in H. destruct H as (amount & Ham & H).
  inversion H; subst.
  exists d, pv, pf, scaled, price, id, cv, ts, sv, bv, bf, bi, w, amount.
  repeat split; auto. exists qc, dv. auto.
Qed.

Lemma DydxTrade_from_message_inv (trade : pyval) (pair : string)
  (mi : pyval) (t : Trade.t) :
  DydxTrade_from_message trade pair mi = Ok t ->
  exists d pv pf scaled price id cv ts mk sv av af ai w amount,
    quote_decimals mi d /\
    getitem trade "price" = Ok pv /\ py_float pv = Ok pf /\
    float_mul pf (pow10 (18 - d)) = Ok scaled /\
    Wad_from_number (NFloat scaled) = Ok price /\
    getitem trade "uuid" = Ok id /\
    getitem trade "createdAt" = Ok cv /\ parse_timestamp cv = Ok ts /\
    getitem trade "market" = Ok mk /\
    getitem trade "side" = Ok sv /\
    getitem trade "amount" = Ok av /\ py_float av = Ok af /\
    F64.to_Z af = Ok ai /\ from_wei (Z.abs ai) "ether" = Ok w /\
    Wad_from_number w = Ok amount /\
    t = Trade.mk id ts mk (py_eq_str sv "SELL") price amount.
Proof.
  unfold DydxTrade_from_message. intros H.
  apply bind_Ok in H. destruct H as (qc & Hqc & H).
  apply bind_Ok in H. destruct H as (dv & Hdv & H).
  apply bind_Ok in H. destruct H as (d & Hd & H).
  apply bind_Ok in H. destruct H as (pv & Hpv & H).
  apply bind_Ok in H. destruct H as (pf & Hpf & H).
  apply bind_Ok in H. destruct H as (factor & Hfa & H).
  apply py_pow10_Ok in Hfa. subst factor.
  apply bind_Ok in H. destruct H as (scaled & Hsc & H).
  apply bind_Ok in H. destruct H as (price & Hprice & H).
  apply bind_Ok in H. destruct H as (id & Hid & H).
  apply bind_Ok in H. destruct H as (cv & Hcv & H).
  apply bind_Ok in H. destruct H as (ts & Hts & H).
  apply bind_Ok in H. destruct H as (mk & Hmk & H).
  apply bind_Ok in H. destruct H as (sv & Hsv & H).
  apply bind_Ok in H. destruct H as (av & Hav & H).
  apply bind_Ok in H. destruct H as (af & Haf & H).
  apply bind_Ok in H. destruct H as (ai & Hai & H).
  apply bind_Ok in H. destruct H as (w & Hw & H).
  apply bind_Ok in H. destruct H as (amount & Ham & H).
  inversion H; subst.
  exists d, pv, pf, scaled, price, id, cv, ts, mk, sv, av, af, ai, w, amount.
  repeat split; auto. exists qc, dv. auto.
Qed.

Lemma quote_decimals_unique (mi : pyval) (d d' : Z) :
  quote_decimals mi d -> quote_decimals mi d' -> d = d'.
Proof.
  intros (qc & dv & H1 & H2 & H3) (qc' & dv' & H1' & H2' & H3').
  congruence.
Qed.

(** *** The amount of an order *)

Lemma Wad_from_wei_nonneg (a : Z) (u : string) (w : number) (r : Wad) :
  from_wei a u = Ok w -> Wad_from_number w = Ok r -> 0 <= wad_value r.
Proof.
  intros Hw Hr. destruct (from_wei_cases _ _ _ Hw) as [[_ ->]|(k & _ & Ha & ->)].
  - rewrite Wad_from_number_zero in Hr. inversion Hr. simpl. lia.
  - eapply Wad_from_decimal_nonneg; [|exact Hr]. lia.
Qed.

Lemma Wad_from_wei_ether_exact (a : Z) (w : number) (r : Wad) :
  0 <= a < 10 ^ 28 ->
  from_wei a "ether" = Ok w -> Wad_from_number w = Ok r -> wad_value r = a.
Proof.
  intros Ha Hw Hr.
  destruct (from_wei_cases _ _ _ Hw) as [[-> ->]|(k & Hk & Ha' & ->)].
  - rewrite Wad_from_number_zero in Hr. inversion Hr. reflexivity.
  - change (units (Lit.lower_string "ether")) with (Some 18) in Hk.
    inversion Hk; subst k.
    rewrite Wad_from_wei_exact in Hr by lia. inversion Hr. reflexivity.
Qed.

(** C9 (amended): the amount of a translated order is never negative; it is
    the absolute value of [int(float(baseAmount))], read as a count of
    [10^-18] units, whenever that integer is below [10^28]; for an integer
    base amount below [2^53] in absolute value the float conversion loses
    nothing and the amount is exactly its absolute value; and the amount
    does not depend on the market at all. *)
Theorem order_amount_is_abs_of_truncated_base_amount :
  forall (item : pyval) (pair : string) (mi : pyval) (o : Order.t),
    DydxOrder_from_message item pair mi = Ok o ->
    0 <= wad_value (Order.amount o) /\
    (exists bv x n,
        getitem item "baseAmount" = Ok bv /\ py_float bv = Ok x /\
        F64.to_Z x = Ok n /\
        (Z.abs n < 10 ^ 28 -> wad_value (Order.amount o) = Z.abs n)) /\
    (forall bv k,
        getitem item "baseAmount" = Ok bv ->
        py_float bv = float_of_int k -> Z.abs k < 2 ^ 53 ->
        wad_value (Order.amount o) = Z.abs k) /\
    (forall pair' mi' o',
        DydxOrder_from_message item pair' mi' = Ok o' ->
        Order.amount o' = Order.amount o).
Proof.
  intros item pair mi o H.
  destruct (DydxOrder_from_message_inv _ _ _ _ H)
    as (d & pv & pf & scaled & price & id & cv & ts & sv & bv & bf & bi & w
        & amount & Hd & Hpv & Hpf & Hsc & Hpr & Hid & Hcv & Hts & Hsv & Hbv
        & Hbf & Hbi & Hw & Ham & ->).
  cbn [Order.amount].
  assert (Hex : Z.abs bi < 10 ^ 28 -> wad_value amount = Z.abs bi).
  { intros Hlt. eapply Wad_from_wei_ether_exact; eauto. lia. }
  split; [eapply Wad_from_wei_nonneg; eauto|].
  split; [exists bv, bf, bi; auto|]. split.
  - intros bv' k Hbv' Hk Hlt.
    assert (bv' = bv) by congruence. subst bv'.
    destruct (float_of_int_exact k Hlt) as (x & Hx & Hxk).
    assert (x = bf) by congruence. subst x.
    assert (bi = k) by congruence. subst bi.
    apply Hex. assert (2 ^ 53 < 10 ^ 28) by (vm_compute; reflexivity). lia.
  - intros pair' mi' o' H'.
    destruct (DydxOrder_from_message_inv _ _ _ _ H')
      as (d' & pv' & pf' & scaled' & price' & id' & cv' & ts' & sv' & bv'
          & bf' & bi' & w' & amount' & _ & _ & _ & _ & _ & _ & _ & _ & _
          & Hbv' & Hbf' & Hbi' & Hw' & Ham' & ->).
    cbn [Order.amount]. congruence.
Qed.

(** *** The sign of a converted balance *)

Lemma binary_round_aux_sign (s : bool) (m e : Z) (l : location) :
  match binary_round_aux F64.prec F64.emax s m e l with
  | S754_finite s' _ _ => s' = s
  | _ => True
  end.
Proof.
  unfold binary_round_aux.
  destruct (shr_fexp F64.prec F64.emax m e l) as [mrs e'].
  destruct (shr_fexp F64.prec F64.emax _ e' loc_Exact) as [mrs' e''].
  destruct (shr_m mrs'); trivial.
  destruct (e'' <=? F64.emax - F64.prec); trivial.
Qed.

Lemma of_decimal_sign (neg : bool) (m e : Z) :
  match F64.of_decimal neg m e with
  | S754_finite s' _ _ => s' = neg
  | _ => True
  end.
Proof.
  unfold F64.of_decimal. destruct m as [|p|p]; trivial.
  destruct e as [|k|k].
  - unfold binary_round. destruct (shl_align _ _ _). apply binary_round_aux_sign.
  - unfold binary_round. destruct (shl_align _ _ _). apply binary_round_aux_sign.
  - destruct (SFdiv_core_binary _ _ _ _ _ _) as [[q e'] l].
    apply binary_round_aux_sign.
Qed.

Lemma negative_float_of_negative_literal (s : string) (x : F64.float) (n : Z) :
  py_float (PStr s) = Ok x -> F64.to_Z x = Ok n -> n < 0 ->
  exists m e, Lit.float_literal s = Some (Lit.LFinite true m e).
Proof.
  unfold py_float. intros Hx Hn Hneg.
  destruct (Lit.float_literal s) as [[neg m e|neg|]|]; try discriminate.
  - inversion Hx; subst x. clear Hx.
    pose proof (of_decimal_sign neg m e) as Hs.
    destruct (F64.of_decimal neg m e) as [s0|s0| |s0 m0 e0]; try discriminate.
    + inversion Hn. lia.
    + subst s0. destruct neg; [eauto|].
      destruct (ltb0_sign _ _ Hn) as [_ Hge].
      specialize (Hge eq_refl). lia.
  - inversion Hx; subst. discriminate.
  - inversion Hx; subst. discriminate.
Qed.

Lemma convert_balance_inv (balance : pyval) (decimals : Z)
  (out : list (string * field)) :
  _convert_balance_to_wad balance decimals = Ok out ->
  exists wv x n c0 c1 c2 wad kv,
    getitem balance "wei" = Ok wv /\ py_float wv = Ok x /\
    F64.to_Z x = Ok n /\
    from_wei (Z.abs n) "ether" = Ok c0 /\
    (if decimals =? 6 then from_wei (Z.abs n) "mwei" else Ok c0) = Ok c1 /\
    (if F64.ltb0 x then number_mul_int c1 (-1) else Ok c1) = Ok c2 /\
    Wad_from_number c2 = Ok wad /\
    balance = PDict kv /\
    out = dict_set "wad" (WadObj wad)
            (map (fun kx => (fst kx, Raw (snd kx))) kv).
Proof.
  unfold _convert_balance_to_wad. intros H.
  apply bind_Ok in H. destruct H as (wv & Hwv & H).
  apply bind_Ok in H. destruct H as (x & Hx & H).
  apply bind_Ok in H. destruct H as (n & Hn & H).
  apply bind_Ok in H. destruct H as (c0 & Hc0 & H).
  apply bind_Ok in H. destruct H as (c1 & Hc1 & H).
  apply bind_Ok in H. destruct H as (c2 & Hc2 & H).
  apply bind_Ok in H. destruct H as (wad & Hwad & H).
  apply bind_Ok in H. destruct H as (kv & Hkv & H).
  destruct balance; simpl in Hkv; try discriminate.
  inversion Hkv; subst. inversion H; subst.
  exists wv, x, n, c0, c1, c2, wad, kv. repeat split; auto.
Qed.

Lemma converted_amount_sign (n : Z) (neg : bool) (c1 c2 : number)
  (u : string) (wad : Wad) :
  from_wei (Z.abs n) u = Ok c1 ->
  (if neg then number_mul_int c1 (-1) else Ok c1) = Ok c2 ->
  Wad_from_number c2 = Ok wad ->
  (neg = true -> n <= 0) -> (neg = false -> 0 <= n) ->
  (wad_value wad < 0 <-> n < 0).
Proof.
  intros Hc1 Hc2 Hw Ht Hf.
  destruct (from_wei_cases _ _ _ Hc1) as [[H0 ->]|(k & Hk & Ha & ->)].
  - assert (n = 0) by lia. subst n.
    assert (c2 = NInt 0) by (destruct neg; simpl in Hc2; congruence). subst c2.
    rewrite Wad_from_number_zero in Hw. inversion Hw. simpl. lia.
  - destruct neg.
    + specialize (Ht eq_refl).
      unfold number_mul_int, Dec.mul, Dec.of_Z in Hc2.
      change (-1 <? 0) with true in Hc2. change (Z.abs (-1)) with 1 in Hc2.
      cbn [bind xorb] in Hc2.
      assert (Hn : n < 0) by lia.
      revert Hc2.
      apply units_decimals in Hk.
      assert (Hlow : 10 ^ (- (- k + 0 + 18)) <= Z.abs n * 1).
      { destruct Hk as [-> | ->];
          [replace (10 ^ _) with 1 by reflexivity
          |replace (10 ^ _) with 0 by reflexivity]; lia. }
      destruct (round_context_lower 18 true (Z.abs n * 1) (- k + 0)
                  ltac:(lia) Hlow) as (c' & e' & -> & Hc' & Hl').
      intros Hc2. inversion Hc2; subst c2.
      pose proof (Wad_from_decimal_negative c' e' wad Hc' Hl' Hw). lia.
    + specialize (Hf eq_refl). inversion Hc2; subst c2.
      pose proof (Wad_from_decimal_nonneg (Z.abs n) (- k) wad ltac:(lia) Hw). lia.
Qed.


(** *** The rounding error of a binary64 product *)

Lemma iter_pos_nat {A : Type} (f : A -> A) (p : positive) (x : A) :
  iter_pos f p x = Nat.iter (Pos.to_nat p) f x.
Proof.
  revert x. induction p as [p IH|p IH|]; intros x; cbn [iter_pos].
  - rewrite !IH, Pos2Nat.inj_xI.
    replace (S (2 * Pos.to_nat p))%nat
      with (Pos.to_nat p + (Pos.to_nat p + 1))%nat by lia.
    rewrite !Nat.iter_add. reflexivity.
  - rewrite !IH, Pos2Nat.inj_xO.
    replace (2 * Pos.to_nat p)%nat with (Pos.to_nat p + Pos.to_nat p)%nat by lia.
    rewrite Nat.iter_add. reflexivity.
  - reflexivity.
Qed.

Lemma shr_1_spec (mrs : shr_record) :
  0 <= shr_m mrs ->
  shr_m mrs = 2 * shr_m (shr_1 mrs) + (if shr_r (shr_1 mrs) then 1 else 0) /\
  0 <= shr_m (shr_1 mrs) /\
  shr_s (shr_1 mrs) = shr_r mrs || shr_s mrs.
Proof.
  destruct mrs as [m r s]. cbn [shr_m shr_r shr_s]. intros Hm.
  destruct m as [|[p|p|]|p]; cbn [shr_1 shr_m shr_r shr_s]; try lia;
    repeat split; try lia.
Qed.

Lemma double_half_pow (k : nat) :
  (1 <= k)%nat -> 2 * (2 ^ Z.of_nat k / 2) = 2 ^ Z.of_nat k.
Proof.
  intros Hk. destruct k as [|k']; [lia|].
  rewrite Nat2Z.inj_succ, Z.pow_succ_r by lia.
  replace (2 * 2 ^ Z.of_nat k') with (2 ^ Z.of_nat k' * 2) by lia.
  rewrite Z.div_mul by lia. lia.
Qed.

(** After [k] right shifts of [m] the record holds the quotient, the bit
    just below it and whether anything lies below that bit. *)
Lemma shr_iter_spec (m : Z) (k : nat) :
  0 <= m ->
  let st := Nat.iter k shr_1 {| shr_m := m; shr_r := false; shr_s := false |} in
  exists t,
    0 <= t /\ 2 * t < 2 ^ Z.of_nat k /\ 0 <= shr_m st /\
    2 * m = 2 * shr_m st * 2 ^ Z.of_nat k
            + (if shr_r st then 2 ^ Z.of_nat k else 0) + 2 * t /\
    (shr_s st = true <-> 0 < t).
Proof.
  intros Hm. induction k as [|k IH].
  - exists 0. cbn. repeat split; try lia; try discriminate.
  - cbv zeta in IH |- *. rewrite Nat.iter_succ.
    set (st := Nat.iter k shr_1 _) in *.
    destruct IH as (t & Ht0 & Ht & HM & Heq & Hs).
    destruct (shr_1_spec st HM) as (H1 & H2 & H3).
    rewrite Nat2Z.inj_succ, Z.pow_succ_r by lia.
    assert (Hp : 0 < 2 ^ Z.of_nat k) by (apply Z.pow_pos_nonneg; lia).
    exists ((if shr_r st then 2 ^ Z.of_nat k else 0) / 2 + t).
    assert (Hr : 2 * ((if shr_r st then 2 ^ Z.of_nat k else 0) / 2)
                 = (if shr_r st then 2 ^ Z.of_nat k else 0)).
    { destruct (shr_r st) eqn:Er; [|reflexivity].
      apply double_half_pow. destruct k as [|k']; [|lia].
      exfalso. subst st. cbn in Er. discriminate. }
    repeat split.
    + destruct (shr_r st); [apply Z.add_nonneg_nonneg; [apply Z.div_pos|]|]; lia.
    + destruct (shr_r st); lia.
    + assumption.
    + rewrite H1 in Heq. destruct (shr_r (shr_1 st)); nia.
    + rewrite H3. intros Hor. apply orb_true_iff in Hor.
      destruct Hor as [Er|Es].
      * rewrite Er in Hr |- *. lia.
      * apply Hs in Es. destruct (shr_r st); lia.
    + intros Hpos. rewrite H3. apply orb_true_iff.
      destruct (shr_r st); [auto|]. right. apply Hs.
      rewrite Z.div_0_l in Hpos by lia. lia.
Qed.

(** Rounding to nearest after [k >= 1] shifts is within half a unit. *)
Lemma round_after_shift (m : Z) (k : nat) :
  0 <= m -> (1 <= k)%nat ->
  let st := Nat.iter k shr_1 {| shr_m := m; shr_r := false; shr_s := false |} in
  let M := round_nearest_even (shr_m st) (loc_of_shr_record st) in
  2 * Z.abs (M * 2 ^ Z.of_nat k - m) <= 2 ^ Z.of_nat k /\
  shr_m st <= M <= shr_m st + 1 /\ shr_m st = m / 2 ^ Z.of_nat k.
Proof.
  intros Hm Hk. cbv zeta.
  destruct (shr_iter_spec m k Hm) as (t & Ht0 & Ht & HM & Heq & Hs).
  cbv zeta in Heq, Hs, HM.
  set (st := Nat.iter k shr_1 _) in *.
  assert (Hp : 0 < 2 ^ Z.of_nat k) by (apply Z.pow_pos_nonneg; lia).
  assert (Hq : shr_m st = m / 2 ^ Z.of_nat k).
  { apply Z.div_unique with
      (r := (if shr_r st then 2 ^ Z.of_nat k else 0) / 2 + t).
    - left. destruct (shr_r st) eqn:Er.
      + pose proof (double_half_pow k Hk).
        split; [apply Z.add_nonneg_nonneg; [apply Z.div_pos|]; lia | lia].
      + rewrite Z.div_0_l by lia. lia.
    - destruct (shr_r st) eqn:Er.
      + pose proof (double_half_pow k Hk).
        lia.
      + rewrite Z.div_0_l by lia. lia. }
  split; [|split; [|exact Hq]].
  - destruct st as [M0 r s]. cbn [shr_m shr_r shr_s loc_of_shr_record] in *.
    destruct r, s; cbn [round_nearest_even].
    + assert (0 < t) by (apply Hs; reflexivity). lia.
    + assert (t = 0).
      { destruct (Z.eq_dec t 0); [assumption|].
        assert (false = true) by (apply Hs; lia). discriminate. }
      destruct (Z.even M0); lia.
    + lia.
    + lia.
  - destruct st as [M0 r s]. cbn [shr_m shr_r shr_s loc_of_shr_record] in *.
    destruct r, s; cbn [round_nearest_even]; try lia.
    destruct (Z.even M0); lia.
Qed.

Lemma digits2_unique (p : positive) (d : Z) :
  2 ^ (d - 1) <= Z.pos p < 2 ^ d -> Z.pos (digits2_pos p) = d.
Proof.
  intros [Hlo Hhi]. pose proof (digits2_pos_bounds p) as [Hlo' Hhi'].
  set (d' := Z.pos (digits2_pos p)) in *.
  assert (Hd' : 1 <= d') by (subst d'; lia).
  destruct (Z.lt_trichotomy d d') as [H|[H|H]]; [exfalso|lia|exfalso].
  - destruct (Z.le_gt_cases 0 d) as [Hd|Hd].
    + assert (2 ^ d <= 2 ^ (d' - 1)) by (apply Z.pow_le_mono_r; lia). lia.
    + rewrite Z.pow_neg_r in Hhi by lia. lia.
  - assert (2 ^ d' <= 2 ^ (d - 1)) by (apply Z.pow_le_mono_r; lia). lia.
Qed.

(** Rounding a product mantissa of more than 53 bits, in the normal
    range: unless the exponent overflows, the result is a float within
    half a unit in the last place of the exact value. *)
Lemma binary_round_aux_normal (s : bool) (m : positive) (e : Z) :
  53 < Z.pos (digits2_pos m) ->
  -1074 <= e + (Z.pos (digits2_pos m) - 53) ->
  971 < e + (Z.pos (digits2_pos m) - 53) + 1 \/
  exists m' e',
    binary_round_aux F64.prec F64.emax s (Z.pos m) e loc_Exact
      = S754_finite s m' e' /\
    e + (Z.pos (digits2_pos m) - 53) <= e' /\
    2 * Z.abs (Z.pos m' * 2 ^ (e' - e) - Z.pos m)
      <= 2 ^ (Z.pos (digits2_pos m) - 53) /\
    2 ^ (52 + (Z.pos (digits2_pos m) - 53)) <= Z.pos m.
Proof.
  intros Hd Hemin.
  pose proof (digits2_pos_bounds m) as [Hlo Hhi].
  set (d := Z.pos (digits2_pos m)) in *.
  assert (Hf : fexp F64.prec F64.emax (d + e) = e + (d - 53)).
  { unfold fexp, emin, F64.prec, F64.emax. lia. }
  unfold binary_round_aux, shr_fexp. cbn [Zdigits2 shr_record_of_loc].
  fold d. rewrite Hf.
  destruct (e + (d - 53) - e) as [|q|q] eqn:Hq; try lia.
  cbn [shr]. rewrite iter_pos_nat.
  assert (Hk : (1 <= Pos.to_nat q)%nat) by lia.
  destruct (round_after_shift (Z.pos m) (Pos.to_nat q) ltac:(lia) Hk)
    as (Herr & HM & HM0).
  cbv zeta in Herr, HM, HM0.
  set (st := Nat.iter (Pos.to_nat q) shr_1 _) in *.
  set (M := round_nearest_even (shr_m st) (loc_of_shr_record st)) in *.
  rewrite positive_nat_Z in Herr, HM0.
  assert (Hqd : Z.pos q = d - 53) by lia.
  assert (Hp : 0 < 2 ^ Z.pos q) by (apply Z.pow_pos_nonneg; lia).
  assert (Hsplit : 2 ^ (d - 1) = 2 ^ 52 * 2 ^ Z.pos q).
  { rewrite <- Z.pow_add_r by lia. f_equal. lia. }
  assert (Hsplit' : 2 ^ d = 2 ^ 53 * 2 ^ Z.pos q).
  { rewrite <- Z.pow_add_r by lia. f_equal. lia. }
  assert (HM0lo : 2 ^ 52 <= shr_m st).
  { rewrite HM0. apply Z.div_le_lower_bound; lia. }
  assert (HM0hi : shr_m st < 2 ^ 53).
  { rewrite HM0. apply Z.div_lt_upper_bound; lia. }
  assert (Hlow : 2 ^ (52 + (d - 53)) <= Z.pos m).
  { replace (52 + (d - 53)) with (d - 1) by lia. assumption. }
  replace (e + Z.pos q) with (e + (d - 53)) by lia.
  destruct (Z.eq_dec M (2 ^ 53)) as [Hcarry|Hnocarry].
  - (* the mantissa rounds up to 2^53 and is renormalized *)
    rewrite Hcarry. change (2 ^ 53) with 9007199254740992.
    change (Zdigits2 9007199254740992) with 54.
    assert (Hf2 : fexp F64.prec F64.emax (54 + (e + (d - 53)))
                  = e + (d - 53) + 1).
    { unfold fexp, emin, F64.prec, F64.emax. lia. }
    rewrite Hf2. replace (e + (d - 53) + 1 - (e + (d - 53))) with 1 by lia.
    cbn [shr iter_pos shr_1 shr_m shr_record_of_loc].
    destruct (Z.leb_spec (e + (d - 53) + 1) (F64.emax - F64.prec)) as [Hle|Hgt];
      [right | left; unfold F64.emax, F64.prec in Hgt; lia].
    exists 4503599627370496%positive, (e + (d - 53) + 1).
    split; [reflexivity|]. split; [lia|]. split; [|assumption].
    replace (e + (d - 53) + 1 - e) with (Z.pos q + 1) by lia.
    rewrite Z.pow_add_r by lia. rewrite <- Hqd.
    rewrite Hcarry in Herr.
    replace (4503599627370496 * (2 ^ Z.pos q * 2 ^ 1))
      with (2 ^ 53 * 2 ^ Z.pos q) by (change (2 ^ 53) with 9007199254740992;
                                       change (2 ^ 1) with 2; lia).
    assumption.
  - assert (HMr : 2 ^ 52 <= M < 2 ^ 53) by lia.
    destruct M as [|pM|pM] eqn:EM; try lia.
    cbn [Zdigits2]. rewrite (digits2_unique pM 53) by (change (53 - 1) with 52; lia).
    assert (Hf2 : fexp F64.prec F64.emax (53 + (e + (d - 53))) = e + (d - 53)).
    { unfold fexp, emin, F64.prec, F64.emax. lia. }
    rewrite Hf2, Z.sub_diag. cbn [shr shr_m shr_record_of_loc].
    destruct (Z.leb_spec (e + (d - 53)) (F64.emax - F64.prec)) as [Hle|Hgt];
      [right | left; unfold F64.emax, F64.prec in Hgt; lia].
    exists pM, (e + (d - 53)).
    split; [reflexivity|]. split; [lia|]. split; [|assumption].
    replace (e + (d - 53) - e) with (Z.pos q) by lia. rewrite <- Hqd.
    assumption.
Qed.

(** *** The error bound over the rationals *)

Lemma Qpow2_pos (e : Z) : (0 < Qpower 2 e)%Q.
Proof. apply Qpower_0_lt. reflexivity. Qed.

Lemma Qpow2_add (a b : Z) : (Qpower 2 (a + b) == Qpower 2 a * Qpower 2 b)%Q.
Proof. apply Qpower_plus. discriminate. Qed.

Lemma Qpow2_inject (n : Z) : 0 <= n -> (Qpower 2 n == inject_Z (2 ^ n))%Q.
Proof. intros Hn. symmetry. apply (Zpower_Qpower 2 n Hn). Qed.

Lemma to_Q_finite (s : bool) (m : positive) (e : Z) :
  (F64.to_Q (S754_finite s m e)
   == (if s then -1 else 1) * inject_Z (Z.pos m) * Qpower 2 e)%Q.
Proof. unfold F64.to_Q. destruct s; ring. Qed.

Lemma Qabs_sign (s : bool) (a : Q) :
  (Qabs ((if s then -1 else 1) * a) == Qabs a)%Q.
Proof.
  destruct s.
  - setoid_replace (-1 * a)%Q with (- a)%Q by ring. apply Qabs_opp.
  - setoid_replace (1 * a)%Q with a by ring. reflexivity.
Qed.

(** A mantissa within [2^-53] of the exact one, relatively, gives a value
    within [2^-53] of the exact value, relatively. *)
Lemma rounded_value_error (s : bool) (m m' : positive) (e e' : Z) :
  e <= e' ->
  2 ^ 53 * Z.abs (Z.pos m' * 2 ^ (e' - e) - Z.pos m) <= Z.pos m ->
  (Qabs ((if s then -1 else 1) * inject_Z (Z.pos m') * Qpower 2 e'
         - (if s then -1 else 1) * inject_Z (Z.pos m) * Qpower 2 e)
   <= Qpower 2 (-53) * (inject_Z (Z.pos m) * Qpower 2 e))%Q.
Proof.
  intros He Hm.
  set (D := Z.pos m' * 2 ^ (e' - e) - Z.pos m) in *.
  assert (E : ((if s then -1 else 1) * inject_Z (Z.pos m') * Qpower 2 e'
               - (if s then -1 else 1) * inject_Z (Z.pos m) * Qpower 2 e
               == (if s then -1 else 1) * (inject_Z D * Qpower 2 e))%Q).
  { replace e' with ((e' - e) + e) at 1 by lia.
    rewrite Qpow2_add, (Qpow2_inject (e' - e)) by lia.
    unfold D, Z.sub. rewrite inject_Z_plus, inject_Z_opp, inject_Z_mult. ring. }
  rewrite E, Qabs_sign, Qabs_Qmult.
  rewrite (Qabs_pos (Qpower 2 e)) by (apply Qlt_le_weak, Qpow2_pos).
  assert (HD : (Qabs (inject_Z D) == inject_Z (Z.abs D))%Q).
  { unfold inject_Z. symmetry. apply Zabs_Qabs. }
  rewrite HD.
  assert (HQ : (inject_Z (2 ^ 53) * inject_Z (Z.abs D) <= inject_Z (Z.pos m))%Q).
  { rewrite <- inject_Z_mult. rewrite <- Zle_Qle. exact Hm. }
  pose proof (Qpow2_pos e) as HP.
  change (Qpower 2 (-53)) with (1 # 9007199254740992)%Q.
  change (inject_Z (2 ^ 53)) with (9007199254740992 # 1)%Q in HQ.
  set (X := inject_Z (Z.abs D)) in *. set (Y := inject_Z (Z.pos m)) in *.
  set (P := Qpower 2 e) in *.
  assert (HXY : (X <= (1 # 9007199254740992) * Y)%Q) by lra.
  setoid_replace ((1 # 9007199254740992) * (Y * P))%Q
    with (((1 # 9007199254740992) * Y) * P)%Q by ring.
  apply Qmult_le_compat_r; [exact HXY | apply Qlt_le_weak; exact HP].
Qed.

(** The product of two finite floats, when its mantissa has more than 53
    bits and its exponent stays in the normal range, is within a relative
    [2^-53] of the exact product. *)
Lemma mul_relative_error (sx sy : bool) (mx my : positive) (ex ey : Z) :
  let d := Z.pos (digits2_pos (mx * my)) in
  53 < d -> -1074 <= ex + ey + (d - 53) -> ex + ey + (d - 53) + 1 <= 971 ->
  exists m' e',
    F64.mul (S754_finite sx mx ex) (S754_finite sy my ey)
      = S754_finite (xorb sx sy) m' e' /\
    (Qabs (F64.to_Q (S754_finite (xorb sx sy) m' e')
           - F64.to_Q (S754_finite sx mx ex) * F64.to_Q (S754_finite sy my ey))
     <= Qpower 2 (-53)
        * Qabs (F64.to_Q (S754_finite sx mx ex)
                * F64.to_Q (S754_finite sy my ey)))%Q.
Proof.
  intros d Hd Hlo Hhi. unfold F64.mul, SFmul.
  destruct (binary_round_aux_normal (xorb sx sy) (mx * my) (ex + ey) Hd Hlo)
    as [Hov|(m' & e' & Hr & He & Herr & Hm)]; [fold d in Hov; lia|].
  fold d in He, Herr, Hm.
  exists m', e'. split; [exact Hr|].
  assert (Hz : 2 ^ 53 * Z.abs (Z.pos m' * 2 ^ (e' - (ex + ey)) - Z.pos (mx * my))
               <= Z.pos (mx * my)).
  { assert (H2 : 2 ^ 53 * 2 ^ (d - 53) = 2 * 2 ^ (52 + (d - 53))).
    { rewrite <- !Z.pow_add_r by lia.
      replace (2 * 2 ^ (52 + (d - 53))) with (2 ^ 1 * 2 ^ (52 + (d - 53))) by lia.
      rewrite <- Z.pow_add_r by lia. f_equal. lia. }
    assert (0 < 2 ^ 53) by (apply Z.pow_pos_nonneg; lia). nia. }
  pose proof (rounded_value_error (xorb sx sy) (mx * my) m' (ex + ey) e'
                ltac:(lia) Hz) as HQ.
  assert (Eprod : (F64.to_Q (S754_finite sx mx ex) * F64.to_Q (S754_finite sy my ey)
                   == (if xorb sx sy then -1 else 1)
                      * inject_Z (Z.pos (mx * my)) * Qpower 2 (ex + ey))%Q).
  { rewrite !to_Q_finite, Qpow2_add, Pos2Z.inj_mul, inject_Z_mult.
    destruct sx, sy; cbn [xorb]; ring. }
  rewrite Eprod, to_Q_finite.
  setoid_replace ((if xorb sx sy then -1 else 1) * inject_Z (Z.pos (mx * my))
                  * Qpower 2 (ex + ey))%Q
    with ((if xorb sx sy then -1 else 1)
          * (inject_Z (Z.pos (mx * my)) * Qpower 2 (ex + ey)))%Q at 2 by ring.
  rewrite Qabs_sign.
  rewrite (Qabs_pos (inject_Z (Z.pos (mx * my)) * Qpower 2 (ex + ey))).
  - exact HQ.
  - apply Qmult_le_0_compat.
    + change 0%Q with (inject_Z 0). rewrite <- Zle_Qle. lia.
    + apply Qlt_le_weak, Qpow2_pos.
Qed.

(** The floats of [10 ** -k] for [k] from 1 to 18: full mantissas, within
    a relative [2^-53] of the power of ten. *)
Lemma pow10_neg_float (k : Z) :
  1 <= k <= 18 ->
  exists mc ec,
    F64.of_decimal false 1 (- k) = S754_finite false mc ec /\
    Z.pos (digits2_pos mc) = 53 /\ -112 <= ec <= -56 /\
    (Qabs (F64.to_Q (S754_finite false mc ec) - Qpower 10 (- k))
     <= Qpower 2 (-53) * Qpower 10 (- k))%Q.
Proof.
  intros Hk.
  assert (Hcases : k = 1 \/ k = 2 \/ k = 3 \/ k = 4 \/ k = 5 \/ k = 6 \/
                   k = 7 \/ k = 8 \/ k = 9 \/ k = 10 \/ k = 11 \/ k = 12 \/
                   k = 13 \/ k = 14 \/ k = 15 \/ k = 16 \/ k = 17 \/ k = 18)
    by lia.
  repeat (destruct Hcases as [->|Hcases]); [..|subst k];
    (eexists; eexists; split; [vm_compute; reflexivity|];
     split; [reflexivity|]; split; [lia|];
     apply Qle_bool_imp_le; vm_compute; reflexivity).
Qed.

(** A float in canonical form of magnitude at least [2^-960] is normal. *)
Lemma normal_of_large (p : F64.float) :
  F64.valid p = true ->
  (Qpower 2 (-960) <= Qabs (F64.to_Q p))%Q ->
  exists s m e,
    p = S754_finite s m e /\ Z.pos (digits2_pos m) = 53 /\ -1013 <= e <= 971.
Proof.
  intros Hv Hq.
  destruct p as [s|s| |s m e];
    try (exfalso; cbn in Hq; apply Qle_not_lt in Hq; apply Hq; reflexivity).
  unfold F64.valid, valid_binary, bounded, canonical_mantissa in Hv.
  apply andb_true_iff in Hv. destruct Hv as [Hc Hb].
  apply Z.eqb_eq in Hc. apply Z.leb_le in Hb.
  unfold fexp, emin, F64.prec, F64.emax in Hc, Hb.
  pose proof (digits2_pos_bounds m) as [Hlo Hhi].
  set (d := Z.pos (digits2_pos m)) in *.
  exists s, m, e. split; [reflexivity|].
  destruct (Z.le_gt_cases (-1013) e) as [He|He]; [split; lia|].
  exfalso.
  assert (Hd : d <= 53) by lia.
  assert (Hm : Z.pos m < 2 ^ 53).
  { assert (2 ^ d <= 2 ^ 53) by (apply Z.pow_le_mono_r; lia). lia. }
  rewrite to_Q_finite in Hq.
  setoid_replace ((if s then -1 else 1) * inject_Z (Z.pos m) * Qpower 2 e)%Q
    with ((if s then -1 else 1) * (inject_Z (Z.pos m) * Qpower 2 e))%Q
    in Hq by ring.
  rewrite Qabs_sign, Qabs_Qmult in Hq.
  rewrite (Qabs_pos (Qpower 2 e)) in Hq by (apply Qlt_le_weak, Qpow2_pos).
  rewrite (Qabs_pos (inject_Z (Z.pos m))) in Hq
    by (change 0%Q with (inject_Z 0); rewrite <- Zle_Qle; lia).
  assert (H1 : (inject_Z (Z.pos m) * Qpower 2 e < Qpower 2 53 * Qpower 2 e)%Q).
  { apply Qmult_lt_compat_r; [apply Qpow2_pos|].
    rewrite (Qpow2_inject 53) by lia. rewrite <- Zlt_Qlt. exact Hm. }
  rewrite <- Qpow2_add in H1.
  assert (H2 : (Qpower 2 (53 + e) <= Qpower 2 (-960))%Q).
  { apply Qpower_le_compat_l; [lia | discriminate]. }
  apply (Qlt_irrefl (Qpower 2 (-960))).
  eapply Qle_lt_trans; [exact Hq|].
  eapply Qlt_le_trans; [exact H1 | exact H2].
Qed.

Lemma error_composition (r a c t : Q) :
  (0 < t)%Q ->
  (Qabs (r - a * c) <= Qpower 2 (-53) * Qabs (a * c))%Q ->
  (Qabs (c - t) <= Qpower 2 (-53) * t)%Q ->
  (Qabs (r - a * t) <= Qpower 2 (-51) * Qabs (a * t))%Q.
Proof.
  intros Ht H1 H2.
  change (Qpower 2 (-53)) with (1 # 9007199254740992)%Q in H1, H2.
  change (Qpower 2 (-51)) with (1 # 2251799813685248)%Q.
  rewrite Qabs_Qmult in H1. rewrite Qabs_Qmult.
  rewrite (Qabs_pos t) by (apply Qlt_le_weak; exact Ht).
  assert (Hsplit : (r - a * t == (r - a * c) + a * (c - t))%Q) by ring.
  rewrite Hsplit.
  eapply Qle_trans; [apply Qabs_triangle|].
  rewrite (Qabs_Qmult a (c - t)).
  assert (HC : (Qabs c <= t + Qabs (c - t))%Q).
  { assert (Hc : (c == t + (c - t))%Q) by ring.
    rewrite Hc at 1. eapply Qle_trans; [apply Qabs_triangle|].
    rewrite (Qabs_pos t) by (apply Qlt_le_weak; exact Ht). apply Qle_refl. }
  pose proof (Qabs_nonneg a) as HA.
  pose proof (Qabs_nonneg (c - t)) as HY.
  pose proof (Qabs_nonneg c) as HC0.
  set (A := Qabs a) in *. set (C := Qabs c) in *.
  set (X := Qabs (r - a * c)) in *. set (Y := Qabs (c - t)) in *.
  assert (HAY : (A * Y <= A * ((1 # 9007199254740992) * t))%Q).
  { rewrite !(Qmult_comm A). apply Qmult_le_compat_r; assumption. }
  assert (HAC : (A * C <= A * (t + (1 # 9007199254740992) * t))%Q).
  { rewrite !(Qmult_comm A). apply Qmult_le_compat_r; [lra | assumption]. }
  assert (HAt : (0 <= A * t)%Q) by (apply Qmult_le_0_compat; lra).
  set (AT := (A * t)%Q) in *.
  assert (E1 : (A * ((1 # 9007199254740992) * t) == (1 # 9007199254740992) * AT)%Q)
    by (unfold AT; ring).
  assert (E2 : (A * (t + (1 # 9007199254740992) * t)
                == AT + (1 # 9007199254740992) * AT)%Q) by (unfold AT; ring).
  rewrite E1 in HAY. rewrite E2 in HAC.
  set (AC := (A * C)%Q) in *. set (AY := (A * Y)%Q) in *.
  lra.
Qed.

(** The binary64 product of a normal price and [10 ** -k], for [k] from 1
    to 18, is finite and within a relative [2^-51] of the price times
    [10^-k]. *)
Lemma scaled_price_error (p : F64.float) (k : Z) :
  F64.valid p = true -> 1 <= k <= 18 ->
  (Qpower 2 (-960) <= Qabs (F64.to_Q p))%Q ->
  exists scaled,
    float_mul p (pow10 (- k)) = Ok scaled /\
    F64.is_finite scaled = true /\
    (Qabs (F64.to_Q scaled - F64.to_Q p * Qpower 10 (- k))
     <= Qpower 2 (-51) * Qabs (F64.to_Q p * Qpower 10 (- k)))%Q.
Proof.
  intros Hv Hk Hq.
  destruct (normal_of_large p Hv Hq) as (s & m & e & -> & Hdm & He).
  destruct (pow10_neg_float k Hk) as (mc & ec & Hc & Hdc & Hec & Hcerr).
  assert (Hpow : pow10 (- k) = NFloat (S754_finite false mc ec)).
  { unfold pow10. destruct (Z.leb_spec 0 (- k)); [lia|]. now rewrite Hc. }
  rewrite Hpow. cbn [float_mul].
  pose proof (digits2_pos_bounds m) as [Hmlo Hmhi].
  pose proof (digits2_pos_bounds mc) as [Hclo Hchi].
  rewrite Hdm in Hmlo, Hmhi. rewrite Hdc in Hclo, Hchi.
  change (53 - 1) with 52 in Hmlo, Hclo.
  pose proof (digits2_pos_bounds (m * mc)) as [Hplo Hphi].
  set (d := Z.pos (digits2_pos (m * mc))) in *.
  assert (H52 : 0 < 2 ^ 52) by (apply Z.pow_pos_nonneg; lia).
  assert (Hprod_lo : 2 ^ 104 <= Z.pos (m * mc)).
  { rewrite Pos2Z.inj_mul. change (2 ^ 104) with (2 ^ 52 * 2 ^ 52). nia. }
  assert (Hprod_hi : Z.pos (m * mc) < 2 ^ 106).
  { rewrite Pos2Z.inj_mul. change (2 ^ 106) with (2 ^ 53 * 2 ^ 53). nia. }
  assert (Hd : 105 <= d <= 106).
  { assert (Hd1 : 1 <= d) by (subst d; lia). split.
    - destruct (Z.le_gt_cases 105 d) as [|Hlt]; [assumption|].
      assert (2 ^ d <= 2 ^ 104) by (apply Z.pow_le_mono_r; lia). lia.
    - destruct (Z.le_gt_cases d 106) as [|Hgt]; [assumption|].
      assert (2 ^ 106 <= 2 ^ (d - 1)) by (apply Z.pow_le_mono_r; lia). lia. }
  destruct (mul_relative_error s false m mc e ec) as (m' & e' & Hmul & Herr);
    fold d; try lia.
  rewrite Hmul. eexists. split; [reflexivity|]. split; [reflexivity|].
  apply error_composition with (c := F64.to_Q (S754_finite false mc ec)).
  - apply Qpower_0_lt. reflexivity.
  - exact Herr.
  - exact Hcerr.
Qed.

(** *** The price of an order and of a trade *)

Lemma example_price (pv : pyval) (d : Z) (pf scaled : F64.float) (price : Wad) :
  pv = PStr "100.0" ->
  py_float pv = Ok pf ->
  float_mul pf (pow10 (18 - d)) = Ok scaled ->
  Wad_from_number (NFloat scaled) = Ok price ->
  (d = 18 -> wad_value price = 100 * 10 ^ 18) /\
  (d = 6 -> wad_value price = 100 * 10 ^ 12 * 10 ^ 18).
Proof.
  intros -> Hpf Hsc Hpr. vm_compute in Hpf. inversion Hpf; subst pf. clear Hpf.
  split; intros ->.
  - vm_compute in Hsc. inversion Hsc; subst scaled.
    vm_compute in Hpr. inversion Hpr. reflexivity.
  - vm_compute in Hsc. inversion Hsc; subst scaled.
    vm_compute in Hpr. inversion Hpr. reflexivity.
Qed.


(** *** The price that place_order submits *)

Lemma order_price_unfold (self : DydxApi) (pair : string) (p : F64.float)
  (mi id : pyval) (d t : Z) :
  getitem (market_info self) pair = Ok mi ->
  tick_size mi t -> base_market_id mi id -> quote_decimals mi d ->
  Z.abs (18 - d) < 2 ^ 53 ->
  order_price self pair p
  = (scaled <- float_mul p (pow10 (- (18 - d))) ;;
     Dec.round_ndigits (Dec.of_float scaled) t).
Proof.
  intros Hmi (tv & td & te & Htv & Htd & Hte & ->) (bc & Hbc & Hid)
         (qc & dv & Hqc & Hdv & Hd) Hsmall.
  unfold order_price.
  rewrite Hmi. cbn [bind]. rewrite Htv. cbn [bind]. rewrite Htd. cbn [bind].
  rewrite Hte. cbn [bind]. rewrite Hbc. cbn [bind]. rewrite Hid. cbn [bind].
  rewrite Hqc. cbn [bind]. rewrite Hdv. cbn [bind]. rewrite Hd. cbn [bind].
  replace ((18 - d) * -1) with (- (18 - d)) by lia.
  rewrite py_pow10_small by lia. reflexivity.
Qed.


(** ** Further properties of the adapter *)

(** *** The amount and the side of a translated record *)

Lemma from_wei_bound (a : Z) (u : string) (w : number) :
  from_wei a u = Ok w -> 0 <= a <= MAX_WEI.
Proof.
  intros H. destruct (from_wei_cases _ _ _ H) as [[-> _]|(k & _ & Ha & _)].
  - unfold MAX_WEI. split; [lia|]. vm_compute. discriminate.
  - lia.
Qed.

(** X1: the amount of a translated fill is never negative; it is the
    absolute value of [int(float(amount))], which is at most [2^256 - 1],
    read as a count of [10^-18] units whenever that integer is below
    [10^28]; and it does not depend on the pair or on the market. *)
Theorem trade_amount_is_abs_of_truncated_amount :
  forall (fill : pyval) (pair : string) (mi : pyval) (t : Trade.t),
    DydxTrade_from_message fill pair mi = Ok t ->
    0 <= wad_value (Trade.amount t) /\
    (exists av x n,
        getitem fill "amount" = Ok av /\ py_float av = Ok x /\
        F64.to_Z x = Ok n /\ Z.abs n <= MAX_WEI /\
        (Z.abs n < 10 ^ 28 -> wad_value (Trade.amount t) = Z.abs n)) /\
    (forall pair' mi' t',
        DydxTrade_from_message fill pair' mi' = Ok t' ->
        Trade.amount t' = Trade.amount t).
Proof.
  intros fill pair mi t H.
  destruct (DydxTrade_from_message_inv _ _ _ _ H)
    as (d & pv & pf & scaled & price & id & cv & ts & mk & sv & av & af & ai
        & w & amount & _ & _ & _ & _ & _ & _ & _ & _ & _ & _ & Hav & Haf
        & Hai & Hw & Ham & ->).
  cbn [Trade.amount].
  split; [eapply Wad_from_wei_nonneg; eauto|]. split.
  - exists av, af, ai. repeat split; auto.
    + apply (from_wei_bound _ _ _ Hw).
    + intros Hlt. eapply Wad_from_wei_ether_exact; eauto. lia.
  - intros pair' mi' t' H'.
    destruct (DydxTrade_from_message_inv _ _ _ _ H')
      as (d' & pv' & pf' & scaled' & price' & id' & cv' & ts' & mk' & sv'
          & av' & af' & ai' & w' & amount' & _ & _ & _ & _ & _ & _ & _ & _
          & _ & _ & Hav' & Haf' & Hai' & Hw' & Ham' & ->).
    cbn [Trade.amount]. congruence.
Qed.

(** X2: a translated order or fill is a sell exactly when the raw
    ["side"] is the string ["SELL"]; any other value, a string in another
    case or a value of another type, gives a buy. *)
Theorem is_sell_iff_side_is_SELL :
  (forall item pair mi o,
      DydxOrder_from_message item pair mi = Ok o ->
      exists sv, getitem item "side" = Ok sv /\
                 (Order.is_sell o = true <-> sv = PStr "SELL")) /\
  (forall fill pair mi t,
      DydxTrade_from_message fill pair mi = Ok t ->
      exists sv, getitem fill "side" = Ok sv /\
                 (Trade.is_sell t = true <-> sv = PStr "SELL")).
Proof.
  split.
  - intros item pair mi o H.
    destruct (DydxOrder_from_message_inv _ _ _ _ H)
      as (d & pv & pf & scaled & price & id & cv & ts & sv & bv & bf & bi & w
          & amount & _ & _ & _ & _ & _ & _ & _ & _ & Hsv & _ & _ & _ & _ & _
          & ->).
    exists sv. split; [assumption|]. cbn [Order.is_sell]. apply py_eq_str_iff.
  - intros fill pair mi t H.
    destruct (DydxTrade_from_message_inv _ _ _ _ H)
      as (d & pv & pf & scaled & price & id & cv & ts & mk & sv & av & af & ai
          & w & amount & _ & _ & _ & _ & _ & _ & _ & _ & _ & Hsv & _ & _ & _
          & _ & _ & ->).
    exists sv. split; [assumption|]. cbn [Trade.is_sell]. apply py_eq_str_iff.
Qed.

(** *** get_trades *)

(** X3: [get_trades] asks the client once for the fills of the account
    and translates every one of them, in order and whatever its status;
    the page number plays no part.  It returns a list, as long as the
    reply, exactly when every fill translates. *)
Theorem get_trades_translates_every_fill :
  forall (self : DydxApi) (pair : string) (page_number : Z)
         (reply mi : pyval) (items : list pyval) (tr : list request),
    client (get_my_fills_req [pair]) = Ok reply ->
    getitem reply "fills" = Ok (PList items) ->
    getitem (market_info self) pair = Ok mi ->
    get_trades self pair page_number tr
      = (mapM (fun item => DydxTrade_from_message item pair mi) items,
         (tr ++ [get_my_fills_req [pair]])%list) /\
    (forall ts,
        fst (get_trades self pair page_number tr) = Ok ts <->
        Forall2 (fun item t => DydxTrade_from_message item pair mi = Ok t)
                items ts) /\
    (forall ts,
        fst (get_trades self pair page_number tr) = Ok ts ->
        List.length ts = List.length items).
Proof.
  intros self pair page_number reply mi items tr Hc Hf Hmi.
  assert (E : get_trades self pair page_number tr
      = (mapM (fun item => DydxTrade_from_message item pair mi) items,
         (tr ++ [get_my_fills_req [pair]])%list)).
  { unfold get_trades, bindM, call, lift. rewrite Hc. cbn [bind].
    rewrite Hmi. cbn [bind]. rewrite Hf. cbn [bind py_iter]. reflexivity. }
  split; [exact E|]. rewrite E. cbn [fst]. split.
  - intros ts. apply mapM_Forall2.
  - intros ts H. apply mapM_Forall2 in H.
    symmetry. exact (Forall2_length H).
Qed.

(** *** The requests of the reading methods *)

(** X4: whatever the client replies, and whether or not the method then
    raises, [get_orders], [get_trades], [get_balances], [cancel_order],
    [get_markets] and [get_pair] each make exactly one request, with the
    arguments shown; none of the first four asks for the markets again,
    and [get_pair] always does. *)
Theorem reading_methods_make_one_request :
  forall (self : DydxApi) (pair order_id : string) (page_number : Z)
         (tr : list request),
    snd (get_orders self pair tr)
      = (tr ++ [get_my_orders_req [pair] PNone PNone])%list /\
    snd (get_trades self pair page_number tr)
      = (tr ++ [get_my_fills_req [pair]])%list /\
    snd (get_balances tr) = (tr ++ [get_my_balances_req])%list /\
    snd (cancel_order order_id tr)
      = (tr ++ [cancel_order_req order_id])%list /\
    snd (get_markets tr) = (tr ++ [get_markets_req])%list /\
    snd (get_pair pair tr) = (tr ++ [get_markets_req])%list.
Proof.
  intros self pair order_id page_number tr.
  unfold get_orders, get_trades, get_balances, cancel_order, get_pair,
    get_markets, bindM, call, lift.
  repeat split.
  - destruct (client (get_my_orders_req [pair] PNone PNone)); reflexivity.
  - destruct (client (get_my_fills_req [pair])); reflexivity.
  - destruct (client get_my_balances_req); reflexivity.
  - destruct (client (cancel_order_req order_id)); reflexivity.
  - destruct (client get_markets_req); reflexivity.
  - destruct (client get_markets_req) as [r|e]; [|reflexivity].
    destruct (getitem r "markets"); reflexivity.
Qed.

(** *** A pair that the cached markets do not hold *)

(** X5: when the markets cached at construction have no entry for the
    pair, [place_order] raises [KeyError] for the pair before any request
    is made, while [get_orders], [get_trades] and [get_all_trades] raise
    the same error only after the client has been asked and has
    answered with a well-formed reply. *)
Theorem unknown_pair_raises_KeyError :
  forall (self : DydxApi) (pair : string) (kv : list (string * pyval))
         (tr : list request),
    market_info self = PDict kv -> assoc pair kv = None ->
    (forall is_sell price amount,
        place_order self pair is_sell price amount tr
        = (Raise (KeyError pair), tr)) /\
    (forall reply os items,
        client (get_my_orders_req [pair] PNone PNone) = Ok reply ->
        getitem reply "orders" = Ok os -> py_iter os = Ok items ->
        get_orders self pair tr
        = (Raise (KeyError pair),
           (tr ++ [get_my_orders_req [pair] PNone PNone])%list)) /\
    (forall page_number reply,
        client (get_my_fills_req [pair]) = Ok reply ->
        get_trades self pair page_number tr
        = (Raise (KeyError pair), (tr ++ [get_my_fills_req [pair]])%list)) /\
    (forall reply fs items,
        client (get_fills_req [pair] 100) = Ok reply ->
        getitem reply "fills" = Ok fs -> py_iter fs = Ok items ->
        get_all_trades self pair 1 tr
        = (Raise (KeyError pair), (tr ++ [get_fills_req [pair] 100])%list)).
Proof.
  intros self pair kv tr Hm Hk.
  assert (E : getitem (market_info self) pair = Raise (KeyError pair)).
  { rewrite Hm. unfold getitem. now rewrite Hk. }
  repeat split.
  - intros is_sell price amount.
    unfold place_order, order_price, bindM, lift. rewrite E. reflexivity.
  - intros reply os items Hc Ho Hi.
    unfold get_orders, bindM, call, lift. rewrite Hc. cbn [bind].
    rewrite Ho. cbn [bind]. rewrite Hi. cbn [bind]. rewrite E. reflexivity.
  - intros page_number reply Hc.
    unfold get_trades, bindM, call, lift. rewrite Hc. cbn [bind].
    rewrite E. reflexivity.
  - intros reply fs items Hc Ho Hi.
    unfold get_all_trades, bindM, call, lift, assert. cbn.
    rewrite Hc. cbn [bind]. rewrite Ho. cbn [bind]. rewrite Hi. cbn [bind].
    rewrite E. reflexivity.
Qed.

(** *** place_order *)

Lemma order_price_inv (self : DydxApi) (pair : string) (p : F64.float)
  (q : Dec.decimal) :
  order_price self pair p = Ok q ->
  exists mi id d t scaled,
    getitem (market_info self) pair = Ok mi /\
    tick_size mi t /\ base_market_id mi id /\ quote_decimals mi d /\
    float_mul p (pow10 (- (18 - d))) = Ok scaled /\
    Dec.round_ndigits (Dec.of_float scaled) t = Ok q.
Proof.
  unfold order_price. intros H.
  apply bind_Ok in H. destruct H as (mi & Hmi & H).
  apply bind_Ok in H. destruct H as (tv & Htv & H).
  apply bind_Ok in H. destruct H as (td & Htd & H).
  apply bind_Ok in H. destruct H as (te & Hte & H).
  apply bind_Ok in H. destruct H as (mi1 & Hmi1 & H).
  apply bind_Ok in H. destruct H as (bc & Hbc & H).
  apply bind_Ok in H. destruct H as (id & Hid & H).
  apply bind_Ok in H. destruct H as (mi2 & Hmi2 & H).
  apply bind_Ok in H. destruct H as (qc & Hqc & H).
  apply bind_Ok in H. destruct H as (dv & Hdv & H).
  apply bind_Ok in H. destruct H as (d & Hd & H).
  apply bind_Ok in H. destruct H as (factor & Hfa & H).
  apply py_pow10_Ok in Hfa. subst factor.
  apply bind_Ok in H. destruct H as (scaled & Hsc & H).
  assert (mi1 = mi) by congruence. assert (mi2 = mi) by congruence.
  subst mi1 mi2.
  exists mi, id, d, (Z.abs te), scaled.
  replace (- (18 - d)) with ((18 - d) * -1) by lia.
  repeat split; auto.
  - exists tv, td, te. auto.
  - exists bc. auto.
  - exists qc, dv. auto.
Qed.

(** X6: [place_order] makes no request unless both the price and the
    amount of the order have been computed: when the computation of the
    price raises, or when the conversion of the amount to wei does, that
    error is the outcome and the client has not been called. *)
Theorem place_order_sends_nothing_on_failure :
  forall (self : DydxApi) (pair : string) (is_sell : bool)
         (price amount : F64.float) (tr : list request),
    (forall e,
        order_price self pair price = Raise e ->
        place_order self pair is_sell price amount tr = (Raise e, tr)) /\
    (forall q mi id e,
        order_price self pair price = Ok q ->
        getitem (market_info self) pair = Ok mi ->
        base_market_id mi id ->
        token_to_wei amount id = Raise e ->
        place_order self pair is_sell price amount tr = (Raise e, tr)).
Proof.
  intros self pair is_sell price amount tr. split.
  - intros e H. unfold place_order, bindM, lift. rewrite H. reflexivity.
  - intros q mi id e Hq Hmi (bc & Hbc & Hid) Ha.
    unfold place_order, bindM, lift. rewrite Hq. cbn [bind].
    rewrite Hmi. cbn [bind]. rewrite Hbc. cbn [bind]. rewrite Hid.
    cbn [bind]. rewrite Ha. reflexivity.
Qed.

(** X7: once the price and the amount are computed, [place_order] makes
    one request, with neither [fillOrKill] nor [postOnly] set, and
    returns the ["id"] of the ["order"] of the reply; when the client
    raises, or when the reply has no such entry, the error is raised
    after the request has been made. *)
Theorem place_order_returns_reply_id :
  forall (self : DydxApi) (pair : string) (is_sell : bool)
         (price amount : F64.float) (tr : list request)
         (q : Dec.decimal) (mi id : pyval) (a : Z),
    order_price self pair price = Ok q ->
    getitem (market_info self) pair = Ok mi ->
    base_market_id mi id ->
    token_to_wei amount id = Ok a ->
    (forall reply created oid,
        client (place_order_req pair (if is_sell then "SELL" else "BUY")
                  q a false false) = Ok reply ->
        getitem reply "order" = Ok created ->
        getitem created "id" = Ok oid ->
        place_order self pair is_sell price amount tr
        = (Ok oid,
           (tr ++ [place_order_req pair (if is_sell then "SELL" else "BUY")
                     q a false false])%list)) /\
    (forall reply e,
        client (place_order_req pair (if is_sell then "SELL" else "BUY")
                  q a false false) = Ok reply ->
        (created <- getitem reply "order" ;; getitem created "id") = Raise e ->
        place_order self pair is_sell price amount tr
        = (Raise e,
           (tr ++ [place_order_req pair (if is_sell then "SELL" else "BUY")
                     q a false false])%list)) /\
    (forall e,
        client (place_order_req pair (if is_sell then "SELL" else "BUY")
                  q a false false) = Raise e ->
        place_order self pair is_sell price amount tr
        = (Raise e,
           (tr ++ [place_order_req pair (if is_sell then "SELL" else "BUY")
                     q a false false])%list)).
Proof.
  intros self pair is_sell price amount tr q mi id a Hq Hmi
         (bc & Hbc & Hid) Ha.
  assert (E : place_order self pair is_sell price amount tr
    = match client (place_order_req pair (if is_sell then "SELL" else "BUY")
                      q a false false) with
      | Ok r => (created <- getitem r "order" ;; getitem created "id",
                 (tr ++ [place_order_req pair
                           (if is_sell then "SELL" else "BUY")
                           q a false false])%list)
      | Raise e => (Raise e,
                    (tr ++ [place_order_req pair
                              (if is_sell then "SELL" else "BUY")
                              q a false false])%list)
      end).
  { unfold place_order, bindM, lift, call. rewrite Hq. cbn [bind].
    rewrite Hmi. cbn [bind]. rewrite Hbc. cbn [bind]. rewrite Hid.
    cbn [bind]. rewrite Ha. cbn [bind fst snd].
    destruct (client _); reflexivity. }
  rewrite E. repeat split.
  - intros reply created oid -> Hc Ho. rewrite Hc. cbn [bind].
    now rewrite Ho.
  - intros reply e -> He. now rewrite He.
  - intros e ->. reflexivity.
Qed.

Lemma of_float_coefficient (x : F64.float) (s : bool) (c e : Z) :
  Dec.of_float x = Dec.DFinite s c e -> 0 <= c.
Proof.
  destruct x as [s0|s0| |s0 m e0]; unfold Dec.of_float; try discriminate.
  - intros H. inversion H. lia.
  - destruct e0 as [|k|k]; intros H.
    + injection H as _ Hc _. lia.
    + assert (Hn : 0 <= Z.pos m * 2 ^ Z.pos k).
      { apply Z.mul_nonneg_nonneg; [lia|]. apply Z.pow_nonneg. lia. }
      injection H as _ Hc _. rewrite <- Hc. exact Hn.
    + set (tz := Z.of_nat (Dec.trailing_zeros (Pos.to_nat k) m)) in *.
      assert (Hn : 0 <= Z.pos m / 2 ^ tz * 5 ^ (Z.pos k - tz)).
      { apply Z.mul_nonneg_nonneg.
        - apply Z.div_pos; [lia|]. apply Z.pow_pos_nonneg; lia.
        - apply Z.pow_nonneg. lia. }
      injection H as _ Hc _. rewrite <- Hc. exact Hn.
Qed.

Lemma round_ndigits_shape (d : Dec.decimal) (t : Z) (q : Dec.decimal) :
  Dec.round_ndigits d t = Ok q ->
  (d = Dec.DNaN /\ q = Dec.DNaN) \/
  (exists s c e c',
      d = Dec.DFinite s c e /\ q = Dec.DFinite s c' (- t) /\
      (0 <= c -> 0 <= c' < 10 ^ 28)).
Proof.
  assert (H28 : 0 < 10 ^ 28) by reflexivity.
  destruct d as [s c e|s|]; unfold Dec.round_ndigits; [|discriminate|].
  - destruct ((1000026 <? t) || (t <? -999999)); [discriminate|].
    set (c' := if - t <=? e then c * 10 ^ (e + t)
               else Dec.div_half_even c (10 ^ (- t - e))).
    intros H. right. exists s, c, e, c'.
    split; [reflexivity|].
    destruct (Z.eqb_spec c' 0) as [E0|Hne]; simpl in H.
    + inversion H. split; [reflexivity|]. intros _. rewrite E0. lia.
    + destruct (Z.leb_spec (Dec.digits c') Dec.context_prec) as [Hd|Hd];
        [|discriminate].
      inversion H. split; [reflexivity|]. intros Hc.
      assert (Hc' : 0 <= c').
      { unfold c'. destruct (Z.leb_spec (- t) e).
        - apply Z.mul_nonneg_nonneg; [lia|]. apply Z.pow_nonneg. lia.
        - assert (Hp : 0 < 10 ^ (- t - e)) by (apply Z.pow_pos_nonneg; lia).
          pose proof (div_half_even_bounds c _ Hp) as [Hb _].
          assert (0 <= c / 10 ^ (- t - e)) by (apply Z.div_pos; lia). lia. }
      split; [assumption|].
      apply (digits_le_iff c' 28); [lia | lia | exact Hd].
  - intros H. inversion H. auto.
Qed.

(** X8: a price that [place_order] computes is NaN or a decimal with
    exactly [t] places, where [t >= 0] is the absolute value of the
    exponent of the market's tick, and with a coefficient of at most 28
    digits: the price is never rounded to tens or hundreds, and no price
    with more digits is submitted. *)
Theorem order_price_has_tick_places :
  forall (self : DydxApi) (pair : string) (p : F64.float) (q : Dec.decimal),
    order_price self pair p = Ok q ->
    exists mi t,
      getitem (market_info self) pair = Ok mi /\ tick_size mi t /\ 0 <= t /\
      (q = Dec.DNaN \/
       exists s c, q = Dec.DFinite s c (- t) /\ 0 <= c < 10 ^ 28).
Proof.
  intros self pair p q H.
  destruct (order_price_inv _ _ _ _ H)
    as (mi & id & d & t & scaled & Hmi & Ht & _ & _ & _ & Hr).
  exists mi, t. split; [assumption|]. split; [assumption|]. split.
  - destruct Ht as (tv & td & te & _ & _ & _ & ->). lia.
  - destruct (round_ndigits_shape _ _ _ Hr)
      as [[_ ->]|(s & c & e & c' & Hd & -> & Hc)]; [left; reflexivity|].
    right. exists s, c'. split; [reflexivity|].
    apply Hc. exact (of_float_coefficient _ _ _ _ Hd).
Qed.

(** X9: on a market with between 0 and 18 quote decimals, a NaN price
    goes through the scaling and the rounding and is submitted to the
    client as the decimal NaN, while an infinite price makes the
    rounding invalid, so that [place_order] raises [InvalidOperation]
    without calling the client. *)
Theorem place_order_of_non_finite_price :
  forall (self : DydxApi) (pair : string) (mi id : pyval) (d t : Z),
    getitem (market_info self) pair = Ok mi ->
    tick_size mi t -> base_market_id mi id -> quote_decimals mi d ->
    0 <= d <= 18 ->
    order_price self pair S754_nan = Ok Dec.DNaN /\
    (forall is_sell amount a tr,
        token_to_wei amount id = Ok a ->
        snd (place_order self pair is_sell S754_nan amount tr)
        = (tr ++ [place_order_req pair (if is_sell then "SELL" else "BUY")
                    Dec.DNaN a false false])%list) /\
    (forall s is_sell amount tr,
        place_order self pair is_sell (S754_infinity s) amount tr
        = (Raise InvalidOperation, tr)).
Proof.
  intros self pair mi id d t Hmi Ht Hid Hq Hd.
  assert (Hsmall : Z.abs (18 - d) < 2 ^ 53).
  { assert (2 ^ 5 <= 2 ^ 53) by (apply Z.pow_le_mono_r; lia).
    change (2 ^ 5) with 32 in *. lia. }
  pose proof (fun p => order_price_unfold self pair p mi id d t Hmi Ht Hid Hq
                         Hsmall)
    as E.
  assert (Hpow : pow10 (- (18 - d)) = NInt 1 \/
                 exists mc ec, pow10 (- (18 - d))
                               = NFloat (S754_finite false mc ec)).
  { destruct (Z.eq_dec d 18) as [->|Hne]; [left; reflexivity|]. right.
    destruct (pow10_neg_float (18 - d) ltac:(lia)) as (mc & ec & Hc & _).
    exists mc, ec. unfold pow10.
    destruct (Z.leb_spec 0 (- (18 - d))); [lia|]. now rewrite Hc. }
  assert (Hnan : order_price self pair S754_nan = Ok Dec.DNaN).
  { rewrite E. destruct Hpow as [-> | (mc & ec & ->)]; reflexivity. }
  assert (Hinf : forall s, order_price self pair (S754_infinity s)
                           = Raise InvalidOperation).
  { intros s. rewrite E.
    destruct Hpow as [-> | (mc & ec & ->)]; destruct s; reflexivity. }
  split; [exact Hnan|]. split.
  - intros is_sell amount a tr Ha.
    destruct Hid as (bc & Hbc & Hid).
    unfold place_order, bindM, lift, call. rewrite Hnan. cbn [bind].
    rewrite Hmi. cbn [bind]. rewrite Hbc. cbn [bind]. rewrite Hid.
    cbn [bind]. rewrite Ha. cbn [bind fst snd].
    destruct (client _); reflexivity.
  - intros s is_sell amount tr.
    unfold place_order, bindM, lift. rewrite Hinf. reflexivity.
Qed.

(** *** deposit_funds *)

(** X10: [deposit_funds] deposits into the USDC market only for the token
    ["USDC"], spelled so; every other token, whatever its name or type,
    is deposited into the ETH market.  The amount in wei is computed for
    the market chosen, the deposit is requested, and the receipt of the
    transaction it returns is requested next and is the result. *)
Theorem deposit_funds_routes_by_token :
  forall (token : pyval) (amount : F64.float) (tr : list request),
    (token = PStr "USDC" ->
     forall wei tx,
       token_to_wei amount (PInt (MARKET_USDC consts)) = Ok wei ->
       client (eth_deposit_req (MARKET_USDC consts) wei) = Ok tx ->
       deposit_funds token amount tr
       = (client (eth_get_receipt_req tx),
          (tr ++ [eth_deposit_req (MARKET_USDC consts) wei;
                  eth_get_receipt_req tx])%list)) /\
    (token <> PStr "USDC" ->
     forall wei tx,
       token_to_wei amount (PInt (MARKET_ETH consts)) = Ok wei ->
       client (eth_deposit_req (MARKET_ETH consts) wei) = Ok tx ->
       deposit_funds token amount tr
       = (client (eth_get_receipt_req tx),
          (tr ++ [eth_deposit_req (MARKET_ETH consts) wei;
                  eth_get_receipt_req tx])%list)).
Proof.
  intros token amount tr. split.
  - intros -> wei tx Hw Hc. unfold deposit_funds, bindM, lift, call.
    cbn [py_eq_str]. rewrite String.eqb_refl. rewrite Hw. rewrite Hc.
    rewrite <- app_assoc. reflexivity.
  - intros Hne wei tx Hw Hc. unfold deposit_funds, bindM, lift, call.
    destruct (py_eq_str token "USDC") eqn:Et.
    + apply py_eq_str_iff in Et. contradiction.
    + rewrite Hw. rewrite Hc. rewrite <- app_assoc. reflexivity.
Qed.

(** X11: [deposit_funds] stops at the first failure: when the amount
    cannot be converted to wei no request is made, and when the deposit
    itself raises no receipt is asked for. *)
Theorem deposit_funds_stops_at_first_failure :
  forall (token : pyval) (amount : F64.float) (tr : list request)
         (market : Z),
    market = (if py_eq_str token "USDC" then MARKET_USDC consts
              else MARKET_ETH consts) ->
    (forall e,
        token_to_wei amount (PInt market) = Raise e ->
        deposit_funds token amount tr = (Raise e, tr)) /\
    (forall wei e,
        token_to_wei amount (PInt market) = Ok wei ->
        client (eth_deposit_req market wei) = Raise e ->
        deposit_funds token amount tr
        = (Raise e, (tr ++ [eth_deposit_req market wei])%list)).
Proof.
  intros token amount tr market ->. split.
  - intros e Hw. unfold deposit_funds, bindM, lift. rewrite Hw. reflexivity.
  - intros wei e Hw Hc. unfold deposit_funds, bindM, lift, call.
    rewrite Hw. rewrite Hc. reflexivity.
Qed.

(** *** Balances *)

(** X12: an entry whose market id is one of the four known ones comes
    out with the matching ["currency"] label, the first match deciding
    when two ids coincide, and a label that the raw entry already had is
    replaced; every other key of the raw entry, ["wad"] apart, keeps its
    raw value. *)
Theorem known_markets_are_labelled :
  forall (market_id : string) (balance : pyval) (n : Z)
         (out : list (string * field)),
    py_int (PStr market_id) = Ok n ->
    balance_entry (market_id, balance) = Ok out ->
    (n = MARKET_ETH consts ->
     assoc "currency" out = Some (Raw (PStr "ETH"))) /\
    (n = MARKET_SAI consts -> n <> MARKET_ETH consts ->
     assoc "currency" out = Some (Raw (PStr "SAI"))) /\
    (n = MARKET_USDC consts ->
     n <> MARKET_ETH consts -> n <> MARKET_SAI consts ->
     assoc "currency" out = Some (Raw (PStr "USDC"))) /\
    (n = MARKET_DAI consts ->
     n <> MARKET_ETH consts -> n <> MARKET_SAI consts ->
     n <> MARKET_USDC consts ->
     assoc "currency" out = Some (Raw (PStr "DAI"))) /\
    (exists kv,
        balance = PDict kv /\
        forall k, k <> "wad" -> k <> "currency" ->
                  assoc k out = option_map Raw (assoc k kv)).
Proof.
  intros market_id balance n out Hn H.
  unfold balance_entry in H. rewrite Hn in H. cbn [bind] in H.
  assert (Hlab : forall label dec,
             (b <- setitem balance "currency" (PStr label) ;;
              _convert_balance_to_wad b dec) = Ok out ->
             assoc "currency" out = Some (Raw (PStr label)) /\
             exists kv,
               balance = PDict kv /\
               forall k, k <> "wad" -> k <> "currency" ->
                         assoc k out = option_map Raw (assoc k kv)).
  { intros label dec Hb. apply bind_Ok in Hb. destruct Hb as (b & Hs & Hb).
    destruct balance as [| | | | | |kv]; try discriminate.
    cbn [setitem] in Hs. inversion Hs; subst b.
    destruct (convert_balance_shape _ _ _ Hb) as (kv' & w & Hkv & ->).
    inversion Hkv; subst kv'. split.
    - rewrite assoc_dict_set_other by discriminate.
      rewrite assoc_map_Raw, assoc_dict_set_same. reflexivity.
    - exists kv. split; [reflexivity|]. intros k Hw Hc.
      rewrite assoc_dict_set_other by assumption.
      rewrite assoc_map_Raw, assoc_dict_set_other by assumption.
      reflexivity. }
  assert (Hstep : forall (c : bool) label dec (rest : result (pyval * Z)),
             (labelled <- (if c then b <- setitem balance "currency"
                                                (PStr label) ;; Ok (b, dec)
                           else rest) ;;
              _convert_balance_to_wad (fst labelled) (snd labelled)) = Ok out ->
             if c then (b <- setitem balance "currency" (PStr label) ;;
                        _convert_balance_to_wad b dec) = Ok out
             else (labelled <- rest ;;
                   _convert_balance_to_wad (fst labelled) (snd labelled))
                  = Ok out).
  { intros c label dec rest Hc. destruct c; [|exact Hc].
    destruct (setitem balance "currency" (PStr label)); exact Hc. }
  apply Hstep in H.
  destruct (Z.eqb_spec n (MARKET_ETH consts)) as [E1|N1].
  { destruct (Hlab _ _ H) as [Hl Hk].
    repeat split; auto; intros; contradiction. }
  apply Hstep in H.
  destruct (Z.eqb_spec n (MARKET_SAI consts)) as [E2|N2].
  { destruct (Hlab _ _ H) as [Hl Hk].
    repeat split; auto; intros; contradiction. }
  apply Hstep in H.
  destruct (Z.eqb_spec n (MARKET_USDC consts)) as [E3|N3].
  { destruct (Hlab _ _ H) as [Hl Hk].
    repeat split; auto; intros; contradiction. }
  apply Hstep in H.
  destruct (Z.eqb_spec n (MARKET_DAI consts)) as [E4|N4].
  { destruct (Hlab _ _ H) as [Hl Hk].
    repeat split; auto; intros; contradiction. }
  cbn [bind fst snd] in H.
  destruct (convert_balance_shape _ _ _ H) as (kv & w & -> & ->).
  repeat split; try (intros; contradiction).
  exists kv. split; [reflexivity|]. intros k Hw Hc.
  rewrite assoc_dict_set_other by assumption. apply assoc_map_Raw.
Qed.

(** Below [10^28] a decimal with at most 18 places converts exactly. *)
Lemma Wad_from_decimal_exact (s : bool) (a k : Z) :
  0 < a < 10 ^ 28 -> 0 <= k <= 18 ->
  Wad_from_number (NDecimal (Dec.DFinite s a (- k)))
  = Ok (mkWad (if s then - (a * 10 ^ (18 - k)) else a * 10 ^ (18 - k))).
Proof.
  intros [Hpos Hlt] Hk. unfold Wad_from_number, Dec.mul. cbn [bind].
  rewrite xorb_false_r.
  assert (H18 : 0 < 10 ^ 18) by (apply Z.pow_pos_nonneg; lia).
  assert (Hr : 0 < 10 ^ (18 - k)) by (apply Z.pow_pos_nonneg; lia).
  set (v := a * 10 ^ (18 - k)).
  assert (Hv : 0 < v) by (unfold v; nia).
  assert (Hdv : Dec.digits v <= 1000).
  { apply digits_le_iff; [lia | lia |].
    assert (10 ^ (18 - k) <= 10 ^ 18) by (apply Z.pow_le_mono_r; lia).
    assert (10 ^ 28 * 10 ^ 18 <= 10 ^ 1000).
    { rewrite <- Z.pow_add_r by lia. apply Z.pow_le_mono_r; lia. }
    unfold v. nia. }
  assert (Hfin : forall c e,
             (if 0 <=? e then c * 10 ^ e else c / 10 ^ (- e)) = v ->
             bind (Dec.to_integral_down (Dec.DFinite s c e))
                  (fun x => Ok (mkWad x))
             = Ok (mkWad (if s then - v else v))).
  { intros c e Hc. unfold Dec.to_integral_down. rewrite Hc.
    destruct (Z.leb_spec (Dec.digits v) 1000); [|lia].
    rewrite orb_true_r. reflexivity. }
  assert (Hsplit18 : a * 10 ^ 18 = v * 10 ^ k).
  { unfold v. rewrite <- Z.mul_assoc, <- Z.pow_add_r by lia.
    replace (18 - k + k) with 18 by lia. reflexivity. }
  unfold Dec.round_context.
  destruct (Z.leb_spec (Dec.digits (a * 10 ^ 18)) Dec.context_prec) as [Hd|Hd].
  - apply Hfin. destruct (Z.leb_spec 0 (- k + 0)) as [He|He].
    + assert (k = 0) by lia. subst k. unfold v.
      replace (- 0 + 0) with 0 by lia. replace (18 - 0) with 18 by lia.
      rewrite Z.pow_0_r. lia.
    + replace (- (- k + 0)) with k by lia. rewrite Hsplit18.
      apply Z.div_mul. assert (0 < 10 ^ k) by (apply Z.pow_pos_nonneg; lia).
      lia.
  - unfold Dec.context_prec in *.
    set (j := Dec.digits (a * 10 ^ 18) - 28) in *.
    assert (Hj : 0 < j <= 18).
    { split; [lia|].
      assert (Dec.digits (a * 10 ^ 18) <= 46); [|lia].
      apply digits_le_iff; [nia | lia |].
      replace 46 with (28 + 18) by lia. rewrite Z.pow_add_r by lia. nia. }
    assert (Hp : 0 < 10 ^ j) by (apply Z.pow_pos_nonneg; lia).
    assert (Hsplit : a * 10 ^ 18 = a * 10 ^ (18 - j) * 10 ^ j).
    { rewrite <- Z.mul_assoc, <- Z.pow_add_r by lia.
      replace (18 - j + j) with 18 by lia. reflexivity. }
    assert (Hdiv : Dec.div_half_even (a * 10 ^ 18) (10 ^ j)
                   = a * 10 ^ (18 - j)).
    { rewrite div_half_even_exact; [| lia |].
      - rewrite Hsplit. apply Z.div_mul. lia.
      - rewrite Hsplit. apply Z.mod_mul. lia. }
    rewrite Hdiv. apply Hfin.
    destruct (Z.leb_spec 0 (- k + 0 + j)) as [He|He].
    + unfold v. rewrite <- Z.mul_assoc, <- Z.pow_add_r by lia.
      replace (18 - j + (- k + 0 + j)) with (18 - k) by lia. reflexivity.
    + replace (- (- k + 0 + j)) with (k - j) by lia.
      assert (Hkj : 0 < 10 ^ (k - j)) by (apply Z.pow_pos_nonneg; lia).
      assert (Hs2 : a * 10 ^ (18 - j) = v * 10 ^ (k - j)).
      { unfold v. rewrite <- Z.mul_assoc, <- Z.pow_add_r by lia.
        replace (18 - k + (k - j)) with (18 - j) by lia. reflexivity. }
      rewrite Hs2. apply Z.div_mul. lia.
Qed.

Lemma Ok_wad_value (a : Z) (w : Wad) :
  Ok (mkWad a) = Ok w -> wad_value w = a.
Proof. intros H. injection H as <-. reflexivity. Qed.

Lemma negate_small_decimal (a k : Z) :
  0 < a < 10 ^ 28 ->
  number_mul_int (NDecimal (Dec.DFinite false a (- k))) (-1)
  = Ok (NDecimal (Dec.DFinite true a (- k))).
Proof.
  intros [Hpos Hlt]. unfold number_mul_int, Dec.mul, Dec.of_Z.
  change (-1 <? 0) with true. change (Z.abs (-1)) with 1.
  cbn [bind xorb]. unfold Dec.round_context.
  replace (a * 1) with a by lia. replace (- k + 0) with (- k) by lia.
  destruct (Z.leb_spec (Dec.digits a) Dec.context_prec) as [Hd|Hd];
    [reflexivity|].
  exfalso. unfold Dec.context_prec in Hd.
  assert (Dec.digits a <= 28) by (apply digits_le_iff; lia). lia.
Qed.

(** X13: the amount that [_convert_balance_to_wad] adds is exact: with
    [n = int(float(wei))], which a converted entry has at most
    [2^256 - 1] in absolute value, below [10^28], the ["wad"] of the
    converted entry stands for [n / 10^6] when [decimals] is 6 and for
    [n / 10^18] for every other value of [decimals], sign included. *)
Theorem balance_conversion_is_exact :
  forall (balance : pyval) (decimals : Z) (out : list (string * field)),
    _convert_balance_to_wad balance decimals = Ok out ->
    exists wv x n w,
      getitem balance "wei" = Ok wv /\ py_float wv = Ok x /\
      F64.to_Z x = Ok n /\ Z.abs n <= MAX_WEI /\
      assoc "wad" out = Some (WadObj w) /\
      (Z.abs n < 10 ^ 28 ->
       wad_value w = if decimals =? 6 then n * 10 ^ 12 else n).
Proof.
  intros balance decimals out H.
  destruct (convert_balance_inv _ _ _ H)
    as (wv & x & n & c0 & c1 & c2 & wad & kv & Hwv & Hx & Hn & Hc0 & Hc1
        & Hc2 & Hw & -> & ->).
  exists wv, x, n, wad.
  split; [assumption|]. split; [assumption|]. split; [assumption|].
  split; [apply (from_wei_bound _ _ _ Hc0)|]. split.
  - apply assoc_dict_set_same.
  - intros Hlt. destruct (ltb0_sign _ _ Hn) as [Ht Hf].
    assert (Hgen : forall u k,
               units (Lit.lower_string u) = Some k -> 0 <= k <= 18 ->
               from_wei (Z.abs n) u = Ok c1 ->
               wad_value wad = n * 10 ^ (18 - k)).
    { intros u k Hu Hk Hc.
      destruct (from_wei_cases _ _ _ Hc) as [[H0 ->]|(k' & Hk' & Ha & ->)].
      - assert (n = 0) by lia. subst n.
        assert (c2 = NInt 0)
          by (destruct (F64.ltb0 x); simpl in Hc2; congruence).
        subst c2. rewrite Wad_from_number_zero in Hw. inversion Hw.
        reflexivity.
      - assert (k' = k) by congruence. subst k'.
        destruct (F64.ltb0 x).
        + specialize (Ht eq_refl).
          rewrite negate_small_decimal in Hc2 by lia.
          inversion Hc2; subst c2.
          rewrite Wad_from_decimal_exact in Hw by lia.
          rewrite (Ok_wad_value _ _ Hw).
          replace (Z.abs n) with (- n) by lia. ring.
        + specialize (Hf eq_refl). inversion Hc2; subst c2.
          rewrite Wad_from_decimal_exact in Hw by lia.
          rewrite (Ok_wad_value _ _ Hw).
          replace (Z.abs n) with n by lia. reflexivity. }
    destruct (decimals =? 6).
    + rewrite (Hgen "mwei" 6 eq_refl ltac:(lia) Hc1). reflexivity.
    + inversion Hc1; subst c1.
      rewrite (Hgen "ether" 18 eq_refl ltac:(lia) Hc0).
      change (18 - 18) with 0. rewrite Z.pow_0_r. lia.
Qed.

Lemma mapM_Raise {A B : Type} (f : A -> result B) (xs : list A) (x : A)
  (e : exn) :
  In x xs -> f x = Raise e -> exists e', mapM f xs = Raise e'.
Proof.
  induction xs as [|x0 xs IH]; simpl; intros Hin Hf; [contradiction|].
  destruct (f x0) as [y0|e0] eqn:E0; [|exists e0; reflexivity].
  destruct Hin as [->|Hin]; [congruence|].
  destruct (IH Hin Hf) as (e' & ->). exists e'. reflexivity.
Qed.

Lemma list_map_filter_Raise {A B : Type} (f : A -> result B)
  (p : A -> result bool) (xs : list A) (x : A) (e : exn) :
  In x xs ->
  p x = Raise e \/ (p x = Ok true /\ f x = Raise e) ->
  exists e', list_map_filter f p xs = Raise e'.
Proof.
  induction xs as [|x0 xs IH]; simpl; intros Hin Hf; [contradiction|].
  destruct (p x0) as [[|]|e0] eqn:E0; cbn [bind];
    [| |exists e0; reflexivity].
  - destruct (f x0) as [y0|e1] eqn:E1; cbn [bind];
      [|exists e1; reflexivity].
    destruct Hin as [->|Hin].
    + destruct Hf as [Hf|[_ Hf]]; congruence.
    + destruct (IH Hin Hf) as (e' & ->). exists e'. reflexivity.
  - destruct Hin as [->|Hin].
    + destruct Hf as [Hf|[Hf _]]; congruence.
    + exact (IH Hin Hf).
Qed.

(** X14: [get_balances] converts every entry of the reply, in order: a
    list it returns has one converted entry, with a ["wad"], for each
    entry of the reply; and one entry that cannot be converted, or whose
    market id [int] does not accept, makes the whole call raise. *)
Theorem get_balances_converts_every_entry :
  forall (reply balances : pyval) (items : list (string * pyval))
         (tr : list request),
    client get_my_balances_req = Ok reply ->
    getitem reply "balances" = Ok balances ->
    py_items balances = Ok items ->
    (forall outs,
        fst (get_balances tr) = Ok outs ->
        List.length outs = List.length items /\
        Forall2 (fun entry out =>
                   balance_entry entry = Ok out /\
                   exists w, assoc "wad" out = Some (WadObj w))
                items outs) /\
    (forall entry e,
        In entry items -> balance_entry entry = Raise e ->
        exists e', fst (get_balances tr) = Raise e') /\
    (forall market_id balance e,
        In (market_id, balance) items ->
        py_int (PStr market_id) = Raise e ->
        exists e', fst (get_balances tr) = Raise e').
Proof.
  intros reply balances items tr Hc Hb Hi.
  assert (E : fst (get_balances tr) = mapM balance_entry items).
  { unfold get_balances, bindM, call, lift. rewrite Hc. cbn [bind fst].
    rewrite Hb. cbn [bind]. unfold _balances_to_list. rewrite Hi.
    reflexivity. }
  rewrite E. repeat split.
  - apply mapM_Forall2 in H. symmetry. exact (Forall2_length H).
  - apply mapM_Forall2 in H. eapply Forall2_impl; [|exact H].
    intros [market_id balance] out Ho. split; [exact Ho|].
    unfold balance_entry in Ho.
    apply bind_Ok in Ho. destruct Ho as (id & _ & Ho).
    apply bind_Ok in Ho. destruct Ho as (lab & _ & Ho).
    destruct (convert_balance_shape _ _ _ Ho) as (kv & w & _ & ->).
    exists w. apply assoc_dict_set_same.
  - intros entry e Hin He. exact (mapM_Raise _ _ _ _ Hin He).
  - intros market_id balance e Hin Hl.
    apply (mapM_Raise _ _ _ e Hin).
    unfold balance_entry. rewrite Hl. reflexivity.
Qed.

(** X15: the listing methods return all translations or none: an open
    order that does not translate, or an order without a status, makes
    [get_orders] raise; likewise a confirmed fill that does not
    translate, or a fill without a status, for [get_all_trades]; and any
    fill that does not translate for [get_trades]. *)
Theorem listings_are_all_or_nothing :
  forall (self : DydxApi) (pair : string) (mi : pyval) (tr : list request),
    getitem (market_info self) pair = Ok mi ->
    (forall reply items item e,
        client (get_my_orders_req [pair] PNone PNone) = Ok reply ->
        getitem reply "orders" = Ok (PList items) ->
        In item items ->
        getitem item "status" = Raise e \/
        (is_open item = true /\
         DydxOrder_from_message item pair mi = Raise e) ->
        exists e', fst (get_orders self pair tr) = Raise e') /\
    (forall reply items item e,
        client (get_fills_req [pair] 100) = Ok reply ->
        getitem reply "fills" = Ok (PList items) ->
        In item items ->
        getitem item "status" = Raise e \/
        (is_confirmed item = true /\
         DydxTrade_from_message item pair mi = Raise e) ->
        exists e', fst (get_all_trades self pair 1 tr) = Raise e') /\
    (forall page_number reply items item e,
        client (get_my_fills_req [pair]) = Ok reply ->
        getitem reply "fills" = Ok (PList items) ->
        In item items ->
        DydxTrade_from_message item pair mi = Raise e ->
        exists e', fst (get_trades self pair page_number tr) = Raise e').
Proof.
  intros self pair mi tr Hmi.
  assert (Hst : forall s item e,
             getitem item "status" = Raise e \/
             ((match getitem item "status" with
               | Ok st => py_eq_str st s
               | Raise _ => false
               end) = true /\ True) ->
             (st <- getitem item "status" ;; Ok (py_eq_str st s)) = Raise e \/
             (st <- getitem item "status" ;; Ok (py_eq_str st s)) = Ok true).
  { intros s item e [H|[H _]].
    - left. now rewrite H.
    - right. destruct (getitem item "status"); [|discriminate].
      cbn [bind]. now rewrite H. }
  repeat split.
  - intros reply items item e Hc Ho Hin Hf.
    unfold get_orders, bindM, call, lift. rewrite Hc. cbn [bind fst].
    rewrite Ho. cbn [bind py_iter]. rewrite Hmi. cbn [bind].
    apply (list_map_filter_Raise _ _ _ item e Hin).
    destruct Hf as [Hf|[Hop Hf]].
    + left. now rewrite Hf.
    + right. split; [|exact Hf].
      destruct (Hst "OPEN" item e (or_intror (conj Hop I))) as [H|H];
        [|exact H].
      unfold is_open in Hop.
      destruct (getitem item "status"); discriminate.
  - intros reply items item e Hc Ho Hin Hf.
    unfold get_all_trades, bindM, call, lift, assert.
    change (1 =? 1) with true. cbn iota. rewrite Hc. cbn [bind fst].
    rewrite Ho. cbn [bind py_iter]. rewrite Hmi. cbn [bind].
    apply (list_map_filter_Raise _ _ _ item e Hin).
    destruct Hf as [Hf|[Hop Hf]].
    + left. now rewrite Hf.
    + right. split; [|exact Hf].
      destruct (Hst "CONFIRMED" item e (or_intror (conj Hop I))) as [H|H];
        [|exact H].
      unfold is_confirmed in Hop.
      destruct (getitem item "status"); discriminate.
  - intros page_number reply items item e Hc Ho Hin Hf.
    unfold get_trades, bindM, call, lift. rewrite Hc. cbn [bind fst].
    rewrite Hmi. cbn [bind]. rewrite Ho. cbn [bind py_iter].
    exact (mapM_Raise _ _ _ _ Hin Hf).
Qed.

(** *** The rounding of the submitted price *)

Lemma trailing_zeros_spec (k : nat) :
  forall m, exists m',
    Z.pos m = m' * 2 ^ Z.of_nat (Dec.trailing_zeros k m) /\
    (Dec.trailing_zeros k m <= k)%nat.
Proof.
  induction k as [|k IH]; intros m.
  - exists (Z.pos m). simpl. split; [lia | apply Nat.le_refl].
  - destruct m as [m|m|].
    + exists (Z.pos m~1). simpl. split; [lia | apply Nat.le_0_l].
    + destruct (IH m) as (m' & Hm & Hle). exists m'.
      cbn [Dec.trailing_zeros]. split; [|apply le_n_S; exact Hle].
      rewrite Nat2Z.inj_succ, Z.pow_succ_r by lia.
      rewrite Pos2Z.inj_xO, Hm. ring.
    + exists 1. simpl. split; [lia | apply Nat.le_0_l].
Qed.

Lemma Qpow10_split (n : Z) :
  (Qpower 10 n == Qpower 2 n * Qpower 5 n)%Q.
Proof.
  assert (E : (10 == 2 * 5)%Q) by reflexivity.
  rewrite E. apply Qmult_power.
Qed.

Lemma Qpow_inject (b n : Z) :
  0 <= n -> (inject_Z (b ^ n) == Qpower (inject_Z b) n)%Q.
Proof. intros Hn. apply Zpower_Qpower. exact Hn. Qed.

Lemma Qpow_cancel (b : Q) (n : Z) :
  ~ (b == 0)%Q -> (Qpower b n * Qpower b (- n) == 1)%Q.
Proof.
  intros Hb. rewrite <- Qpower_plus by exact Hb.
  replace (n + - n) with 0 by lia. reflexivity.
Qed.

(** [Decimal(x)] has the value of the float [x]. *)
Lemma of_float_exact (x : F64.float) :
  (Dec.to_Q (Dec.of_float x) == F64.to_Q x)%Q.
Proof.
  destruct x as [s|s| |s m e]; try reflexivity.
  - destruct s; reflexivity.
  - assert (Hmag : forall c e10,
               (inject_Z c * Qpower 10 e10
                == inject_Z (Z.pos m) * Qpower 2 e)%Q ->
               (Dec.to_Q (Dec.DFinite s c e10)
                == F64.to_Q (S754_finite s m e))%Q).
    { intros c e10 H. unfold Dec.to_Q, F64.to_Q.
      destruct s; rewrite H; reflexivity. }
    destruct e as [|k|k]; unfold Dec.of_float; apply Hmag.
    + reflexivity.
    + rewrite inject_Z_mult.
      rewrite (Qpow_inject 2 (Z.pos k)) by lia.
      change (Qpower 10 0) with 1%Q. change (inject_Z 2) with 2%Q. ring.
    + destruct (trailing_zeros_spec (Pos.to_nat k) m) as (m' & Hm & Hle).
      set (t := Z.of_nat (Dec.trailing_zeros (Pos.to_nat k) m)) in *.
      assert (Ht : 0 <= t <= Z.pos k).
      { unfold t. split; [lia|].
        rewrite <- (positive_nat_Z k). apply Nat2Z.inj_le. exact Hle. }
      assert (Hp : 0 < 2 ^ t) by (apply Z.pow_pos_nonneg; lia).
      rewrite Hm. rewrite Z.div_mul by lia.
      set (k' := Z.pos k - t).
      rewrite !inject_Z_mult.
      rewrite (Qpow_inject 5 k') by (unfold k'; lia).
      rewrite (Qpow_inject 2 t) by lia.
      change (inject_Z 5) with 5%Q. change (inject_Z 2) with 2%Q.
      rewrite (Qpow10_split (- k')).
      assert (E2 : (Qpower 2 (Z.neg k) == Qpower 2 (- t) * Qpower 2 (- k'))%Q).
      { rewrite <- Qpower_plus by discriminate.
        replace (- t + - k') with (Z.neg k) by (unfold k'; lia).
        reflexivity. }
      rewrite E2.
      assert (C5 : (Qpower 5 k' * Qpower 5 (- k') == 1)%Q)
        by (apply Qpow_cancel; discriminate).
      assert (C2 : (Qpower 2 t * Qpower 2 (- t) == 1)%Q)
        by (apply Qpow_cancel; discriminate).
      transitivity (inject_Z m' * Qpower 2 (- k')
                    * (Qpower 5 k' * Qpower 5 (- k')))%Q; [ring|].
      transitivity (inject_Z m' * Qpower 2 (- k')
                    * (Qpower 2 t * Qpower 2 (- t)))%Q; [|ring].
      rewrite C5, C2. reflexivity.
Qed.

Lemma div_half_even_error (c p : Z) :
  0 < p -> 2 * Z.abs (Dec.div_half_even c p * p - c) <= p.
Proof.
  intros Hp. unfold Dec.div_half_even.
  pose proof (Z.div_mod c p ltac:(lia)) as Hdm.
  pose proof (Z.mod_pos_bound c p Hp) as Hr.
  set (q := c / p) in *. set (r := c mod p) in *.
  destruct (Z.compare_spec (2 * r) p) as [He|Hl|Hg];
    [destruct (Z.even q)| |]; nia.
Qed.

(** [round(d, t)] moves a finite decimal by at most half a unit of the
    last place kept. *)
Lemma round_ndigits_error (s : bool) (c e t : Z) (q : Dec.decimal) :
  Dec.round_ndigits (Dec.DFinite s c e) t = Ok q ->
  (Qabs (Dec.to_Q q - Dec.to_Q (Dec.DFinite s c e))
   <= (1 # 2) * Qpower 10 (- t))%Q.
Proof.
  unfold Dec.round_ndigits.
  destruct ((1000026 <? t) || (t <? -999999)); [discriminate|].
  assert (Hpos : forall n, (0 < Qpower 10 n)%Q)
    by (intros n; apply Qpower_0_lt; reflexivity).
  assert (Hsign : forall a b : Q,
             (Qabs ((if s then - a else a) - (if s then - b else b))
              == Qabs (a - b))%Q).
  { intros a b. destruct s; [|reflexivity].
    assert (E : (- a - - b == - (a - b))%Q) by ring.
    rewrite E. apply Qabs_opp. }
  destruct (Z.leb_spec (- t) e) as [Hle|Hlt].
  - set (c' := c * 10 ^ (e + t)).
    destruct ((c' =? 0) || (Dec.digits c' <=? Dec.context_prec));
      [|discriminate].
    intros H. injection H as <-. unfold Dec.to_Q. rewrite Hsign.
    unfold c'. rewrite inject_Z_mult.
    rewrite (Qpow_inject 10 (e + t)) by lia.
    change (inject_Z 10) with 10%Q.
    assert (E : (Qpower 10 (e + t) * Qpower 10 (- t) == Qpower 10 e)%Q).
    { rewrite <- Qpower_plus by discriminate.
      replace (e + t + - t) with e by lia. reflexivity. }
    assert (Z0 : (inject_Z c * Qpower 10 (e + t) * Qpower 10 (- t)
                   - inject_Z c * Qpower 10 e == 0)%Q).
    { transitivity (inject_Z c * (Qpower 10 (e + t) * Qpower 10 (- t))
                    - inject_Z c * Qpower 10 e)%Q; [ring|].
      rewrite E. ring. }
    rewrite Z0. change (Qabs 0) with 0%Q.
    apply Qmult_le_0_compat; [discriminate|].
    apply Qlt_le_weak. apply Hpos.
  - set (P := 10 ^ (- t - e)).
    assert (HP : 0 < P) by (apply Z.pow_pos_nonneg; lia).
    set (c' := Dec.div_half_even c P).
    destruct ((c' =? 0) || (Dec.digits c' <=? Dec.context_prec));
      [|discriminate].
    intros H. injection H as <-. unfold Dec.to_Q. rewrite Hsign.
    pose proof (div_half_even_error c P HP) as Herr. fold c' in Herr.
    assert (E : (Qpower 10 (- t) == inject_Z P * Qpower 10 e)%Q).
    { unfold P. rewrite (Qpow_inject 10 (- t - e)) by lia.
      change (inject_Z 10) with 10%Q.
      rewrite <- Qpower_plus by discriminate.
      replace (- t - e + e) with (- t) by lia. reflexivity. }
    rewrite E.
    assert (D : (inject_Z c' * (inject_Z P * Qpower 10 e)
                 - inject_Z c * Qpower 10 e
                 == inject_Z (c' * P - c) * Qpower 10 e)%Q).
    { unfold Zminus. rewrite inject_Z_plus, inject_Z_mult, inject_Z_opp.
      ring. }
    rewrite D. rewrite Qabs_Qmult.
    rewrite (Qabs_pos (Qpower 10 e)) by (apply Qlt_le_weak; apply Hpos).
    rewrite Qmult_assoc. apply Qmult_le_compat_r;
      [|apply Qlt_le_weak; apply Hpos].
    assert (HQ : (Qabs (inject_Z (c' * P - c)) == inject_Z (Z.abs (c' * P - c)))%Q).
    { unfold Qabs, inject_Z. reflexivity. }
    rewrite HQ.
    unfold Qle, inject_Z, Qmult. cbn [Qnum Qden]. lia.
Qed.


(** *** The sign of a translated price *)

Lemma try_digits_nonneg (x : F64.float) (s : bool) (num den j c E : Z) :
  0 <= num -> 0 < den ->
  Repr.try_digits x s num den j = Some (c, E) -> 0 <= c.
Proof.
  intros Hn Hd. unfold Repr.try_digits.
  set (E0 := Repr.floor_log10 num den + 1 - j).
  set (n' := if 0 <=? E0 then num else num * 10 ^ (- E0)).
  set (d' := if 0 <=? E0 then den * 10 ^ E0 else den).
  assert (Hn' : 0 <= n').
  { unfold n'. destruct (0 <=? E0); [assumption|].
    apply Z.mul_nonneg_nonneg; [assumption|]. apply Z.pow_nonneg. lia. }
  assert (Hd' : 0 < d').
  { unfold d'. destruct (Z.leb_spec 0 E0); [|assumption].
    apply Z.mul_pos_pos; [assumption|]. apply Z.pow_pos_nonneg; lia. }
  assert (Hlo : 0 <= n' / d') by (apply Z.div_pos; assumption).
  destruct (n' mod d' =? 0); [intros H; injection H as <- _; assumption|].
  destruct (Repr.float_eqb _ x); destruct (Repr.float_eqb _ x);
    try discriminate;
    try (intros H; injection H as <- _; lia).
  destruct (2 * (n' mod d') ?= d');
    [destruct (Z.even (n' / d'))| |];
    intros H; injection H as <- _; lia.
Qed.

Lemma shortest_nonneg (fuel : nat) (x : F64.float) (s : bool)
  (num den : Z) :
  0 <= num -> 0 < den ->
  forall j, 0 <= fst (Repr.shortest fuel x s num den j).
Proof.
  intros Hn Hd. induction fuel as [|f IH]; intros j.
  - cbn [Repr.shortest fst].
    set (E0 := Repr.floor_log10 num den + 1 - j).
    set (n' := if 0 <=? E0 then num else num * 10 ^ (- E0)).
    set (d' := if 0 <=? E0 then den * 10 ^ E0 else den).
    assert (Hn' : 0 <= n').
    { unfold n'. destruct (0 <=? E0); [assumption|].
      apply Z.mul_nonneg_nonneg; [assumption|]. apply Z.pow_nonneg. lia. }
    assert (Hd' : 0 < d').
    { unfold d'. destruct (Z.leb_spec 0 E0); [|assumption].
      apply Z.mul_pos_pos; [assumption|]. apply Z.pow_pos_nonneg; lia. }
    pose proof (div_half_even_bounds n' d' Hd') as [Hb _].
    assert (0 <= n' / d') by (apply Z.div_pos; assumption). lia.
  - cbn [Repr.shortest].
    destruct (Repr.try_digits x s num den j) as [[c E]|] eqn:Et.
    + cbn [fst]. exact (try_digits_nonneg _ _ _ _ _ _ _ Hn Hd Et).
    + apply IH.
Qed.

(** The sign of [Wad.from_number(x)] for a float [x]. *)
Lemma Wad_from_float_sign (x : F64.float) (w : Wad) :
  Wad_from_number (NFloat x) = Ok w ->
  match x with
  | S754_zero _ => wad_value w = 0
  | S754_finite true _ _ => wad_value w <= 0
  | S754_finite false _ _ => 0 <= wad_value w
  | _ => False
  end.
Proof.
  destruct x as [s|s| |s m e].
  - destruct s; vm_compute; intros H; injection H as <-; reflexivity.
  - destruct s; vm_compute; discriminate.
  - vm_compute. discriminate.
  - unfold Wad_from_number, Repr.to_decimal.
    set (num := if 0 <=? e then Z.pos m * 2 ^ e else Z.pos m).
    set (den := if 0 <=? e then 1 else 2 ^ (- e)).
    assert (Hn : 0 <= num).
    { unfold num. destruct (0 <=? e); [|lia].
      apply Z.mul_nonneg_nonneg; [lia|]. apply Z.pow_nonneg. lia. }
    assert (Hd : 0 < den).
    { unfold den. destruct (Z.leb_spec 0 e); [lia|].
      apply Z.pow_pos_nonneg; lia. }
    pose proof (shortest_nonneg 16 (S754_finite s m e) s num den Hn Hd 1)
      as Hc.
    destruct (Repr.shortest 16 (S754_finite s m e) s num den 1) as [c E].
    cbn [fst] in Hc. unfold Dec.mul. cbn [bind].
    rewrite xorb_false_r.
    assert (H18 : 0 < 10 ^ 18) by reflexivity.
    destruct (round_context_sign s (c * 10 ^ 18) (E + 0) ltac:(nia))
      as (c' & e' & -> & Hc').
    intros H. apply bind_Ok in H. destruct H as (v & Hv & H).
    rewrite (Ok_wad_value _ _ H).
    pose proof (to_integral_down_sign s c' e' v Hc' Hv) as Hs.
    destruct s; exact Hs.
Qed.

Lemma binary_round_sign (s : bool) (m : positive) (e : Z) :
  match binary_round F64.prec F64.emax s m e with
  | S754_finite s' _ _ => s' = s
  | _ => True
  end.
Proof.
  unfold binary_round. destruct (shl_align _ _ _).
  apply binary_round_aux_sign.
Qed.

(** The powers of ten that scale a price are not negative. *)
Lemma pow10_sign (k : Z) (x g : F64.float) :
  float_mul x (pow10 k) = Ok g ->
  exists y, g = F64.mul x y /\
            match y with S754_finite s _ _ => s = false | _ => True end.
Proof.
  unfold pow10. destruct (Z.leb_spec 0 k) as [Hk|Hk]; cbn [float_mul].
  - unfold float_of_int. set (y := F64.of_Z (10 ^ k)).
    assert (Hy : match y with S754_finite s _ _ => s = false | _ => True end).
    { unfold y, F64.of_Z, binary_normalize.
      pose proof (Z.pow_pos_nonneg 10 k ltac:(lia) Hk) as Hp.
      destruct (10 ^ k) as [|p|p]; [trivial | | lia].
      apply binary_round_sign. }
    destruct (F64.is_finite y); [|discriminate].
    cbn [bind]. intros H. injection H as <-. exists y. auto.
  - intros H. injection H as <-. exists (F64.of_decimal false 1 k).
    split; [reflexivity|]. exact (of_decimal_sign false 1 k).
Qed.

Lemma mul_sign (x y : F64.float) :
  match y with S754_finite s _ _ => s = false | _ => True end ->
  match F64.mul x y with
  | S754_finite s _ _ => exists m e, x = S754_finite s m e
  | _ => True
  end.
Proof.
  intros Hy. unfold F64.mul, SFmul.
  destruct x as [sx|sx| |sx mx ex]; destruct y as [sy|sy| |sy my ey];
    trivial.
  subst sy.
  pose proof (binary_round_aux_sign (xorb sx false) (Z.pos (mx * my))
                (ex + ey) loc_Exact) as Hs.
  destruct (binary_round_aux _ _ _ _ _ _) as [| | |s m e]; trivial.
  subst s. rewrite xorb_false_r. eauto.
Qed.

Lemma scaled_price_sign (x g : F64.float) (k : Z) (w : Wad) :
  float_mul x (pow10 k) = Ok g ->
  Wad_from_number (NFloat g) = Ok w ->
  (wad_value w < 0 -> exists m e, x = S754_finite true m e) /\
  (0 < wad_value w -> exists m e, x = S754_finite false m e).
Proof.
  intros Hg Hw. destruct (pow10_sign _ _ _ Hg) as (y & -> & Hy).
  pose proof (mul_sign x y Hy) as Hm.
  pose proof (Wad_from_float_sign _ _ Hw) as Hs.
  destruct (F64.mul x y) as [s|s| |s m e]; try contradiction.
  - split; lia.
  - destruct s; split; intros Hlt; try lia; exact Hm.
Qed.

(** X17: the sign of a translated price is that of the wire price: the
    price of an order or of a fill is negative only when the wire price
    reads as a negative finite float, and positive only when it reads as
    a positive one. *)
Theorem price_sign_follows_wire_price :
  (forall item pair mi o,
      DydxOrder_from_message item pair mi = Ok o ->
      exists pv x,
        getitem item "price" = Ok pv /\ py_float pv = Ok x /\
        (wad_value (Order.price o) < 0 ->
         exists m e, x = S754_finite true m e) /\
        (0 < wad_value (Order.price o) ->
         exists m e, x = S754_finite false m e)) /\
  (forall fill pair mi t,
      DydxTrade_from_message fill pair mi = Ok t ->
      exists pv x,
        getitem fill "price" = Ok pv /\ py_float pv = Ok x /\
        (wad_value (Trade.price t) < 0 ->
         exists m e, x = S754_finite true m e) /\
        (0 < wad_value (Trade.price t) ->
         exists m e, x = S754_finite false m e)).
Proof.
  split.
  - intros item pair mi o H.
    destruct (DydxOrder_from_message_inv _ _ _ _ H)
      as (d & pv & pf & scaled & price & id & cv & ts & sv & bv & bf & bi & w
          & amount & _ & Hpv & Hpf & Hsc & Hpr & _ & _ & _ & _ & _ & _ & _
          & _ & _ & ->).
    exists pv, pf. cbn [Order.price].
    split; [assumption|]. split; [assumption|].
    exact (scaled_price_sign _ _ _ _ Hsc Hpr).
  - intros fill pair mi t H.
    destruct (DydxTrade_from_message_inv _ _ _ _ H)
      as (d & pv & pf & scaled & price & id & cv & ts & mk & sv & av & af & ai
          & w & amount & _ & Hpv & Hpf & Hsc & Hpr & _ & _ & _ & _ & _ & _
          & _ & _ & _ & _ & ->).
    exists pv, pf. cbn [Trade.price].
    split; [assumption|]. split; [assumption|].
    exact (scaled_price_sign _ _ _ _ Hsc Hpr).
Qed.

(** *** Construction, get_markets and get_pair *)

(** X18: construction asks the client for the markets once and caches
    the ["markets"] entry of the reply, which is also what [get_markets]
    returns; [get_pair] asks again and returns the entry of the pair,
    raising [KeyError] for a pair that the reply does not hold; and when
    the reply has no ["markets"] entry all three raise the same error,
    so that no adapter is constructed. *)
Theorem construction_caches_the_markets :
  forall (reply : pyval) (tr : list request),
    client get_markets_req = Ok reply ->
    (forall m,
        getitem reply "markets" = Ok m ->
        init tr = (Ok (mkDydxApi m), (tr ++ [get_markets_req])%list) /\
        get_markets tr = (Ok m, (tr ++ [get_markets_req])%list) /\
        (forall pair,
            get_pair pair tr
            = (getitem m pair, (tr ++ [get_markets_req])%list)) /\
        (forall pair kv,
            m = PDict kv -> assoc pair kv = None ->
            fst (get_pair pair tr) = Raise (KeyError pair))) /\
    (forall e,
        getitem reply "markets" = Raise e ->
        init tr = (Raise e, (tr ++ [get_markets_req])%list) /\
        get_markets tr = (Raise e, (tr ++ [get_markets_req])%list) /\
        (forall pair,
            get_pair pair tr = (Raise e, (tr ++ [get_markets_req])%list))).
Proof.
  intros reply tr Hc. split.
  - intros m Hm.
    assert (Hp : forall pair,
               get_pair pair tr
               = (getitem m pair, (tr ++ [get_markets_req])%list)).
    { intros pair. unfold get_pair, get_markets, bindM, call, lift.
      rewrite Hc, Hm. reflexivity. }
    repeat split.
    + unfold init, bindM, call, lift, ret. rewrite Hc, Hm. reflexivity.
    + unfold get_markets, bindM, call, lift. rewrite Hc, Hm. reflexivity.
    + exact Hp.
    + intros pair kv -> Hk. rewrite Hp. cbn [fst getitem]. now rewrite Hk.
  - intros e He. repeat split.
    + unfold init, bindM, call, lift. rewrite Hc, He. reflexivity.
    + unfold get_markets, bindM, call, lift. rewrite Hc, He. reflexivity.
    + intros pair. unfold get_pair, get_markets, bindM, call, lift.
      rewrite Hc, He. reflexivity.
Qed.

(** *** The price of an order and the price of a fill *)

(** X19: the two translations scale the price alike: an order and a fill
    with the same wire price, on markets with the same count of quote
    decimals, get the same price, whatever the pair and the other
    fields. *)
Theorem order_and_fill_prices_agree :
  forall (item fill : pyval) (pair pair' : string) (mi mi' : pyval)
         (o : Order.t) (t : Trade.t) (d : Z),
    DydxOrder_from_message item pair mi = Ok o ->
    DydxTrade_from_message fill pair' mi' = Ok t ->
    quote_decimals mi d -> quote_decimals mi' d ->
    getitem item "price" = getitem fill "price" ->
    Order.price o = Trade.price t.
Proof.
  intros item fill pair pair' mi mi' o t d Ho Ht Hd Hd' Hp.
  destruct (DydxOrder_from_message_inv _ _ _ _ Ho)
    as (d1 & pv & pf & scaled & price & id & cv & ts & sv & bv & bf & bi & w
        & amount & Hd1 & Hpv & Hpf & Hsc & Hpr & _ & _ & _ & _ & _ & _ & _
        & _ & _ & ->).
  destruct (DydxTrade_from_message_inv _ _ _ _ Ht)
    as (d2 & pv' & pf' & scaled' & price' & id' & cv' & ts' & mk & sv' & av
        & af & ai & w' & amount' & Hd2 & Hpv' & Hpf' & Hsc' & Hpr' & _ & _
        & _ & _ & _ & _ & _ & _ & _ & _ & ->).
  cbn [Order.price Trade.price].
  assert (d1 = d) by (eapply quote_decimals_unique; eauto).
  assert (d2 = d) by (eapply quote_decimals_unique; eauto).
  subst d1 d2.
  assert (pv' = pv) by congruence. subst pv'.
  assert (pf' = pf) by congruence. subst pf'.
  assert (scaled' = scaled) by congruence. subst scaled'.
  congruence.
Qed.

(** ** Rounding to binary64, in general

    The division core and [binary_round_aux] pass a quotient [N / D]
    together with the location of the remainder; the shifts keep both up
    to date, so that the final choice rounds [N / D] itself. *)

Lemma new_location_spec (D r : Z) :
  0 < D -> 0 <= r < D ->
  match new_location D r with
  | loc_Exact => r = 0
  | loc_Inexact Lt => 0 < r /\ 2 * r < D
  | loc_Inexact Eq => 2 * r = D
  | loc_Inexact Gt => D < 2 * r
  end.
Proof.
  intros HD Hr. unfold new_location, new_location_even, new_location_odd.
  destruct (Z.even D) eqn:Ev.
  - destruct (Z.eqb_spec r 0) as [E|E]; [assumption|].
    destruct (Z.compare_spec (2 * r) D); lia.
  - destruct (Z.eqb_spec r 0) as [E|E]; [assumption|].
    assert (Hodd : D <> 2 * r).
    { intros ->. rewrite Z.even_mul in Ev. discriminate. }
    destruct (Z.compare_spec (2 * r + 1) D); lia.
Qed.

Lemma loc_of_record_of_loc (m : Z) (l : location) :
  loc_of_shr_record (shr_record_of_loc m l) = l /\
  shr_m (shr_record_of_loc m l) = m.
Proof. destruct l as [|[| |]]; split; reflexivity. Qed.

Lemma new_location_even_double (D r : Z) :
  0 < D ->
  new_location (2 * D) r
  = if r =? 0 then loc_Exact else loc_Inexact (2 * r ?= 2 * D).
Proof.
  intros HD. unfold new_location, new_location_even.
  rewrite Z.even_mul. reflexivity.
Qed.

(** One shift keeps the quotient and the location of the remainder. *)
Lemma shr_1_keeps_location (st : shr_record) (N D : Z) :
  0 <= N -> 0 < D ->
  shr_m st = N / D ->
  loc_of_shr_record st = new_location D (N mod D) ->
  shr_m (shr_1 st) = N / (2 * D) /\
  loc_of_shr_record (shr_1 st) = new_location (2 * D) (N mod (2 * D)).
Proof.
  intros HN HD Hm Hl.
  pose proof (Z.div_mod N D ltac:(lia)) as Hdm.
  pose proof (Z.mod_pos_bound N D HD) as Hr.
  pose proof (new_location_spec D (N mod D) HD Hr) as Hs.
  rewrite <- Hl in Hs.
  assert (Hq0 : 0 <= N / D) by (apply Z.div_pos; lia).
  set (q := N / D) in *. set (r := N mod D) in *.
  rewrite new_location_even_double by assumption.
  destruct st as [m rb sb]. cbn [shr_m] in Hm. subst m.
  assert (Hhalf : forall h b : Z,
             q = 2 * h + b -> 0 <= b <= 1 ->
             N / (2 * D) = h /\ N mod (2 * D) = b * D + r).
  { intros h b Hq Hb.
    assert (E : N = h * (2 * D) + (b * D + r)) by nia.
    assert (Hrange : 0 <= b * D + r < 2 * D) by nia.
    split.
    - symmetry. apply (Z.div_unique N (2 * D) h (b * D + r)); [lia|lia].
    - symmetry. apply (Z.mod_unique N (2 * D) h (b * D + r)); [lia|lia]. }
  destruct q as [|[p|p|]|p] eqn:Eq; try lia.
  - destruct (Hhalf 0 0 ltac:(lia) ltac:(lia)) as [-> ->].
    cbn [shr_1 shr_m]. split; [reflexivity|].
    replace (0 * D + r) with r by lia.
    destruct rb, sb; cbn [loc_of_shr_record orb] in *;
      destruct (Z.eqb_spec r 0); try lia; try reflexivity;
      destruct (Z.compare_spec (2 * r) (2 * D)); try lia; reflexivity.
  - destruct (Hhalf (Z.pos p) 1 ltac:(lia) ltac:(lia)) as [-> ->].
    cbn [shr_1 shr_m]. split; [reflexivity|].
    destruct rb, sb; cbn [loc_of_shr_record orb] in *;
      destruct (Z.eqb_spec (1 * D + r) 0); try lia;
      destruct (Z.compare_spec (2 * (1 * D + r)) (2 * D)); try lia;
      reflexivity.
  - destruct (Hhalf (Z.pos p) 0 ltac:(lia) ltac:(lia)) as [-> ->].
    cbn [shr_1 shr_m]. split; [reflexivity|].
    replace (0 * D + r) with r by lia.
    destruct rb, sb; cbn [loc_of_shr_record orb] in *;
      destruct (Z.eqb_spec r 0); try lia; try reflexivity;
      destruct (Z.compare_spec (2 * r) (2 * D)); try lia; reflexivity.
  - destruct (Hhalf 0 1 ltac:(lia) ltac:(lia)) as [-> ->].
    cbn [shr_1 shr_m]. split; [reflexivity|].
    destruct rb, sb; cbn [loc_of_shr_record orb] in *;
      destruct (Z.eqb_spec (1 * D + r) 0); try lia;
      destruct (Z.compare_spec (2 * (1 * D + r)) (2 * D)); try lia;
      reflexivity.
Qed.

Lemma shr_iter_keeps_location (k : nat) (st : shr_record) (N D : Z) :
  0 <= N -> 0 < D ->
  shr_m st = N / D ->
  loc_of_shr_record st = new_location D (N mod D) ->
  shr_m (Nat.iter k shr_1 st) = N / (D * 2 ^ Z.of_nat k) /\
  loc_of_shr_record (Nat.iter k shr_1 st)
  = new_location (D * 2 ^ Z.of_nat k) (N mod (D * 2 ^ Z.of_nat k)).
Proof.
  intros HN HD Hm Hl. induction k as [|k IH].
  - cbn [Nat.iter Z.of_nat]. rewrite Z.pow_0_r, Z.mul_1_r. auto.
  - rewrite Nat.iter_succ. destruct IH as [IHm IHl].
    assert (Hp : 0 < 2 ^ Z.of_nat k) by (apply Z.pow_pos_nonneg; lia).
    assert (HD' : 0 < D * 2 ^ Z.of_nat k) by nia.
    destruct (shr_1_keeps_location _ N _ HN HD' IHm IHl) as [H1 H2].
    rewrite Nat2Z.inj_succ, Z.pow_succ_r by lia.
    replace (D * (2 * 2 ^ Z.of_nat k)) with (2 * (D * 2 ^ Z.of_nat k)) by lia.
    auto.
Qed.

(** The choice of the nearest integer, ties to even, from a quotient
    and the location of its remainder. *)
Lemma round_nearest_even_spec (st : shr_record) (N D : Z) :
  0 <= N -> 0 < D ->
  shr_m st = N / D ->
  loc_of_shr_record st = new_location D (N mod D) ->
  let M := round_nearest_even (shr_m st) (loc_of_shr_record st) in
  2 * Z.abs (M * D - N) <= D /\ N / D <= M <= N / D + 1.
Proof.
  intros HN HD Hm Hl. cbv zeta.
  pose proof (Z.div_mod N D ltac:(lia)) as Hdm.
  pose proof (Z.mod_pos_bound N D HD) as Hr.
  pose proof (new_location_spec D (N mod D) HD Hr) as Hs.
  rewrite <- Hl in Hs. rewrite Hm.
  set (q := N / D) in *. set (r := N mod D) in *.
  destruct (loc_of_shr_record st) as [|[| |]]; cbn [round_nearest_even].
  - split; nia.
  - destruct (Z.even q); split; nia.
  - split; nia.
  - split; nia.
Qed.

(** Rounding a quotient of at least 53 bits whose exponent stays in the
    normal range: the result is infinite, or a normal float within half
    a unit in the last place of [N / D * 2^e]. *)
Lemma binary_round_aux_nearest (s : bool) (N D e : Z) (q : positive) :
  0 <= N -> 0 < D -> N / D = Z.pos q ->
  53 <= Z.pos (digits2_pos q) ->
  -1074 <= e + (Z.pos (digits2_pos q) - 53) ->
  binary_round_aux F64.prec F64.emax s (Z.pos q) e
    (new_location D (N mod D)) = S754_infinity s \/
  exists m' e',
    binary_round_aux F64.prec F64.emax s (Z.pos q) e
      (new_location D (N mod D)) = S754_finite s m' e' /\
    Z.pos (digits2_pos m') = 53 /\
    e + (Z.pos (digits2_pos q) - 53) <= e' <= 971 /\
    2 * Z.abs (Z.pos m' * 2 ^ (e' - e) * D - N)
      <= 2 ^ (Z.pos (digits2_pos q) - 53) * D.
Proof.
  intros HN HD Hq Hd Hemin.
  pose proof (digits2_pos_bounds q) as [Hlo Hhi].
  set (d := Z.pos (digits2_pos q)) in *.
  set (n := d - 53) in *.
  assert (Hn : 0 <= n) by (unfold n; lia).
  assert (Hf : fexp F64.prec F64.emax (d + e) = e + n).
  { unfold fexp, emin, F64.prec, F64.emax, n in *. lia. }
  assert (Hpn : 0 < 2 ^ n) by (apply Z.pow_pos_nonneg; lia).
  (* the record after the first shift *)
  assert (Hst : exists st,
             shr_fexp F64.prec F64.emax (Z.pos q) e
               (new_location D (N mod D)) = (st, e + n) /\
             shr_m st = N / (D * 2 ^ n) /\
             loc_of_shr_record st
             = new_location (D * 2 ^ n) (N mod (D * 2 ^ n))).
  { unfold shr_fexp. cbn [Zdigits2]. fold d. rewrite Hf.
    destruct (loc_of_record_of_loc (Z.pos q) (new_location D (N mod D)))
      as [Hl0 Hm0].
    rewrite <- Hq in Hm0 at 2.
    destruct (e + n - e) as [|k|k] eqn:Hk; try lia.
    - assert (n = 0) by lia. cbn [shr].
      eexists. split; [f_equal; lia|].
      replace n with 0 by lia. rewrite Z.pow_0_r, Z.mul_1_r. auto.
    - cbn [shr]. rewrite iter_pos_nat.
      destruct (shr_iter_keeps_location (Pos.to_nat k) _ N D HN HD Hm0 Hl0)
        as [H1 H2].
      rewrite positive_nat_Z in H1, H2.
      assert (Z.pos k = n) by lia.
      eexists. split; [f_equal; lia|].
      replace n with (Z.pos k) by lia. auto. }
  destruct Hst as (st & Hshr & Hm & Hl).
  assert (HD' : 0 < D * 2 ^ n) by nia.
  destruct (round_nearest_even_spec st N (D * 2 ^ n) HN HD' Hm Hl)
    as [Herr HM].
  cbv zeta in Herr, HM.
  set (M := round_nearest_even (shr_m st) (loc_of_shr_record st)) in *.
  (* the quotient after the shift has exactly 53 bits *)
  assert (Hdiv : N / (D * 2 ^ n) = Z.pos q / 2 ^ n).
  { rewrite <- Hq. rewrite Z.div_div by lia. reflexivity. }
  assert (Hsplit : 2 ^ (d - 1) = 2 ^ 52 * 2 ^ n).
  { rewrite <- Z.pow_add_r by lia. f_equal. unfold n. lia. }
  assert (Hsplit' : 2 ^ d = 2 ^ 53 * 2 ^ n).
  { rewrite <- Z.pow_add_r by lia. f_equal. unfold n. lia. }
  assert (HQ : 2 ^ 52 <= N / (D * 2 ^ n) < 2 ^ 53).
  { rewrite Hdiv. split.
    - apply Z.div_le_lower_bound; lia.
    - apply Z.div_lt_upper_bound; lia. }
  unfold binary_round_aux. rewrite Hshr. fold M.
  destruct (Z.eq_dec M (2 ^ 53)) as [Hcarry|Hnocarry].
  - (* the mantissa rounds up to 2^53 and is renormalized *)
    rewrite Hcarry. change (2 ^ 53) with 9007199254740992.
    unfold shr_fexp.
    change (Zdigits2 9007199254740992) with 54.
    assert (Hf2 : fexp F64.prec F64.emax (54 + (e + n)) = e + n + 1).
    { unfold fexp, emin, F64.prec, F64.emax, n in *. lia. }
    rewrite Hf2. replace (e + n + 1 - (e + n)) with 1 by lia.
    cbn [shr iter_pos shr_1 shr_m shr_record_of_loc].
    destruct (Z.leb_spec (e + n + 1) (F64.emax - F64.prec)) as [Hle|Hgt];
      [right | left; reflexivity].
    unfold F64.emax, F64.prec in Hle.
    exists 4503599627370496%positive, (e + n + 1).
    split; [reflexivity|]. split; [reflexivity|]. split; [lia|].
    replace (e + n + 1 - e) with (n + 1) by lia.
    rewrite Z.pow_add_r by lia. rewrite Hcarry in Herr.
    change (2 ^ 1) with 2.
    replace (4503599627370496 * (2 ^ n * 2) * D)
      with (2 ^ 53 * (D * 2 ^ n))
      by (change (2 ^ 53) with 9007199254740992; lia).
    lia.
  - assert (HMr : 2 ^ 52 <= M < 2 ^ 53) by lia.
    destruct M as [|pM|pM] eqn:EM; try lia.
    unfold shr_fexp. cbn [Zdigits2].
    assert (HdM : Z.pos (digits2_pos pM) = 53)
      by (apply digits2_unique; change (53 - 1) with 52; lia).
    rewrite HdM.
    assert (Hf2 : fexp F64.prec F64.emax (53 + (e + n)) = e + n).
    { unfold fexp, emin, F64.prec, F64.emax, n in *. lia. }
    rewrite Hf2, Z.sub_diag. cbn [shr shr_m shr_record_of_loc].
    destruct (Z.leb_spec (e + n) (F64.emax - F64.prec)) as [Hle|Hgt];
      [right | left; reflexivity].
    unfold F64.emax, F64.prec in Hle.
    exists pM, (e + n).
    split; [reflexivity|]. split; [assumption|]. split; [lia|].
    replace (e + n - e) with n by lia.
    replace (Z.pos pM * 2 ^ n * D) with (Z.pos pM * (D * 2 ^ n)) by lia.
    lia.
Qed.

Lemma Qpow2_half (n : Z) :
  (Qpower 2 (n - 1) == (1 # 2) * Qpower 2 n)%Q.
Proof.
  replace (n - 1) with (n + -1) by lia. rewrite Qpow2_add.
  change (Qpower 2 (-1)) with (1 # 2)%Q. ring.
Qed.

Lemma inject_Z_pos (z : Z) : 0 < z -> (0 < inject_Z z)%Q.
Proof. intros H. change 0%Q with (inject_Z 0). now rewrite <- Zlt_Qlt. Qed.

Lemma inject_Z_nonneg (z : Z) : 0 <= z -> (0 <= inject_Z z)%Q.
Proof. intros H. change 0%Q with (inject_Z 0). now rewrite <- Zle_Qle. Qed.

Lemma Qabs_inject (z : Z) : (Qabs (inject_Z z) == inject_Z (Z.abs z))%Q.
Proof. unfold inject_Z. symmetry. apply Zabs_Qabs. Qed.

(** The same, over the rationals: [V] is the value [N / D * 2^e] that is
    rounded, and [g] the exponent of the unit in its last place. *)
Lemma nearest_to_Q (s : bool) (N D e : Z) (q : positive) (V : Q) :
  0 <= N -> 0 < D -> N / D = Z.pos q ->
  53 <= Z.pos (digits2_pos q) ->
  -1074 <= e + (Z.pos (digits2_pos q) - 53) ->
  (V * inject_Z D == inject_Z N * Qpower 2 e)%Q ->
  binary_round_aux F64.prec F64.emax s (Z.pos q) e
    (new_location D (N mod D)) = S754_infinity s \/
  exists m' e' g,
    binary_round_aux F64.prec F64.emax s (Z.pos q) e
      (new_location D (N mod D)) = S754_finite s m' e' /\
    Z.pos (digits2_pos m') = 53 /\
    -1074 <= g <= e' /\ e' <= 971 /\
    (Qabs (inject_Z (Z.pos m') * Qpower 2 e' - V) <= Qpower 2 (g - 1))%Q /\
    (Qpower 2 (52 + g) <= V)%Q.
Proof.
  intros HN HD Hq Hd Hemin HV.
  destruct (binary_round_aux_nearest s N D e q HN HD Hq Hd Hemin)
    as [Hinf|(m' & e' & Hr & Hdm & He & Herr)]; [left; exact Hinf|right].
  pose proof (digits2_pos_bounds q) as [Hlo _].
  set (d := Z.pos (digits2_pos q)) in *.
  set (n := d - 53) in *.
  exists m', e', (e + n).
  split; [exact Hr|]. split; [exact Hdm|]. split; [lia|]. split; [lia|].
  pose proof (inject_Z_pos D HD) as HDq.
  pose proof (Qpow2_pos e) as HPe.
  assert (Hn : 0 <= n) by (unfold n; lia).
  split.
  - apply (Qmult_le_r _ _ (inject_Z D) HDq).
    set (Zerr := Z.pos m' * 2 ^ (e' - e) * D - N) in *.
    assert (EX : ((inject_Z (Z.pos m') * Qpower 2 e' - V) * inject_Z D
                  == inject_Z Zerr * Qpower 2 e)%Q).
    { setoid_replace ((inject_Z (Z.pos m') * Qpower 2 e' - V) * inject_Z D)%Q
        with (inject_Z (Z.pos m') * Qpower 2 e' * inject_Z D
              - V * inject_Z D)%Q by ring.
      rewrite HV.
      replace e' with ((e' - e) + e) at 1 by lia.
      rewrite Qpow2_add, (Qpow2_inject (e' - e)) by lia.
      unfold Zerr, Z.sub.
      rewrite inject_Z_plus, inject_Z_opp, !inject_Z_mult. ring. }
    assert (EA : (Qabs (inject_Z (Z.pos m') * Qpower 2 e' - V) * inject_Z D
                  == inject_Z (Z.abs Zerr) * Qpower 2 e)%Q).
    { rewrite <- (Qabs_pos (inject_Z D)) at 1 by (apply Qlt_le_weak; exact HDq).
      rewrite <- Qabs_Qmult, EX, Qabs_Qmult, Qabs_inject.
      rewrite (Qabs_pos (Qpower 2 e)) by (apply Qlt_le_weak; exact HPe).
      reflexivity. }
    rewrite EA.
    replace (e + n - 1) with ((n - 1) + e) by lia.
    rewrite Qpow2_add, Qpow2_half, (Qpow2_inject n) by lia.
    setoid_replace ((1 # 2) * inject_Z (2 ^ n) * Qpower 2 e * inject_Z D)%Q
      with ((1 # 2) * inject_Z (2 ^ n * D) * Qpower 2 e)%Q
      by (rewrite inject_Z_mult; ring).
    apply Qmult_le_compat_r; [|apply Qlt_le_weak; exact HPe].
    assert (HZ : (inject_Z (2 * Z.abs Zerr) <= inject_Z (2 ^ n * D))%Q)
      by (rewrite <- Zle_Qle; exact Herr).
    rewrite inject_Z_mult in HZ. change (inject_Z 2) with 2%Q in HZ.
    set (A := inject_Z (Z.abs Zerr)) in *.
    set (B := inject_Z (2 ^ n * D)) in *. lra.
  - apply (Qmult_le_r _ _ (inject_Z D) HDq). rewrite HV.
    replace (52 + (e + n)) with ((d - 1) + e) by (unfold n; lia).
    rewrite Qpow2_add, (Qpow2_inject (d - 1)) by lia.
    setoid_replace (inject_Z (2 ^ (d - 1)) * Qpower 2 e * inject_Z D)%Q
      with (inject_Z (2 ^ (d - 1) * D) * Qpower 2 e)%Q
      by (rewrite inject_Z_mult; ring).
    apply Qmult_le_compat_r; [|apply Qlt_le_weak; exact HPe].
    rewrite <- Zle_Qle.
    pose proof (Z.mul_div_le N D HD) as Hmd. rewrite Hq in Hmd. nia.
Qed.

Lemma nearest_exact_to_Q (s : bool) (mz : positive) (e : Z) (V : Q) :
  53 <= Z.pos (digits2_pos mz) ->
  -1074 <= e + (Z.pos (digits2_pos mz) - 53) ->
  (V == inject_Z (Z.pos mz) * Qpower 2 e)%Q ->
  binary_round_aux F64.prec F64.emax s (Z.pos mz) e loc_Exact
    = S754_infinity s \/
  exists m' e' g,
    binary_round_aux F64.prec F64.emax s (Z.pos mz) e loc_Exact
      = S754_finite s m' e' /\
    Z.pos (digits2_pos m') = 53 /\
    -1074 <= g <= e' /\ e' <= 971 /\
    (Qabs (inject_Z (Z.pos m') * Qpower 2 e' - V) <= Qpower 2 (g - 1))%Q /\
    (Qpower 2 (52 + g) <= V)%Q.
Proof.
  intros Hd He HV.
  assert (HV1 : (V * inject_Z 1 == inject_Z (Z.pos mz) * Qpower 2 e)%Q).
  { rewrite HV. change (inject_Z 1) with 1%Q. ring. }
  pose proof (nearest_to_Q s (Z.pos mz) 1 e mz V ltac:(lia) ltac:(lia)
                (Z.div_1_r _) Hd He HV1) as H.
  rewrite Z.mod_1_r in H. exact H.
Qed.

(** The float of a positive integer. *)
Lemma binary_round_to_Q (s : bool) (mx : positive) :
  binary_round F64.prec F64.emax s mx 0 = S754_infinity s \/
  exists m' e' g,
    binary_round F64.prec F64.emax s mx 0 = S754_finite s m' e' /\
    Z.pos (digits2_pos m') = 53 /\
    -1074 <= g <= e' /\ e' <= 971 /\
    (Qabs (inject_Z (Z.pos m') * Qpower 2 e' - inject_Z (Z.pos mx))
     <= Qpower 2 (g - 1))%Q /\
    (Qpower 2 (52 + g) <= inject_Z (Z.pos mx))%Q.
Proof.
  pose proof (digits2_pos_bounds mx) as [Hlo Hhi].
  unfold binary_round, shl_align.
  set (d := Z.pos (digits2_pos mx)) in *.
  assert (Hd1 : 1 <= d) by (unfold d; lia).
  assert (Hf : fexp F64.prec F64.emax (d + 0) = d - 53).
  { unfold fexp, emin, F64.prec, F64.emax. lia. }
  rewrite Hf.
  destruct (d - 53 - 0) as [|k|k] eqn:Hk.
  - apply nearest_exact_to_Q; fold d; try lia.
    change (Qpower 2 0) with 1%Q. ring.
  - apply nearest_exact_to_Q; fold d; try lia.
    change (Qpower 2 0) with 1%Q. ring.
  - assert (Hdz : Z.pos (digits2_pos (Pos.iter xO mx k)) = 53).
    { rewrite digits2_iter_xO, Pos2Z.inj_add. fold d. lia. }
    apply nearest_exact_to_Q; rewrite ?Hdz; try lia.
    rewrite iter_xO_value, inject_Z_mult.
    rewrite <- (Qpow2_inject (Z.pos k)) by lia.
    assert (C : (Qpower 2 (Z.pos k) * Qpower 2 (d - 53) == 1)%Q).
    { replace (d - 53) with (- Z.pos k) by lia.
      apply Qpow_cancel. discriminate. }
    transitivity (inject_Z (Z.pos mx)
                  * (Qpower 2 (Z.pos k) * Qpower 2 (d - 53)))%Q; [|ring].
    rewrite C. ring.
Qed.

(** The quotient of two positive integers, as the division core and the
    rounding compute it. *)
Lemma div_core_to_Q (s : bool) (p t : positive) (V : Q) :
  -1074 <= Z.pos (digits2_pos p) - Z.pos (digits2_pos t) - 53 ->
  (V * inject_Z (Z.pos t) == inject_Z (Z.pos p))%Q ->
  (let '(q, e', l) :=
     SFdiv_core_binary F64.prec F64.emax (Z.pos p) 0 (Z.pos t) 0 in
   binary_round_aux F64.prec F64.emax s q e' l) = S754_infinity s \/
  exists m' e' g,
    (let '(q, e', l) :=
       SFdiv_core_binary F64.prec F64.emax (Z.pos p) 0 (Z.pos t) 0 in
     binary_round_aux F64.prec F64.emax s q e' l) = S754_finite s m' e' /\
    Z.pos (digits2_pos m') = 53 /\
    -1074 <= g <= e' /\ e' <= 971 /\
    (Qabs (inject_Z (Z.pos m') * Qpower 2 e' - V) <= Qpower 2 (g - 1))%Q /\
    (Qpower 2 (52 + g) <= V)%Q.
Proof.
  intros Hrange HV.
  pose proof (digits2_pos_bounds p) as [Hlo1 Hhi1].
  pose proof (digits2_pos_bounds t) as [Hlo2 Hhi2].
  unfold SFdiv_core_binary. cbn [Zdigits2].
  set (d1 := Z.pos (digits2_pos p)) in *.
  set (d2 := Z.pos (digits2_pos t)) in *.
  assert (Hd1 : 1 <= d1) by (unfold d1; lia).
  assert (Hd2 : 1 <= d2) by (unfold d2; lia).
  assert (Hf : fexp F64.prec F64.emax (d1 + 0 - (d2 + 0)) = d1 - d2 - 53).
  { unfold fexp, emin, F64.prec, F64.emax. lia. }
  rewrite Hf.
  set (e' := Z.min (d1 - d2 - 53) (0 - 0)).
  assert (He' : -1074 <= e' <= 0) by (unfold e'; lia).
  set (m' := match 0 - 0 - e' with
             | 0 => Z.pos p
             | Z.pos _ => Z.shiftl (Z.pos p) (0 - 0 - e')
             | Z.neg _ => 0
             end).
  assert (Hm' : m' = Z.pos p * 2 ^ (- e')).
  { unfold m'. destruct (0 - 0 - e') as [|j|j] eqn:Ej; try lia.
    - replace (- e') with 0 by lia. rewrite Z.pow_0_r. lia.
    - rewrite Z.shiftl_mul_pow2 by lia. f_equal. f_equal. lia. }
  assert (Hpe : 0 < 2 ^ (- e')) by (apply Z.pow_pos_nonneg; lia).
  assert (Hbig : 2 ^ 52 * Z.pos t <= m').
  { rewrite Hm'.
    assert (H2d2 : 0 < 2 ^ d2) by (apply Z.pow_pos_nonneg; lia).
    assert (Hx : 2 ^ 52 * 2 ^ d2 <= Z.pos p * 2 ^ (- e')).
    { destruct (Z.le_gt_cases 0 (d1 - d2 - 53)) as [Hc|Hc].
      - assert (e' = 0) by (unfold e'; lia).
        replace (- e') with 0 by lia. rewrite Z.pow_0_r, Z.mul_1_r.
        rewrite <- Z.pow_add_r by lia.
        assert (2 ^ (52 + d2) <= 2 ^ (d1 - 1))
          by (apply Z.pow_le_mono_r; lia).
        lia.
      - assert (e' = d1 - d2 - 53) by (unfold e'; lia).
        assert (E : 2 ^ 52 * 2 ^ d2 = 2 ^ (d1 - 1) * 2 ^ (- e')).
        { rewrite <- !Z.pow_add_r by lia. f_equal. lia. }
        rewrite E. apply Z.mul_le_mono_nonneg_r; lia. }
    assert (0 < 2 ^ 52) by (apply Z.pow_pos_nonneg; lia). nia. }
  destruct (Z.div_eucl m' (Z.pos t)) as [q r] eqn:Ediv.
  assert (Hq : q = m' / Z.pos t) by (unfold Z.div; now rewrite Ediv).
  assert (Hr : r = m' mod Z.pos t) by (unfold Z.modulo; now rewrite Ediv).
  assert (Hq52 : 2 ^ 52 <= q).
  { rewrite Hq. apply Z.div_le_lower_bound; lia. }
  assert (H52 : 0 < 2 ^ 52) by (apply Z.pow_pos_nonneg; lia).
  destruct q as [|qq|qq]; try lia.
  pose proof (digits2_pos_bounds qq) as [_ Hqhi].
  assert (Hdq : 53 <= Z.pos (digits2_pos qq)).
  { destruct (Z.le_gt_cases 53 (Z.pos (digits2_pos qq))) as [|Hlt];
      [assumption|].
    assert (2 ^ Z.pos (digits2_pos qq) <= 2 ^ 52)
      by (apply Z.pow_le_mono_r; lia).
    lia. }
  subst r.
  apply (nearest_to_Q s m' (Z.pos t) e' qq V); try lia.
  rewrite HV, Hm', inject_Z_mult.
  rewrite <- (Qpow2_inject (- e')) by lia.
  assert (C : (Qpower 2 (- e') * Qpower 2 e' == 1)%Q).
  { replace e' with (- - e') at 2 by lia. apply Qpow_cancel. discriminate. }
  setoid_replace (inject_Z (Z.pos p) * Qpower 2 (- e') * Qpower 2 e')%Q
    with (inject_Z (Z.pos p) * (Qpower 2 (- e') * Qpower 2 e'))%Q by ring.
  rewrite C. ring.
Qed.

(** ** The float of a decimal literal

    [float(s)] for a literal [m * 10^e] of magnitude at least [2^-1000]
    is infinite or a normal float within half a unit in the last place
    of the literal's value. *)
Lemma of_decimal_nearest (neg : bool) (p : positive) (e : Z) :
  (Qpower 2 (-1000) <= inject_Z (Z.pos p) * Qpower 10 e)%Q ->
  F64.of_decimal neg (Z.pos p) e = S754_infinity neg \/
  exists m' e' g,
    F64.of_decimal neg (Z.pos p) e = S754_finite neg m' e' /\
    Z.pos (digits2_pos m') = 53 /\
    -1074 <= g <= e' /\ e' <= 971 /\
    (Qabs (inject_Z (Z.pos m') * Qpower 2 e'
           - inject_Z (Z.pos p) * Qpower 10 e) <= Qpower 2 (g - 1))%Q /\
    (Qpower 2 (52 + g) <= inject_Z (Z.pos p) * Qpower 10 e)%Q.
Proof.
  intros Hlow. unfold F64.of_decimal. destruct e as [|k|k].
  - assert (E : (inject_Z (Z.pos p) * Qpower 10 0 == inject_Z (Z.pos p))%Q)
      by (change (Qpower 10 0) with 1%Q; ring).
    destruct (binary_round_to_Q neg p)
      as [H|(m' & e' & g & H & Hd & Hg & He & Herr & Hlo)];
      [left; exact H|right].
    exists m', e', g. rewrite E. auto 10.
  - assert (E : (inject_Z (Z.pos p) * Qpower 10 (Z.pos k)
                 == inject_Z (Z.pos (p * 10 ^ k)))%Q).
    { rewrite Pos2Z.inj_mul, Pos2Z.inj_pow, inject_Z_mult.
      rewrite (Qpow_inject 10 (Z.pos k)) by lia. reflexivity. }
    destruct (binary_round_to_Q neg (p * 10 ^ k))
      as [H|(m' & e' & g & H & Hd & Hg & He & Herr & Hlo)];
      [left; exact H|right].
    exists m', e', g. rewrite E. auto 10.
  - set (V := (inject_Z (Z.pos p) * Qpower 10 (Z.neg k))%Q) in *.
    assert (Ht : (inject_Z (Z.pos (10 ^ k)) == Qpower 10 (Z.pos k))%Q).
    { rewrite Pos2Z.inj_pow. apply (Qpow_inject 10 (Z.pos k)). lia. }
    assert (HV : (V * inject_Z (Z.pos (10 ^ k)) == inject_Z (Z.pos p))%Q).
    { unfold V. rewrite Ht.
      assert (C : (Qpower 10 (Z.pos k) * Qpower 10 (- Z.pos k) == 1)%Q)
        by (apply Qpow_cancel; discriminate).
      change (- Z.pos k) with (Z.neg k) in C.
      setoid_replace (inject_Z (Z.pos p) * Qpower 10 (Z.neg k)
                      * Qpower 10 (Z.pos k))%Q
        with (inject_Z (Z.pos p)
              * (Qpower 10 (Z.pos k) * Qpower 10 (Z.neg k)))%Q by ring.
      rewrite C. ring. }
    apply div_core_to_Q; [|exact HV].
    pose proof (digits2_pos_bounds p) as [_ Hhi1].
    pose proof (digits2_pos_bounds (10 ^ k)) as [Hlo2 _].
    set (d1 := Z.pos (digits2_pos p)) in *.
    set (d2 := Z.pos (digits2_pos (10 ^ k))) in *.
    assert (Hd1 : 1 <= d1) by (unfold d1; lia).
    assert (Hd2 : 1 <= d2) by (unfold d2; lia).
    assert (HZ : Z.pos (10 ^ k) <= Z.pos p * 2 ^ 1000).
    { rewrite Zle_Qle, inject_Z_mult.
      rewrite <- (Qpow2_inject 1000) by lia.
      assert (Hc : (Qpower 2 (-1000) * inject_Z (Z.pos (10 ^ k))
                    <= V * inject_Z (Z.pos (10 ^ k)))%Q).
      { apply Qmult_le_compat_r; [exact Hlow|].
        apply inject_Z_nonneg. lia. }
      rewrite HV in Hc.
      assert (C2 : (Qpower 2 1000 * Qpower 2 (-1000) == 1)%Q)
        by (apply (Qpow_cancel 2 1000); discriminate).
      assert (Hm : (Qpower 2 (-1000) * inject_Z (Z.pos (10 ^ k))
                    * Qpower 2 1000
                    <= inject_Z (Z.pos p) * Qpower 2 1000)%Q).
      { apply Qmult_le_compat_r; [exact Hc|].
        apply Qlt_le_weak, Qpow2_pos. }
      setoid_replace (Qpower 2 (-1000) * inject_Z (Z.pos (10 ^ k))
                      * Qpower 2 1000)%Q
        with (inject_Z (Z.pos (10 ^ k))
              * (Qpower 2 1000 * Qpower 2 (-1000)))%Q in Hm by ring.
      rewrite C2, Qmult_1_r in Hm. exact Hm. }
    destruct (Z.le_gt_cases (-1074) (d1 - d2 - 53)) as [|Hbad];
      [assumption|exfalso].
    assert (Hp1 : 0 < 2 ^ 1000) by (apply Z.pow_pos_nonneg; lia).
    assert (H1 : Z.pos (10 ^ k) < 2 ^ d1 * 2 ^ 1000) by nia.
    rewrite <- Z.pow_add_r in H1 by lia.
    assert (H2 : 2 ^ (d1 + 1000) <= 2 ^ (d2 - 1))
      by (apply Z.pow_le_mono_r; lia).
    lia.
Qed.

(** Half a unit in the last place is at most [2^-53] of the value. *)
Lemma half_ulp_relative (g : Z) (V X : Q) :
  (Qabs X <= Qpower 2 (g - 1))%Q -> (Qpower 2 (52 + g) <= V)%Q ->
  (Qabs X <= Qpower 2 (-53) * V)%Q.
Proof.
  intros HX HV. eapply Qle_trans; [exact HX|].
  replace (g - 1) with (-53 + (52 + g)) by lia. rewrite Qpow2_add.
  rewrite !(Qmult_comm (Qpower 2 (-53))).
  apply Qmult_le_compat_r; [exact HV|]. apply Qlt_le_weak, Qpow2_pos.
Qed.

(** ** [str(x)]: the shortest digits are close to the float *)

Lemma Qpow10_pos (n : Z) : (0 < Qpower 10 n)%Q.
Proof. apply Qpower_0_lt. reflexivity. Qed.

Lemma Qpow10_add (a b : Z) :
  (Qpower 10 (a + b) == Qpower 10 a * Qpower 10 b)%Q.
Proof. apply Qpower_plus. discriminate. Qed.

Lemma Qpow10_inject (n : Z) :
  0 <= n -> (Qpower 10 n == inject_Z (10 ^ n))%Q.
Proof. intros Hn. symmetry. apply (Zpower_Qpower 10 n Hn). Qed.

(** Moving a power of ten across an inequality. *)
Lemma Qpow10_shift_le (x y : Q) (n : Z) :
  (x <= y * Qpower 10 n)%Q -> (x * Qpower 10 (- n) <= y)%Q.
Proof.
  intros H.
  assert (C : (Qpower 10 n * Qpower 10 (- n) == 1)%Q)
    by (apply Qpow_cancel; discriminate).
  setoid_replace y with (y * Qpower 10 n * Qpower 10 (- n))%Q.
  - apply Qmult_le_compat_r; [exact H|]. apply Qlt_le_weak, Qpow10_pos.
  - setoid_replace (y * Qpower 10 n * Qpower 10 (- n))%Q
      with (y * (Qpower 10 n * Qpower 10 (- n)))%Q by ring.
    rewrite C. ring.
Qed.

Lemma Qpow10_shift_lt (x y : Q) (n : Z) :
  (x < y * Qpower 10 n)%Q -> (x * Qpower 10 (- n) < y)%Q.
Proof.
  intros H.
  assert (C : (Qpower 10 n * Qpower 10 (- n) == 1)%Q)
    by (apply Qpow_cancel; discriminate).
  setoid_replace y with (y * Qpower 10 n * Qpower 10 (- n))%Q.
  - apply Qmult_lt_compat_r; [apply Qpow10_pos | exact H].
  - setoid_replace (y * Qpower 10 n * Qpower 10 (- n))%Q
      with (y * (Qpower 10 n * Qpower 10 (- n)))%Q by ring.
    rewrite C. ring.
Qed.

(** [floor_log10 num den] is the decimal exponent of [num / den]. *)
Lemma floor_log10_spec (num den : Z) :
  0 < num -> 0 < den ->
  (Qpower 10 (Repr.floor_log10 num den) * inject_Z den <= inject_Z num)%Q /\
  (inject_Z num < Qpower 10 (Repr.floor_log10 num den + 1) * inject_Z den)%Q.
Proof.
  intros Hn Hd. unfold Repr.floor_log10.
  destruct (Z.leb_spec den num) as [Hle|Hgt].
  - (* num / den >= 1 *)
    assert (Hq : 0 < num / den) by (apply Z.div_str_pos; lia).
    destruct (digits_spec _ Hq) as [[Hlo Hhi] Hd1].
    set (D0 := Dec.digits (num / den)) in *.
    pose proof (Z.mul_div_le num den Hd) as H1.
    pose proof (Z.mul_succ_div_gt num den Hd) as H2.
    split.
    + rewrite (Qpow10_inject (D0 - 1)) by lia.
      rewrite <- inject_Z_mult, <- Zle_Qle. nia.
    + replace (D0 - 1 + 1) with D0 by lia.
      rewrite (Qpow10_inject D0) by lia.
      rewrite <- inject_Z_mult, <- Zlt_Qlt. nia.
  - (* num / den < 1 *)
    assert (Hq : 0 < den / num) by (apply Z.div_str_pos; lia).
    destruct (digits_spec _ Hq) as [[Hlo Hhi] Hd1].
    set (d := Dec.digits (den / num)) in *.
    pose proof (Z.mul_div_le den num Hn) as H1.
    pose proof (Z.mul_succ_div_gt den num Hn) as H2.
    assert (Hneg : forall a : Z,
               0 <= a -> den <= num * 10 ^ a ->
               (Qpower 10 (- a) * inject_Z den <= inject_Z num)%Q).
    { intros a Ha Hz. rewrite Qmult_comm. apply Qpow10_shift_le.
      rewrite (Qpow10_inject a), <- inject_Z_mult, <- Zle_Qle by lia.
      exact Hz. }
    assert (Hneg' : forall a : Z,
               0 <= a -> num * 10 ^ a < den ->
               (inject_Z num < Qpower 10 (- a) * inject_Z den)%Q).
    { intros a Ha Hz.
      assert (Hs : (inject_Z num * Qpower 10 (- - a) < inject_Z den)%Q).
      { replace (- - a) with a by lia.
        rewrite (Qpow10_inject a), <- inject_Z_mult, <- Zlt_Qlt by lia.
        exact Hz. }
      pose proof (Qpow10_shift_lt (inject_Z num * Qpower 10 (- - a))
                    (Qpower 10 (- a) * inject_Z den) a) as Hx.
      assert (C : (Qpower 10 a * Qpower 10 (- a) == 1)%Q)
        by (apply Qpow_cancel; discriminate).
      replace (- - a) with a in * by lia.
      setoid_replace (inject_Z num * Qpower 10 a * Qpower 10 (- a))%Q
        with (inject_Z num * (Qpower 10 a * Qpower 10 (- a)))%Q in Hx by ring.
      rewrite C, Qmult_1_r in Hx. apply Hx.
      setoid_replace (Qpower 10 (- a) * inject_Z den * Qpower 10 a)%Q
        with (inject_Z den * (Qpower 10 a * Qpower 10 (- a)))%Q by ring.
      rewrite C, Qmult_1_r. exact Hs. }
    assert (Hp1 : 0 < 10 ^ (d - 1)) by (apply Z.pow_pos_nonneg; lia).
    assert (Hsucc : 10 ^ d = 10 * 10 ^ (d - 1)).
    { replace d with (d - 1 + 1) at 1 by lia.
      rewrite Z.pow_add_r by lia. change (10 ^ 1) with 10. lia. }
    destruct (Z.leb_spec den (num * 10 ^ (d - 1))) as [Hc|Hc].
    + assert (Hd2 : 2 <= d).
      { destruct (Z.eq_dec d 1) as [E1|]; [|lia].
        rewrite E1 in Hc. change (10 ^ (1 - 1)) with 1 in Hc. lia. }
      split.
      * apply Hneg; [lia | exact Hc].
      * replace (- (d - 1) + 1) with (- (d - 2)) by lia.
        apply Hneg'; [lia|].
        assert (Hsucc2 : 10 ^ (d - 1) = 10 * 10 ^ (d - 2)).
        { replace (d - 1) with (d - 2 + 1) at 1 by lia.
          rewrite Z.pow_add_r by lia. change (10 ^ 1) with 10. lia. }
        assert (0 < 10 ^ (d - 2)) by (apply Z.pow_pos_nonneg; lia).
        nia.
    + split.
      * apply Hneg; [lia|]. nia.
      * replace (- d + 1) with (- (d - 1)) by lia.
        apply Hneg'; [lia | exact Hc].
Qed.

(** The ratio that [try_digits] and [shortest] divide: with
    [E = floor_log10 + 1 - j] it is [X / 10^E] and has [j] digits. *)
Lemma scaled_ratio (num den j : Z) (X : Q) :
  0 < num -> 0 < den -> 1 <= j ->
  (X * inject_Z den == inject_Z num)%Q ->
  let E := Repr.floor_log10 num den + 1 - j in
  let n' := if 0 <=? E then num else num * 10 ^ (- E) in
  let d' := if 0 <=? E then den * 10 ^ E else den in
  0 < d' /\ d' * 10 ^ (j - 1) <= n' < d' * 10 ^ j /\
  (inject_Z n' * Qpower 10 E == X * inject_Z d')%Q /\
  (Qpower 10 (E + j - 1) <= X)%Q.
Proof.
  intros Hn Hd Hj HX. cbv zeta.
  destruct (floor_log10_spec num den Hn Hd) as [Hlo Hhi].
  set (f := Repr.floor_log10 num den) in *.
  set (E := f + 1 - j).
  pose proof (inject_Z_pos den Hd) as Hdq.
  assert (HXlo : (Qpower 10 f <= X)%Q).
  { apply (Qmult_le_r _ _ (inject_Z den) Hdq). now rewrite HX. }
  assert (HXhi : (X < Qpower 10 (f + 1))%Q).
  { apply (Qmult_lt_r _ _ (inject_Z den) Hdq). now rewrite HX. }
  set (n' := if 0 <=? E then num else num * 10 ^ (- E)).
  set (d' := if 0 <=? E then den * 10 ^ E else den).
  assert (Hd' : 0 < d').
  { unfold d'. destruct (Z.leb_spec 0 E); [|assumption].
    apply Z.mul_pos_pos; [assumption|]. apply Z.pow_pos_nonneg; lia. }
  assert (Hrel : (inject_Z n' * Qpower 10 E == X * inject_Z d')%Q).
  { unfold n', d'. destruct (Z.leb_spec 0 E) as [HE|HE].
    - rewrite inject_Z_mult, <- (Qpow10_inject E), <- HX by lia. ring.
    - rewrite inject_Z_mult, <- (Qpow10_inject (- E)), <- HX by lia.
      assert (C : (Qpower 10 (- E) * Qpower 10 E == 1)%Q).
      { replace E with (- - E) at 2 by lia.
        apply Qpow_cancel. discriminate. }
      setoid_replace (X * inject_Z den * Qpower 10 (- E) * Qpower 10 E)%Q
        with (X * inject_Z den * (Qpower 10 (- E) * Qpower 10 E))%Q by ring.
      rewrite C. ring. }
  pose proof (inject_Z_pos d' Hd') as Hd'q.
  pose proof (Qpow10_pos E) as HPE.
  split; [exact Hd'|]. split; [|split; [exact Hrel|]].
  - (* the ratio has j digits *)
    split.
    + rewrite Zle_Qle, inject_Z_mult.
      rewrite <- (Qpow10_inject (j - 1)) by lia.
      apply (Qmult_le_r _ _ (Qpower 10 E) HPE). rewrite Hrel.
      setoid_replace (inject_Z d' * Qpower 10 (j - 1) * Qpower 10 E)%Q
        with (Qpower 10 (j - 1) * Qpower 10 E * inject_Z d')%Q by ring.
      rewrite <- Qpow10_add. replace (j - 1 + E) with f by (unfold E; lia).
      apply Qmult_le_compat_r; [exact HXlo|].
      apply Qlt_le_weak; exact Hd'q.
    + rewrite Zlt_Qlt, inject_Z_mult.
      rewrite <- (Qpow10_inject j) by lia.
      apply (Qmult_lt_r _ _ (Qpower 10 E) HPE). rewrite Hrel.
      setoid_replace (inject_Z d' * Qpower 10 j * Qpower 10 E)%Q
        with (Qpower 10 j * Qpower 10 E * inject_Z d')%Q by ring.
      rewrite <- Qpow10_add. replace (j + E) with (f + 1) by (unfold E; lia).
      apply Qmult_lt_compat_r; [exact Hd'q | exact HXhi].
  - replace (E + j - 1) with f by (unfold E; lia). exact HXlo.
Qed.

Lemma float_eqb_eq (x y : F64.float) :
  Repr.float_eqb x y = true -> x = y.
Proof.
  destruct x as [s|s| |s m e]; destruct y as [t|t| |t m' e'];
    cbn [Repr.float_eqb]; try discriminate; intros H.
  - apply Bool.eqb_prop in H. now subst.
  - apply Bool.eqb_prop in H. now subst.
  - reflexivity.
  - apply andb_true_iff in H. destruct H as [H He].
    apply andb_true_iff in H. destruct H as [Hs Hm].
    apply Bool.eqb_prop in Hs. apply Pos.eqb_eq in Hm.
    apply Z.eqb_eq in He. now subst.
Qed.

(** A decimal that reads back as a float is close to it. *)
Lemma reads_back_close (s : bool) (m : positive) (e c E : Z) :
  1 <= c ->
  (Qpower 2 (-1000) <= inject_Z c * Qpower 10 E)%Q ->
  F64.of_decimal s c E = S754_finite s m e ->
  (Qabs (inject_Z c * Qpower 10 E - inject_Z (Z.pos m) * Qpower 2 e)
   <= Qpower 2 (-52) * (inject_Z (Z.pos m) * Qpower 2 e))%Q.
Proof.
  intros Hc Hlow Hrb. destruct c as [|p|p]; try lia.
  destruct (of_decimal_nearest s p E Hlow)
    as [Hinf|(m' & e' & g & Hf & _ & _ & _ & Herr & Hlo)];
    [congruence|].
  rewrite Hrb in Hf. injection Hf as <- <-.
  pose proof (half_ulp_relative g _ _ Herr Hlo) as Hrel.
  set (C := (inject_Z (Z.pos p) * Qpower 10 E)%Q) in *.
  set (X := (inject_Z (Z.pos m) * Qpower 2 e)%Q) in *.
  change (Qpower 2 (-53)) with (1 # 9007199254740992)%Q in Hrel.
  change (Qpower 2 (-52)) with (1 # 4503599627370496)%Q.
  assert (Hsym : (Qabs (C - X) == Qabs (X - C))%Q).
  { setoid_replace (C - X)%Q with (- (X - C))%Q by ring. apply Qabs_opp. }
  rewrite Hsym.
  pose proof (Qle_Qabs (C - X)) as H1. rewrite Hsym in H1.
  set (A := Qabs (X - C)) in *.
  lra.
Qed.

Lemma Qmult_cancel_r (a b d : Q) :
  (0 < d)%Q -> (a * d == b * d)%Q -> (a == b)%Q.
Proof.
  intros Hd H. apply Qle_antisym; apply (Qmult_le_r _ _ d Hd);
    rewrite H; apply Qle_refl.
Qed.

(** A candidate [c] for the digits of [X = n' / d' * 10^E]: the distance
    of [c * 10^E] from [X], through the integers. *)
Lemma candidate_distance (c n' d' E : Z) (X : Q) :
  0 < d' ->
  (inject_Z n' * Qpower 10 E == X * inject_Z d')%Q ->
  (Qabs (inject_Z c * Qpower 10 E - X) * inject_Z d'
   == inject_Z (Z.abs (c * d' - n')) * Qpower 10 E)%Q.
Proof.
  intros Hd' Hrel. pose proof (inject_Z_pos d' Hd') as Hq.
  rewrite <- (Qabs_pos (inject_Z d')) at 1 by (apply Qlt_le_weak; exact Hq).
  rewrite <- Qabs_Qmult.
  setoid_replace ((inject_Z c * Qpower 10 E - X) * inject_Z d')%Q
    with (inject_Z c * inject_Z d' * Qpower 10 E - X * inject_Z d')%Q
    by ring.
  rewrite <- Hrel.
  setoid_replace (inject_Z c * inject_Z d' * Qpower 10 E
                  - inject_Z n' * Qpower 10 E)%Q
    with (inject_Z (c * d' - n') * Qpower 10 E)%Q
    by (unfold Z.sub; rewrite inject_Z_plus, inject_Z_opp, inject_Z_mult;
        ring).
  rewrite Qabs_Qmult, Qabs_inject.
  rewrite (Qabs_pos (Qpower 10 E)) by (apply Qlt_le_weak, Qpow10_pos).
  reflexivity.
Qed.

(** What [try_digits] returns has at most [j] digits and is within a
    relative [2^-52] of the float. *)
Lemma try_digits_spec (s : bool) (m : positive) (e num den j c E : Z) :
  0 < num -> 0 < den -> 1 <= j ->
  (inject_Z (Z.pos m) * Qpower 2 e * inject_Z den == inject_Z num)%Q ->
  (Qpower 2 (-999) <= inject_Z (Z.pos m) * Qpower 2 e)%Q ->
  Repr.try_digits (S754_finite s m e) s num den j = Some (c, E) ->
  1 <= c <= 10 ^ j /\
  (Qabs (inject_Z c * Qpower 10 E - inject_Z (Z.pos m) * Qpower 2 e)
   <= Qpower 2 (-52) * (inject_Z (Z.pos m) * Qpower 2 e))%Q.
Proof.
  intros Hn Hd Hj HX Hlow.
  set (X := (inject_Z (Z.pos m) * Qpower 2 e)%Q) in *.
  destruct (scaled_ratio num den j X Hn Hd Hj HX)
    as (Hd' & [Hnlo Hnhi] & Hrel & _).
  unfold Repr.try_digits.
  set (E0 := Repr.floor_log10 num den + 1 - j) in *.
  set (n' := if 0 <=? E0 then num else num * 10 ^ (- E0)) in *.
  set (d' := if 0 <=? E0 then den * 10 ^ E0 else den) in *.
  set (lo := n' / d').
  assert (Hp1 : 0 < 10 ^ (j - 1)) by (apply Z.pow_pos_nonneg; lia).
  assert (Hlo1 : 10 ^ (j - 1) <= lo)
    by (apply Z.div_le_lower_bound; lia).
  assert (Hlo2 : lo < 10 ^ j) by (apply Z.div_lt_upper_bound; lia).
  pose proof (Z.mul_div_le n' d' Hd') as Hm1.
  pose proof (Z.mul_succ_div_gt n' d' Hd') as Hm2.
  fold lo in Hm1, Hm2.
  pose proof (inject_Z_pos d' Hd') as Hd'q.
  pose proof (Qpow10_pos E0) as HPE.
  assert (HXpos : (0 < X)%Q).
  { eapply Qlt_le_trans; [apply (Qpow2_pos (-999))|exact Hlow]. }
  (* a candidate that reads back as the float *)
  assert (Hread : forall c0,
             lo <= c0 <= lo + 1 ->
             Repr.float_eqb (F64.of_decimal s c0 E0) (S754_finite s m e)
             = true ->
             1 <= c0 <= 10 ^ j /\
             (Qabs (inject_Z c0 * Qpower 10 E0 - X)
              <= Qpower 2 (-52) * X)%Q).
  { intros c0 Hc0 Hok. apply float_eqb_eq in Hok.
    split; [lia|].
    apply (reads_back_close s m e c0 E0); [lia| |exact Hok].
    assert (Hhalf : (X <= 2 * (inject_Z c0 * Qpower 10 E0))%Q).
    { apply (Qmult_le_r _ _ (inject_Z d') Hd'q). rewrite <- Hrel.
      setoid_replace (2 * (inject_Z c0 * Qpower 10 E0) * inject_Z d')%Q
        with (inject_Z (2 * c0 * d') * Qpower 10 E0)%Q
        by (rewrite !inject_Z_mult; change (inject_Z 2) with 2%Q; ring).
      apply Qmult_le_compat_r; [|apply Qlt_le_weak; exact HPE].
      rewrite <- Zle_Qle. nia. }
    pose proof (Qpow2_half (-999)) as Hh.
    change (-999 - 1) with (-1000) in Hh.
    set (T := Qpower 2 (-1000)) in *. set (T' := Qpower 2 (-999)) in *.
    set (C := (inject_Z c0 * Qpower 10 E0)%Q) in *.
    lra. }
  destruct (Z.eqb_spec (n' mod d') 0) as [Hr0|Hr0].
  - (* the digits are exact *)
    intros H. injection H as <- <-. split; [lia|].
    assert (Hex : n' = lo * d').
    { pose proof (Z.div_mod n' d' ltac:(lia)). fold lo in H. lia. }
    assert (EC : (inject_Z lo * Qpower 10 E0 == X)%Q).
    { apply (Qmult_cancel_r _ _ (inject_Z d') Hd'q). rewrite <- Hrel, Hex.
      rewrite inject_Z_mult. ring. }
    rewrite EC.
    setoid_replace (X - X)%Q with 0%Q by ring. change (Qabs 0) with 0%Q.
    apply Qmult_le_0_compat; [apply Qlt_le_weak, Qpow2_pos|].
    apply Qlt_le_weak; exact HXpos.
  - destruct (Repr.float_eqb (F64.of_decimal s lo E0) (S754_finite s m e))
      eqn:Ok1;
    destruct (Repr.float_eqb (F64.of_decimal s (lo + 1) E0)
                (S754_finite s m e)) eqn:Ok2;
      try discriminate.
    + destruct (2 * (n' mod d') ?= d');
        [destruct (Z.even lo)| |];
        intros H; injection H as <- <-;
        first [apply (Hread lo); [lia|exact Ok1]
              |apply (Hread (lo + 1)); [lia|exact Ok2]].
    + intros H. injection H as <- <-. apply (Hread lo); [lia|exact Ok1].
    + intros H. injection H as <- <-.
      apply (Hread (lo + 1)); [lia|exact Ok2].
Qed.

Lemma seventeen_digits_suffice :
  ((1 # 2) * Qpower 10 (-16) <= Qpower 2 (-52))%Q.
Proof. apply Qle_bool_imp_le. vm_compute. reflexivity. Qed.

(** The digits [shortest] settles on, found by [try_digits] or the 17
    correctly rounded ones, are within a relative [2^-52] of the float. *)
Lemma shortest_spec (s : bool) (m : positive) (e num den : Z) :
  0 < num -> 0 < den ->
  (inject_Z (Z.pos m) * Qpower 2 e * inject_Z den == inject_Z num)%Q ->
  (Qpower 2 (-999) <= inject_Z (Z.pos m) * Qpower 2 e)%Q ->
  forall (fuel : nat) (j c E : Z),
    1 <= j -> 17 <= j + Z.of_nat fuel ->
    Repr.shortest fuel (S754_finite s m e) s num den j = (c, E) ->
    1 <= c <= 10 ^ (j + Z.of_nat fuel) /\
    (Qabs (inject_Z c * Qpower 10 E - inject_Z (Z.pos m) * Qpower 2 e)
     <= Qpower 2 (-52) * (inject_Z (Z.pos m) * Qpower 2 e))%Q.
Proof.
  intros Hn Hd HX Hlow. induction fuel as [|f IH]; intros j c E Hj H17.
  - cbn [Repr.shortest]. rewrite Z.add_0_r in *.
    set (X := (inject_Z (Z.pos m) * Qpower 2 e)%Q) in *.
    destruct (scaled_ratio num den j X Hn Hd Hj HX)
      as (Hd' & [Hnlo Hnhi] & Hrel & HXE).
    set (E0 := Repr.floor_log10 num den + 1 - j) in *.
    set (n' := if 0 <=? E0 then num else num * 10 ^ (- E0)) in *.
    set (d' := if 0 <=? E0 then den * 10 ^ E0 else den) in *.
    intros H. injection H as <- <-.
    pose proof (div_half_even_bounds n' d' Hd') as [Hb1 Hb2].
    pose proof (div_half_even_error n' d' Hd') as Herr.
    set (c := Dec.div_half_even n' d') in *.
    assert (Hp1 : 0 < 10 ^ (j - 1)) by (apply Z.pow_pos_nonneg; lia).
    assert (Hlo1 : 10 ^ (j - 1) <= n' / d')
      by (apply Z.div_le_lower_bound; lia).
    assert (Hlo2 : n' / d' < 10 ^ j) by (apply Z.div_lt_upper_bound; lia).
    split; [lia|].
    pose proof (inject_Z_pos d' Hd') as Hd'q.
    pose proof (Qpow10_pos E0) as HPE.
    pose proof (candidate_distance c n' d' E0 X Hd' Hrel) as Hdist.
    (* the distance is at most half a unit of the last digit *)
    assert (Hhalf : (Qabs (inject_Z c * Qpower 10 E0 - X)
                     <= (1 # 2) * Qpower 10 E0)%Q).
    { apply (Qmult_le_r _ _ (inject_Z d') Hd'q). rewrite Hdist.
      setoid_replace ((1 # 2) * Qpower 10 E0 * inject_Z d')%Q
        with ((1 # 2) * inject_Z d' * Qpower 10 E0)%Q by ring.
      apply Qmult_le_compat_r; [|apply Qlt_le_weak; exact HPE].
      apply (Qmult_le_l _ _ 2); [reflexivity|].
      setoid_replace (2 * ((1 # 2) * inject_Z d'))%Q with (inject_Z d')
        by ring.
      change 2%Q with (inject_Z 2). rewrite <- inject_Z_mult.
      rewrite <- Zle_Qle. exact Herr. }
    (* and a unit of the last digit is at most [10^-16] of the value *)
    assert (Hunit : (Qpower 10 E0 <= Qpower 10 (-16) * X)%Q).
    { assert (Es : (Qpower 10 E0
                    == Qpower 10 (1 - j) * Qpower 10 (E0 + j - 1))%Q).
      { rewrite <- Qpower_plus by discriminate.
        replace (1 - j + (E0 + j - 1)) with E0 by lia. reflexivity. }
      rewrite Es.
      apply Qle_trans with (Qpower 10 (-16) * Qpower 10 (E0 + j - 1))%Q.
      - apply Qmult_le_compat_r;
          [|apply Qlt_le_weak, Qpow10_pos].
        apply Qpower_le_compat_l; [lia|discriminate].
      - apply Qmult_le_l; [apply Qpow10_pos|exact HXE]. }
    pose proof seventeen_digits_suffice as H17d.
    assert (HXpos : (0 < X)%Q).
    { eapply Qlt_le_trans; [apply (Qpow2_pos (-999))|exact Hlow]. }
    set (A := Qabs (inject_Z c * Qpower 10 E0 - X)) in *.
    set (U := Qpower 10 E0) in *.
    set (T16 := Qpower 10 (-16)) in *. set (T52 := Qpower 2 (-52)) in *.
    assert (H1 : ((1 # 2) * U <= (1 # 2) * T16 * X)%Q) by lra.
    assert (H2 : ((1 # 2) * T16 * X <= T52 * X)%Q).
    { apply Qmult_le_compat_r; [exact H17d|lra]. }
    lra.
  - cbn [Repr.shortest].
    destruct (Repr.try_digits (S754_finite s m e) s num den j)
      as [[c0 E0]|] eqn:Et.
    + intros H. injection H as <- <-.
      destruct (try_digits_spec s m e num den j c0 E0 Hn Hd Hj HX Hlow Et)
        as [[Hc1 Hc2] Hb].
      split; [|exact Hb]. split; [exact Hc1|].
      apply Z.le_trans with (10 ^ j); [exact Hc2|].
      apply Z.pow_le_mono_r; lia.
    + intros H.
      replace (j + Z.of_nat (S f)) with (j + 1 + Z.of_nat f) by lia.
      apply IH; [lia|lia|exact H].
Qed.

(** [Decimal(str(x))] for a finite float [x] of magnitude at least
    [2^-999]: at most 17 digits, within a relative [2^-52] of [x]. *)
Lemma to_decimal_accuracy (s : bool) (m : positive) (e : Z) :
  (Qpower 2 (-999) <= inject_Z (Z.pos m) * Qpower 2 e)%Q ->
  exists c E,
    Repr.to_decimal (S754_finite s m e) = Dec.DFinite s c E /\
    1 <= c <= 10 ^ 17 /\
    (Qabs (inject_Z c * Qpower 10 E - inject_Z (Z.pos m) * Qpower 2 e)
     <= Qpower 2 (-52) * (inject_Z (Z.pos m) * Qpower 2 e))%Q.
Proof.
  intros Hlow. unfold Repr.to_decimal.
  set (num := if 0 <=? e then Z.pos m * 2 ^ e else Z.pos m).
  set (den := if 0 <=? e then 1 else 2 ^ (- e)).
  assert (Hn : 0 < num).
  { unfold num. destruct (Z.leb_spec 0 e); [|lia].
    apply Z.mul_pos_pos; [lia|]. apply Z.pow_pos_nonneg; lia. }
  assert (Hd : 0 < den).
  { unfold den. destruct (Z.leb_spec 0 e); [lia|].
    apply Z.pow_pos_nonneg; lia. }
  assert (HX : (inject_Z (Z.pos m) * Qpower 2 e * inject_Z den
                == inject_Z num)%Q).
  { unfold num, den. destruct (Z.leb_spec 0 e) as [He|He].
    - rewrite inject_Z_mult, <- (Qpow2_inject e) by lia.
      change (inject_Z 1) with 1%Q. ring.
    - rewrite <- (Qpow2_inject (- e)) by lia.
      assert (C : (Qpower 2 e * Qpower 2 (- e) == 1)%Q)
        by (apply Qpow_cancel; discriminate).
      setoid_replace (inject_Z (Z.pos m) * Qpower 2 e * Qpower 2 (- e))%Q
        with (inject_Z (Z.pos m) * (Qpower 2 e * Qpower 2 (- e)))%Q by ring.
      rewrite C. ring. }
  destruct (Repr.shortest 16 (S754_finite s m e) s num den 1) as [c E] eqn:Es.
  exists c, E. split; [reflexivity|].
  exact (shortest_spec s m e num den Hn Hd HX Hlow 16 1 c E
           ltac:(lia) ltac:(lia) Es).
Qed.

(** *** [Wad.from_number] of a float *)

Lemma div_half_even_multiple (a p : Z) :
  0 < p -> Dec.div_half_even (a * p) p = a.
Proof.
  intros Hp. rewrite div_half_even_exact by (try apply Z.mod_mul; lia).
  apply Z.div_mul. lia.
Qed.

(** With at most 17 digits the context loses nothing of the product with
    [10^18]: the result is the value cut to 18 decimals. *)
Lemma Wad_from_decimal_truncates (s : bool) (c E : Z) (w : Wad) :
  1 <= c <= 10 ^ 17 ->
  Wad_from_number (NDecimal (Dec.DFinite s c E)) = Ok w ->
  exists a,
    wad_value w = (if s then - a else a) /\ 0 <= a /\
    (inject_Z a <= inject_Z c * Qpower 10 (E + 18))%Q /\
    (inject_Z c * Qpower 10 (E + 18) < inject_Z a + 1)%Q.
Proof.
  intros [Hc1 Hc2]. unfold Wad_from_number, Dec.mul. cbn [bind].
  rewrite xorb_false_r.
  assert (H17 : 10 ^ 17 * 10 ^ 18 < 10 ^ 36) by reflexivity.
  assert (H18 : 0 < 10 ^ 18) by reflexivity.
  set (T := 10 ^ 18) in *. set (C := c * T).
  assert (HC : 0 < C) by (unfold C; nia).
  (* the rounding of the context *)
  assert (Hr : exists c' k e',
             Dec.round_context (Dec.DFinite s C (E + 0)) = Dec.DFinite s c' e'
             /\ 0 <= k <= 18 /\ c' = c * 10 ^ (18 - k) /\ e' = E + k).
  { unfold Dec.round_context.
    destruct (Z.leb_spec (Dec.digits C) Dec.context_prec) as [Hd|Hd].
    - exists C, 0, (E + 0). repeat split; lia.
    - assert (Hd36 : Dec.digits C <= 36).
      { apply digits_le_iff; [exact HC|lia|]. unfold C. nia. }
      unfold Dec.context_prec in *.
      set (k := Dec.digits C - 28) in *.
      assert (Hk : 1 <= k <= 8) by lia.
      exists (c * 10 ^ (18 - k)), k, (E + 0 + k).
      repeat split; try lia.
      assert (EC : C = c * 10 ^ (18 - k) * 10 ^ k).
      { unfold C, T. rewrite <- Z.mul_assoc, <- Z.pow_add_r by lia.
        replace (18 - k + k) with 18 by lia. reflexivity. }
      rewrite EC.
      rewrite div_half_even_multiple by (apply Z.pow_pos_nonneg; lia).
      reflexivity. }
  destruct Hr as (c' & k & e' & -> & Hk & Hc' & He').
  intros H. apply bind_Ok in H. destruct H as (v & Hv & H).
  rewrite (Ok_wad_value _ _ H). clear H.
  unfold Dec.to_integral_down in Hv.
  set (a := if 0 <=? e' then c' * 10 ^ e' else c' / 10 ^ (- e')) in *.
  destruct ((a =? 0) || (Dec.digits a <=? 1000)); [|discriminate].
  injection Hv as <-. exists a. split; [reflexivity|].
  assert (Hpk : 0 < 10 ^ (18 - k)) by (apply Z.pow_pos_nonneg; lia).
  assert (Hc'pos : 0 < c') by (subst c'; nia).
  (* the value of the rounded product *)
  assert (EX : (inject_Z c * Qpower 10 (E + 18)
                == inject_Z c' * Qpower 10 e')%Q).
  { subst c' e'. rewrite inject_Z_mult, <- (Qpow10_inject (18 - k)) by lia.
    replace (E + 18) with (18 - k + (E + k)) by lia.
    rewrite Qpow10_add. ring. }
  rewrite EX. unfold a.
  destruct (Z.leb_spec 0 e') as [He0|He0].
  - assert (Hp : 0 < 10 ^ e') by (apply Z.pow_pos_nonneg; lia).
    split; [nia|].
    rewrite inject_Z_mult, <- (Qpow10_inject e') by lia.
    split; [apply Qle_refl|].
    set (V := (inject_Z c' * Qpower 10 e')%Q). lra.
  - set (P := 10 ^ (- e')).
    assert (HP : 0 < P) by (apply Z.pow_pos_nonneg; lia).
    pose proof (Z.mul_div_le c' P HP) as H1.
    pose proof (Z.mul_succ_div_gt c' P HP) as H2.
    pose proof (inject_Z_pos P HP) as HPq.
    assert (EP : (inject_Z c' * Qpower 10 e' * inject_Z P == inject_Z c')%Q).
    { unfold P. rewrite <- (Qpow10_inject (- e')) by lia.
      assert (Cn : (Qpower 10 e' * Qpower 10 (- e') == 1)%Q)
        by (apply Qpow_cancel; discriminate).
      setoid_replace (inject_Z c' * Qpower 10 e' * Qpower 10 (- e'))%Q
        with (inject_Z c' * (Qpower 10 e' * Qpower 10 (- e')))%Q by ring.
      rewrite Cn. ring. }
    split; [apply Z.div_pos; lia|]. split.
    + apply (Qmult_le_r _ _ (inject_Z P) HPq). rewrite EP.
      rewrite <- inject_Z_mult, <- Zle_Qle. lia.
    + apply (Qmult_lt_r _ _ (inject_Z P) HPq). rewrite EP.
      change 1%Q with (inject_Z 1).
      rewrite <- inject_Z_plus, <- inject_Z_mult, <- Zlt_Qlt. lia.
Qed.

(** [Wad.from_number(x)] for a finite float [x] of magnitude at least
    [2^-999]: within a relative [2^-52], for the digits of [str(x)], and
    [10^-18], for the truncation, of [x]. *)
Lemma Wad_from_float_accuracy (s : bool) (m : positive) (e : Z) (w : Wad) :
  (Qpower 2 (-999) <= inject_Z (Z.pos m) * Qpower 2 e)%Q ->
  Wad_from_number (NFloat (S754_finite s m e)) = Ok w ->
  exists a,
    wad_value w = (if s then - a else a) /\ 0 <= a /\
    (Qabs (inject_Z a * Qpower 10 (-18) - inject_Z (Z.pos m) * Qpower 2 e)
     <= Qpower 2 (-52) * (inject_Z (Z.pos m) * Qpower 2 e)
        + Qpower 10 (-18))%Q.
Proof.
  intros Hlow Hw.
  destruct (to_decimal_accuracy s m e Hlow) as (c & E & Hdec & Hc & Herr).
  change (Wad_from_number (NFloat (S754_finite s m e)))
    with (Wad_from_number (NDecimal (Repr.to_decimal (S754_finite s m e))))
    in Hw.
  rewrite Hdec in Hw.
  destruct (Wad_from_decimal_truncates s c E w Hc Hw)
    as (a & Ha & Ha0 & Hlo & Hhi).
  exists a. split; [exact Ha|]. split; [exact Ha0|].
  set (X := (inject_Z (Z.pos m) * Qpower 2 e)%Q) in *.
  set (D := (inject_Z c * Qpower 10 E)%Q) in *.
  assert (ED : (inject_Z c * Qpower 10 (E + 18)
                == D * Qpower 10 18)%Q).
  { unfold D. rewrite Qpow10_add. ring. }
  rewrite ED in Hlo, Hhi.
  pose proof (Qpow10_pos (-18)) as Hu.
  assert (C18 : (Qpower 10 18 * Qpower 10 (-18) == 1)%Q) by reflexivity.
  assert (L1 : (inject_Z a * Qpower 10 (-18) <= D)%Q).
  { apply (Qpow10_shift_le (inject_Z a) D 18). exact Hlo. }
  assert (L2 : (D < inject_Z a * Qpower 10 (-18) + Qpower 10 (-18))%Q).
  { apply (Qmult_lt_r _ _ (Qpower 10 (-18)) Hu) in Hhi.
    setoid_replace (D * Qpower 10 18 * Qpower 10 (-18))%Q
      with (D * (Qpower 10 18 * Qpower 10 (-18)))%Q in Hhi by ring.
    rewrite C18 in Hhi.
    setoid_replace ((inject_Z a + 1) * Qpower 10 (-18))%Q
      with (inject_Z a * Qpower 10 (-18) + Qpower 10 (-18))%Q in Hhi by ring.
    setoid_replace (D * 1)%Q with D in Hhi by ring. exact Hhi. }
  set (W := (inject_Z a * Qpower 10 (-18))%Q) in *.
  set (U := Qpower 10 (-18)) in *.
  set (B := (Qpower 2 (-52) * X)%Q) in *.
  apply Qabs_Qle_condition in Herr. destruct Herr as [He1 He2].
  apply Qabs_Qle_condition. split; lra.
Qed.

(** *** From the wire price to the price of a translated record *)

(** The floats of [10 ** k] for [k] from 0 to 18 are exact. *)
Lemma pow10_float_exact (k : Z) :
  0 <= k <= 18 ->
  exists mk ek,
    float_of_int (10 ^ k) = Ok (S754_finite false mk ek) /\
    Z.pos (digits2_pos mk) = 53 /\ -52 <= ek <= 7 /\
    (inject_Z (Z.pos mk) * Qpower 2 ek == Qpower 10 k)%Q.
Proof.
  intros Hk.
  assert (Hcases : k = 0 \/ k = 1 \/ k = 2 \/ k = 3 \/ k = 4 \/ k = 5 \/
                   k = 6 \/ k = 7 \/ k = 8 \/ k = 9 \/ k = 10 \/ k = 11 \/
                   k = 12 \/ k = 13 \/ k = 14 \/ k = 15 \/ k = 16 \/
                   k = 17 \/ k = 18)
    by lia.
  repeat (destruct Hcases as [->|Hcases]); [..|subst k];
    (eexists; eexists; split; [vm_compute; reflexivity|];
     split; [reflexivity|]; split; [lia|]; vm_compute; reflexivity).
Qed.

(** The product of two normal floats is infinite or within a relative
    [2^-53] of the exact product. *)
Lemma mul_nearest (sx sy : bool) (mx my : positive) (ex ey : Z) :
  Z.pos (digits2_pos mx) = 53 -> Z.pos (digits2_pos my) = 53 ->
  -1074 <= ex -> -52 <= ey ->
  F64.mul (S754_finite sx mx ex) (S754_finite sy my ey)
    = S754_infinity (xorb sx sy) \/
  exists m' e',
    F64.mul (S754_finite sx mx ex) (S754_finite sy my ey)
      = S754_finite (xorb sx sy) m' e' /\
    (Qabs (inject_Z (Z.pos m') * Qpower 2 e'
           - inject_Z (Z.pos mx) * Qpower 2 ex
             * (inject_Z (Z.pos my) * Qpower 2 ey))
     <= Qpower 2 (-53) * (inject_Z (Z.pos mx) * Qpower 2 ex
                          * (inject_Z (Z.pos my) * Qpower 2 ey)))%Q.
Proof.
  intros Hdx Hdy Hex Hey.
  pose proof (digits2_pos_bounds mx) as [Hx1 _].
  pose proof (digits2_pos_bounds my) as [Hy1 _].
  rewrite Hdx in Hx1. rewrite Hdy in Hy1.
  pose proof (digits2_pos_bounds (mx * my)) as [_ Hp2].
  assert (H104 : 2 ^ 104 <= Z.pos (mx * my)).
  { rewrite Pos2Z.inj_mul. change (2 ^ 104) with (2 ^ 52 * 2 ^ 52).
    change (53 - 1) with 52 in *. nia. }
  assert (Hd : 105 <= Z.pos (digits2_pos (mx * my))).
  { destruct (Z.le_gt_cases 105 (Z.pos (digits2_pos (mx * my))))
      as [|Hlt]; [assumption|exfalso].
    assert (2 ^ Z.pos (digits2_pos (mx * my)) <= 2 ^ 104)
      by (apply Z.pow_le_mono_r; lia).
    lia. }
  set (V := (inject_Z (Z.pos mx) * Qpower 2 ex
             * (inject_Z (Z.pos my) * Qpower 2 ey))%Q).
  assert (HV : (V == inject_Z (Z.pos (mx * my)) * Qpower 2 (ex + ey))%Q).
  { unfold V. rewrite Pos2Z.inj_mul, inject_Z_mult, Qpow2_add. ring. }
  unfold F64.mul, SFmul.
  destruct (nearest_exact_to_Q (xorb sx sy) (mx * my) (ex + ey) V
              ltac:(lia) ltac:(lia) HV)
    as [H|(m' & e' & g & H & _ & _ & _ & Herr & Hlo)];
    [left; exact H|right].
  exists m', e'. split; [exact H|].
  exact (half_ulp_relative g V _ Herr Hlo).
Qed.

Lemma Qabs_same_sign (s : bool) (a b : Q) :
  (Qabs ((if s then - a else a) - (if s then - b else b))
   == Qabs (a - b))%Q.
Proof.
  destruct s; [|reflexivity].
  assert (E : (- a - - b == - (a - b))%Q) by ring.
  rewrite E. apply Qabs_opp.
Qed.

Lemma tiny_bounds :
  (Qpower 2 (-1000) <= Qpower 10 (-300))%Q /\
  (4 * Qpower 2 (-999) <= Qpower 10 (-300))%Q.
Proof. split; apply Qle_bool_imp_le; vm_compute; reflexivity. Qed.

(** The price of a translated record against the wire price: the float of
    the literal [p * 10^e], its product with the float of [10^k] and
    [Wad.from_number] of that product together move the value by at most
    a relative [2^-50] and an absolute [10^-18]. *)
Lemma wire_price_accuracy (neg : bool) (p : positive) (e k : Z)
  (scaled : F64.float) (w : Wad) :
  0 <= k <= 18 ->
  (Qpower 10 (-300) <= inject_Z (Z.pos p) * Qpower 10 e)%Q ->
  float_mul (F64.of_decimal neg (Z.pos p) e) (pow10 k) = Ok scaled ->
  Wad_from_number (NFloat scaled) = Ok w ->
  (Qabs (wad_to_Q w
         - Dec.to_Q (Dec.DFinite neg (Z.pos p) e) * Qpower 10 k)
   <= Qpower 2 (-50) * (inject_Z (Z.pos p) * Qpower 10 e * Qpower 10 k)
      + Qpower 10 (-18))%Q.
Proof.
  intros Hk Hlow Hsc Hw.
  destruct tiny_bounds as [Ht1 Ht2].
  set (V := (inject_Z (Z.pos p) * Qpower 10 e)%Q) in *.
  assert (HV1000 : (Qpower 2 (-1000) <= V)%Q)
    by exact (Qle_trans _ _ _ Ht1 Hlow).
  destruct (pow10_float_exact k Hk) as (mk & ek & Hfk & Hdk & Hek & HF).
  remember (F64.of_decimal neg (Z.pos p) e) as pf eqn:Epf.
  unfold pow10 in Hsc.
  replace (0 <=? k) with true in Hsc by (symmetry; apply Z.leb_le; lia).
  cbn [float_mul] in Hsc. rewrite Hfk in Hsc. cbn [bind] in Hsc.
  assert (Hsc' : F64.mul pf (S754_finite false mk ek) = scaled)
    by congruence.
  clear Hsc. rename Hsc' into Hsc.
  pose proof (Wad_from_float_sign _ _ Hw) as Hfin.
  destruct (of_decimal_nearest neg p e HV1000)
    as [Hinf|(m1 & e1 & g & Hpf & Hd1 & Hg & He1 & Herr1 & Hlo1)].
  { rewrite Hinf in Epf. subst pf scaled. contradiction. }
  fold V in Herr1, Hlo1.
  pose proof (half_ulp_relative g V _ Herr1 Hlo1) as Hrel1.
  rewrite Hpf in Epf. subst pf.
  destruct (mul_nearest neg false m1 mk e1 ek Hd1 Hdk ltac:(lia) ltac:(lia))
    as [Hinf|(m2 & e2 & Hmul & Hrel2)].
  { rewrite Hinf in Hsc. subst scaled. contradiction. }
  rewrite Hmul in Hsc. rewrite xorb_false_r in Hsc. subst scaled.
  rewrite HF in Hrel2.
  set (P1 := (inject_Z (Z.pos m1) * Qpower 2 e1)%Q) in *.
  set (F := Qpower 10 k) in *.
  set (S := (inject_Z (Z.pos m2) * Qpower 2 e2)%Q) in *.
  pose proof (Qpow10_pos k) as HFpos. fold F in HFpos.
  assert (HF1 : (1 <= F)%Q).
  { unfold F. change 1%Q with (Qpower 10 0).
    apply Qpower_le_compat_l; [lia|discriminate]. }
  pose proof (Qpow2_pos (-1000)) as H1000.
  pose proof (Qpow2_pos (-999)) as H999.
  assert (HVpos : (0 < V)%Q) by exact (Qlt_le_trans _ _ _ H1000 HV1000).
  change (Qpower 2 (-53)) with (1 # 9007199254740992)%Q in *.
  apply Qabs_Qle_condition in Hrel1. destruct Hrel1 as [Ha1 Ha2].
  apply Qabs_Qle_condition in Hrel2. destruct Hrel2 as [Hb1 Hb2].
  (* the product of the float of the literal and the power of ten *)
  assert (Hc1 : ((1 - (1 # 9007199254740992)) * (V * F) <= P1 * F)%Q).
  { setoid_replace ((1 - (1 # 9007199254740992)) * (V * F))%Q
      with ((1 - (1 # 9007199254740992)) * V * F)%Q by ring.
    apply Qmult_le_compat_r; lra. }
  assert (Hc2 : (P1 * F <= (1 + (1 # 9007199254740992)) * (V * F))%Q).
  { setoid_replace ((1 + (1 # 9007199254740992)) * (V * F))%Q
      with ((1 + (1 # 9007199254740992)) * V * F)%Q by ring.
    apply Qmult_le_compat_r; lra. }
  assert (HVF : (V <= V * F)%Q).
  { setoid_replace V with (V * 1)%Q at 1 by ring.
    apply Qmult_le_l; assumption. }
  set (PF := (P1 * F)%Q) in *. set (T := (V * F)%Q) in *.
  assert (HS : (Qpower 2 (-999) <= S)%Q) by lra.
  destruct (Wad_from_float_accuracy neg m2 e2 w HS Hw)
    as (a & Ha & Ha0 & Hacc).
  fold S in Hacc.
  unfold wad_to_Q, Dec.to_Q. rewrite Ha. fold V.
  assert (Es : (inject_Z (if neg then - a else a) * Qpower 10 (-18)
                == if neg then - (inject_Z a * Qpower 10 (-18))
                   else inject_Z a * Qpower 10 (-18))%Q).
  { destruct neg; [|reflexivity]. rewrite inject_Z_opp. ring. }
  assert (Et : ((if neg then - V else V) * F
                == if neg then - T else T)%Q).
  { unfold T. destruct neg; ring. }
  rewrite Es, Et, Qabs_same_sign.
  change (Qpower 2 (-52)) with (1 # 4503599627370496)%Q in Hacc.
  change (Qpower 2 (-50)) with (1 # 1125899906842624)%Q.
  set (A := (inject_Z a * Qpower 10 (-18))%Q) in *.
  set (U := Qpower 10 (-18)) in *.
  apply Qabs_Qle_condition in Hacc. destruct Hacc as [Hd1' Hd2'].
  apply Qabs_Qle_condition. split; lra.
Qed.

(** The number that a literal denotes is not negative; its sign is kept
    apart. *)
Lemma digit_of_nonneg (c : ascii) (d : Z) :
  Lit.digit_of c = Some d -> 0 <= d.
Proof.
  unfold Lit.digit_of.
  destruct (Z.leb_spec 48 (Lit.code c)); cbn [andb]; [|discriminate].
  destruct (Lit.code c <=? 57); [|discriminate].
  intros E. injection E as <-. lia.
Qed.

Lemma digits_from_nonneg (n : nat) :
  forall s acc cnt,
    (String.length s <= n)%nat -> 0 <= acc ->
    0 <= fst (fst (Lit.digits_from acc cnt s)).
Proof.
  induction n as [|n IH]; intros s acc cnt Hlen Hacc.
  - destruct s; [exact Hacc|cbn [String.length] in Hlen; lia].
  - destruct s as [|c s']; [exact Hacc|].
    cbn [String.length] in Hlen. cbn [Lit.digits_from].
    destruct (Lit.digit_of c) as [d|] eqn:Ed.
    + apply IH; [lia|]. pose proof (digit_of_nonneg c d Ed). lia.
    + destruct (Ascii.eqb c "_" && (0 <? cnt)); [|exact Hacc].
      destruct s' as [|c2 s'']; [exact Hacc|].
      cbn [String.length] in Hlen.
      destruct (Lit.digit_of c2) as [d|] eqn:Ed2; [|exact Hacc].
      apply IH; [lia|]. pose proof (digit_of_nonneg c2 d Ed2). lia.
Qed.

Lemma unsigned_number_nonneg (s : string) (m e : Z) :
  Lit.unsigned_number s = Some (m, e) -> 0 <= m.
Proof.
  unfold Lit.unsigned_number.
  pose proof (digits_from_nonneg (String.length s) s 0 0 (Nat.le_refl _)
                (Z.le_refl 0)) as H1.
  destruct (Lit.digits_from 0 0 s) as [[ip icnt] s1]. cbn [fst] in H1.
  assert (H2 : forall m' fcnt s2,
             match s1 with
             | String "." s1' => Lit.digits_from ip 0 s1'
             | _ => (ip, 0, s1)
             end = (m', fcnt, s2) -> 0 <= m').
  { intros m' fcnt s2 E.
    assert (Hdef : (ip, 0, s1) = (m', fcnt, s2) -> 0 <= m')
      by (intros E'; injection E' as <- _ _; exact H1).
    destruct s1 as [|c s1']; [exact (Hdef E)|].
    destruct (Ascii.eqb_spec c "."%char) as [->|Hne].
    - pose proof (digits_from_nonneg (String.length s1') s1' ip 0
                    (Nat.le_refl _) H1) as H3.
      rewrite E in H3. exact H3.
    - destruct c as [[] [] [] [] [] [] [] []];
        first [exact (Hdef E) | exfalso; apply Hne; reflexivity]. }
  destruct (match s1 with
            | String "." s1' => Lit.digits_from ip 0 s1'
            | _ => (ip, 0, s1)
            end) as [[m' fcnt] s2] eqn:E.
  specialize (H2 _ _ _ eq_refl).
  destruct (0 <? icnt + fcnt); [|discriminate].
  destruct (Lit.exponent_part s2); [|discriminate].
  intros H. injection H as <- _. exact H2.
Qed.

Lemma float_literal_nonneg (s : string) (neg : bool) (m e : Z) :
  Lit.float_literal s = Some (Lit.LFinite neg m e) -> 0 <= m.
Proof.
  unfold Lit.float_literal.
  destruct (Lit.split_sign (Lit.strip Lit.is_space s)) as [sg body].
  destruct (_ || _); [discriminate|].
  destruct (String.eqb _ _); [discriminate|].
  destruct (Lit.unsigned_number body) as [[m' e']|] eqn:Eu; [|discriminate].
  intros H. injection H as _ <- _.
  exact (unsigned_number_nonneg _ _ _ Eu).
Qed.

Lemma Qabs_signed (neg : bool) (a : Q) :
  (0 <= a)%Q -> (Qabs (if neg then - a else a) == a)%Q.
Proof.
  intros Ha. destruct neg; [rewrite Qabs_opp|]; apply Qabs_pos; exact Ha.
Qed.

(** A product with a float zero that [Wad.from_number] accepts is zero. *)
Lemma zero_price (neg : bool) (k : Z) (scaled : F64.float) (w : Wad) :
  float_mul (S754_zero neg) (pow10 k) = Ok scaled ->
  Wad_from_number (NFloat scaled) = Ok w ->
  wad_value w = 0.
Proof.
  intros Hsc Hw. destruct (pow10_sign _ _ _ Hsc) as (y & -> & _).
  pose proof (Wad_from_float_sign _ _ Hw) as Hs.
  destruct y as [sy|sy| |sy my ey]; cbn in Hs; try contradiction;
    exact Hs.
Qed.

(** The price of a translated record against the value of the wire
    price. *)
Lemma translated_price_bound (s : string) (v : Q) (d : Z)
  (pf scaled : F64.float) (price : Wad) :
  py_float (PStr s) = Ok pf ->
  float_mul pf (pow10 (18 - d)) = Ok scaled ->
  Wad_from_number (NFloat scaled) = Ok price ->
  literal_value s = Some v ->
  ((v == 0)%Q -> wad_value price = 0) /\
  (0 <= d <= 18 -> (Qpower 10 (-300) <= Qabs v)%Q ->
   (Qabs (wad_to_Q price - v * Qpower 10 (18 - d))
    <= Qpower 2 (-50) * Qabs (v * Qpower 10 (18 - d))
       + Qpower 10 (-18))%Q).
Proof.
  unfold py_float, literal_value. intros Hpf Hsc Hpr Hv.
  destruct (Lit.float_literal s) as [[neg m e| |]|] eqn:El;
    try discriminate.
  pose proof (float_literal_nonneg s neg m e El) as Hm.
  assert (Epf : pf = F64.of_decimal neg m e) by congruence.
  assert (Ev : v = (if neg then - (inject_Z m * Qpower 10 e)
                    else inject_Z m * Qpower 10 e)%Q) by congruence.
  clear Hpf Hv. subst pf v.
  pose proof (Qpow10_pos e) as He. pose proof (Qpow10_pos (18 - d)) as Hk.
  pose proof (Qpow10_pos (-300)) as H300.
  destruct m as [|p|p]; [| |lia].
  - split.
    + intros _. exact (zero_price neg (18 - d) scaled price Hsc Hpr).
    + intros _ Hlow. exfalso.
      assert (E0 : ((if neg then - (inject_Z 0 * Qpower 10 e)
                     else inject_Z 0 * Qpower 10 e) == 0)%Q)
        by (destruct neg; change (inject_Z 0) with 0%Q; ring).
      rewrite E0 in Hlow. change (Qabs 0) with 0%Q in Hlow. lra.
  - pose proof (inject_Z_pos (Z.pos p) eq_refl) as Hp.
    assert (Ha : (0 < inject_Z (Z.pos p) * Qpower 10 e)%Q)
      by (apply Qmult_lt_0_compat; assumption).
    set (a := (inject_Z (Z.pos p) * Qpower 10 e)%Q) in *.
    split.
    + intros H0. exfalso. destruct neg; lra.
    + intros Hd Hlow.
      rewrite Qabs_signed in Hlow by lra.
      pose proof (wire_price_accuracy neg p e (18 - d) scaled price
                    ltac:(lia) Hlow Hsc Hpr) as H.
      unfold Dec.to_Q in H. fold a in H.
      rewrite Qabs_Qmult, Qabs_signed by lra.
      rewrite (Qabs_pos (Qpower 10 (18 - d))) by lra.
      exact H.
Qed.

(** C2 (amended): the price of a translated order or fill is
    [Wad.from_number(float(price) * 10 ** (18 - d))]: the wire price read
    as a binary64 float, multiplied in binary64 by the power of ten,
    written with the shortest digits that read back as that product and
    cut to 18 decimals.  With [d = 18] the product is the float of the
    wire price itself; the wire price ["100.0"] gives exactly 100 with
    [d = 18] and exactly [100 * 10^12] with [d = 6]; a wire price that
    denotes zero gives the price 0; and for [0 <= d <= 18] and a wire
    price of magnitude at least [10^-300] the price differs from the value
    of the wire price times [10^(18-d)] by at most a relative [2^-50]
    and an absolute [10^-18]. *)
Theorem normalized_price_is_near_scaled_wire_price :
  (forall item pair mi o,
      DydxOrder_from_message item pair mi = Ok o ->
      exists d pv x scaled,
        quote_decimals mi d /\
        getitem item "price" = Ok pv /\ py_float pv = Ok x /\
        float_mul x (pow10 (18 - d)) = Ok scaled /\
        Wad_from_number (NFloat scaled) = Ok (Order.price o) /\
        (d = 18 -> F64.valid x = true -> scaled = x) /\
        (pv = PStr "100.0" -> d = 18 ->
         wad_value (Order.price o) = 100 * 10 ^ 18) /\
        (pv = PStr "100.0" -> d = 6 ->
         wad_value (Order.price o) = 100 * 10 ^ 12 * 10 ^ 18) /\
        (forall s v,
            pv = PStr s -> literal_value s = Some v ->
            ((v == 0)%Q -> wad_value (Order.price o) = 0) /\
            (0 <= d <= 18 -> (Qpower 10 (-300) <= Qabs v)%Q ->
             (Qabs (wad_to_Q (Order.price o) - v * Qpower 10 (18 - d))
              <= Qpower 2 (-50) * Qabs (v * Qpower 10 (18 - d))
                 + Qpower 10 (-18))%Q))) /\
  (forall fill pair mi t,
      DydxTrade_from_message fill pair mi = Ok t ->
      exists d pv x scaled,
        quote_decimals mi d /\
        getitem fill "price" = Ok pv /\ py_float pv = Ok x /\
        float_mul x (pow10 (18 - d)) = Ok scaled /\
        Wad_from_number (NFloat scaled) = Ok (Trade.price t) /\
        (d = 18 -> F64.valid x = true -> scaled = x) /\
        (pv = PStr "100.0" -> d = 18 ->
         wad_value (Trade.price t) = 100 * 10 ^ 18) /\
        (pv = PStr "100.0" -> d = 6 ->
         wad_value (Trade.price t) = 100 * 10 ^ 12 * 10 ^ 18) /\
        (forall s v,
            pv = PStr s -> literal_value s = Some v ->
            ((v == 0)%Q -> wad_value (Trade.price t) = 0) /\
            (0 <= d <= 18 -> (Qpower 10 (-300) <= Qabs v)%Q ->
             (Qabs (wad_to_Q (Trade.price t) - v * Qpower 10 (18 - d))
              <= Qpower 2 (-50) * Qabs (v * Qpower 10 (18 - d))
                 + Qpower 10 (-18))%Q))).
Proof.
  split.
  - intros item pair mi o H.
    destruct (DydxOrder_from_message_inv _ _ _ _ H)
      as (d & pv & pf & scaled & price & id & cv & ts & sv & bv & bf & bi & w
          & amount & Hd & Hpv & Hpf & Hsc & Hpr & _ & _ & _ & _ & _ & _ & _
          & _ & _ & ->).
    cbn [Order.price]. exists d, pv, pf, scaled.
    split; [exact Hd|]. split; [exact Hpv|]. split; [exact Hpf|].
    split; [exact Hsc|]. split; [exact Hpr|].
    split; [|split; [|split]].
    + intros -> Hv. change (18 - 18) with 0 in Hsc.
      rewrite float_mul_pow10_zero in Hsc by assumption. congruence.
    + intros E1 E2. now apply (example_price pv d pf scaled price E1 Hpf Hsc Hpr).
    + intros E1 E2. now apply (example_price pv d pf scaled price E1 Hpf Hsc Hpr).
    + intros s v -> Hv.
      exact (translated_price_bound s v d pf scaled price Hpf Hsc Hpr Hv).
  - intros fill pair mi t H.
    destruct (DydxTrade_from_message_inv _ _ _ _ H)
      as (d & pv & pf & scaled & price & id & cv & ts & mk & sv & av & af & ai
          & w & amount & Hd & Hpv & Hpf & Hsc & Hpr & _ & _ & _ & _ & _ & _
          & _ & _ & _ & _ & ->).
    cbn [Trade.price]. exists d, pv, pf, scaled.
    split; [exact Hd|]. split; [exact Hpv|]. split; [exact Hpf|].
    split; [exact Hsc|]. split; [exact Hpr|].
    split; [|split; [|split]].
    + intros -> Hv. change (18 - 18) with 0 in Hsc.
      rewrite float_mul_pow10_zero in Hsc by assumption. congruence.
    + intros E1 E2. now apply (example_price pv d pf scaled price E1 Hpf Hsc Hpr).
    + intros E1 E2. now apply (example_price pv d pf scaled price E1 Hpf Hsc Hpr).
    + intros s v -> Hv.
      exact (translated_price_bound s v d pf scaled price Hpf Hsc Hpr Hv).
Qed.

(** *** A submitted price read back by get_orders *)

Lemma order_price_steps (self : DydxApi) (pair : string) (p : F64.float)
  (mi id : pyval) (d t : Z) :
  getitem (market_info self) pair = Ok mi ->
  tick_size mi t -> base_market_id mi id -> quote_decimals mi d ->
  order_price self pair p
  = (factor <- py_pow10 (- (18 - d)) ;;
     scaled <- float_mul p factor ;;
     Dec.round_ndigits (Dec.of_float scaled) t).
Proof.
  intros Hmi (tv & td & te & Htv & Htd & Hte & ->) (bc & Hbc & Hid)
         (qc & dv & Hqc & Hdv & Hd).
  unfold order_price.
  rewrite Hmi. cbn [bind]. rewrite Htv. cbn [bind]. rewrite Htd. cbn [bind].
  rewrite Hte. cbn [bind]. rewrite Hbc. cbn [bind]. rewrite Hid. cbn [bind].
  rewrite Hqc. cbn [bind]. rewrite Hdv. cbn [bind]. rewrite Hd. cbn [bind].
  replace ((18 - d) * -1) with (- (18 - d)) by lia. reflexivity.
Qed.

Lemma Qabs_scale (x y b K : Q) :
  (0 <= K)%Q -> (Qabs (x - y) <= b)%Q ->
  (Qabs (x * K - y * K) <= b * K)%Q.
Proof.
  intros HK H.
  setoid_replace (x * K - y * K)%Q with ((x - y) * K)%Q by ring.
  rewrite Qabs_Qmult, (Qabs_pos K) by exact HK.
  apply Qmult_le_compat_r; assumption.
Qed.

(** The product with [10 ** -k] for [k] from 0 to 18. *)
Lemma scaled_price_error_from_zero (p : F64.float) (k : Z) :
  F64.valid p = true -> 0 <= k <= 18 ->
  (Qpower 2 (-960) <= Qabs (F64.to_Q p))%Q ->
  exists scaled,
    float_mul p (pow10 (- k)) = Ok scaled /\
    F64.is_finite scaled = true /\
    (Qabs (F64.to_Q scaled - F64.to_Q p * Qpower 10 (- k))
     <= Qpower 2 (-51) * Qabs (F64.to_Q p * Qpower 10 (- k)))%Q.
Proof.
  intros Hv Hk Hq.
  destruct (Z.eq_dec k 0) as [->|Hne].
  - exists p. change (- 0) with 0.
    split; [apply float_mul_pow10_zero; exact Hv|].
    destruct (normal_of_large p Hv Hq) as (s & m & e & -> & _ & _).
    split; [reflexivity|].
    change (Qpower 10 0) with 1%Q.
    set (P := F64.to_Q (S754_finite s m e)).
    setoid_replace (P - P * 1)%Q with 0%Q by ring.
    change (Qabs 0) with 0%Q.
    apply Qmult_le_0_compat; [discriminate|apply Qabs_nonneg].
  - apply scaled_price_error; [exact Hv|lia|exact Hq].
Qed.

(** A price submitted by [place_order] and reported back with the same
    value comes out of the translation of the order within the tick
    rounding, carried to the caller's scale, and the binary64 and [Wad]
    roundings of the way there and back. *)
Lemma round_trip_bound (p : F64.float) (d t : Z) (scaled : F64.float)
  (q : Dec.decimal) (s : string) (v : Q) (pf scaled' : F64.float)
  (price : Wad) :
  0 <= d <= 18 -> 0 <= t <= 300 ->
  F64.valid p = true -> (Qpower 2 (-960) <= Qabs (F64.to_Q p))%Q ->
  float_mul p (pow10 (- (18 - d))) = Ok scaled ->
  Dec.round_ndigits (Dec.of_float scaled) t = Ok q ->
  literal_value s = Some v -> (v == Dec.to_Q q)%Q ->
  py_float (PStr s) = Ok pf ->
  float_mul pf (pow10 (18 - d)) = Ok scaled' ->
  Wad_from_number (NFloat scaled') = Ok price ->
  (Qabs (wad_to_Q price - F64.to_Q p)
   <= Qpower 2 (-49) * Qabs (F64.to_Q p)
      + Qpower 10 (18 - d - t) + Qpower 10 (-18))%Q.
Proof.
  intros Hd Ht Hv Hq Hsc Hr Hlit Hecho Hpf Hsc' Hpr.
  set (k := 18 - d) in *.
  (* the product that is rounded to the tick *)
  destruct (scaled_price_error_from_zero p k Hv ltac:(lia) Hq)
    as (scaled0 & Hsc0 & Hfin & Herr).
  assert (scaled0 = scaled) by congruence. subst scaled0.
  (* the rounding to the tick *)
  pose proof (of_float_exact scaled) as Hex.
  assert (Hround : (Qabs (Dec.to_Q q - F64.to_Q scaled)
                    <= (1 # 2) * Qpower 10 (- t))%Q /\
                   exists sq c', q = Dec.DFinite sq c' (- t) /\ 0 <= c').
  { destruct (Dec.of_float scaled) as [s0 c0 e0|s0|] eqn:Eo.
    - split.
      + rewrite <- Hex. exact (round_ndigits_error _ _ _ _ _ Hr).
      + pose proof (of_float_coefficient _ _ _ _ Eo) as Hc0.
        destruct (round_ndigits_shape _ _ _ Hr)
          as [[Hn _]|(s1 & c1 & e1 & c' & E1 & E2 & Hc')];
          [discriminate|].
        injection E1 as <- <- <-. exists s0, c'. split; [exact E2|lia].
    - destruct scaled; discriminate.
    - destruct scaled as [| | |sx mx ex]; try discriminate.
      destruct ex; discriminate. }
  destruct Hround as (Hrerr & sq & c' & -> & Hc').
  (* the price translated from the order reported back *)
  destruct (translated_price_bound s v d pf scaled' price Hpf Hsc' Hpr Hlit)
    as [Hzero Hnear].
  fold k in Hnear.
  pose proof (Qpow10_pos k) as HK. pose proof (Qpow10_pos (- k)) as HKi.
  pose proof (Qpow10_pos (- t)) as HT. pose proof (Qpow10_pos (-18)) as HU.
  assert (CK : (Qpower 10 (- k) * Qpower 10 k == 1)%Q).
  { rewrite <- Qpow10_add. replace (- k + k) with 0 by lia. reflexivity. }
  assert (H3 : (Qabs (wad_to_Q price - v * Qpower 10 k)
                <= Qpower 2 (-50) * Qabs (v * Qpower 10 k)
                   + Qpower 10 (-18))%Q).
  { destruct (Z.eq_dec c' 0) as [->|Hc0].
    - assert (Ev : (v == 0)%Q).
      { rewrite Hecho. unfold Dec.to_Q. change (inject_Z 0) with 0%Q.
        destruct sq; ring. }
      unfold wad_to_Q. rewrite (Hzero Ev), Ev.
      change (inject_Z 0) with 0%Q.
      setoid_replace (0 * Qpower 10 (-18) - 0 * Qpower 10 k)%Q with 0%Q
        by ring.
      setoid_replace (0 * Qpower 10 k)%Q with 0%Q by ring.
      change (Qabs 0) with 0%Q. lra.
    - apply Hnear; [lia|].
      rewrite Hecho. unfold Dec.to_Q.
      assert (H1 : (1 <= inject_Z c')%Q).
      { change 1%Q with (inject_Z 1). rewrite <- Zle_Qle. lia. }
      assert (H300 : (Qpower 10 (-300) <= Qpower 10 (- t))%Q)
        by (apply Qpower_le_compat_l; [lia|discriminate]).
      assert (Hge : (Qpower 10 (- t) <= inject_Z c' * Qpower 10 (- t))%Q).
      { setoid_replace (Qpower 10 (- t)) with (1 * Qpower 10 (- t))%Q at 1
          by ring.
        apply Qmult_le_compat_r; [exact H1|lra]. }
      rewrite Qabs_signed by lra. lra. }
  rewrite Hecho in H3.
  set (Qv := Dec.to_Q (Dec.DFinite sq c' (- t))) in *.
  set (P := F64.to_Q p) in *. set (S := F64.to_Q scaled) in *.
  (* everything at the caller's scale *)
  assert (E1 : (Qabs (S * Qpower 10 k - P)
                <= Qpower 2 (-51) * Qabs P)%Q).
  { pose proof (Qabs_scale _ _ _ (Qpower 10 k) (Qlt_le_weak _ _ HK) Herr)
      as H.
    assert (EP : (P * Qpower 10 (- k) * Qpower 10 k == P)%Q).
    { setoid_replace (P * Qpower 10 (- k) * Qpower 10 k)%Q
        with (P * (Qpower 10 (- k) * Qpower 10 k))%Q by ring.
      rewrite CK. ring. }
    rewrite EP in H.
    rewrite Qabs_Qmult, (Qabs_pos (Qpower 10 (- k))) in H
      by (apply Qlt_le_weak; exact HKi).
    setoid_replace (Qpower 2 (-51) * (Qabs P * Qpower 10 (- k))
                    * Qpower 10 k)%Q
      with (Qpower 2 (-51) * Qabs P * (Qpower 10 (- k) * Qpower 10 k))%Q
      in H by ring.
    rewrite CK in H.
    setoid_replace (Qpower 2 (-51) * Qabs P * 1)%Q
      with (Qpower 2 (-51) * Qabs P)%Q in H by ring.
    exact H. }
  assert (E2 : (Qabs (Qv * Qpower 10 k - S * Qpower 10 k)
                <= (1 # 2) * Qpower 10 (k - t))%Q).
  { pose proof (Qabs_scale _ _ _ (Qpower 10 k) (Qlt_le_weak _ _ HK) Hrerr)
      as H.
    replace (k - t) with (- t + k) by lia. rewrite Qpow10_add.
    setoid_replace ((1 # 2) * (Qpower 10 (- t) * Qpower 10 k))%Q
      with ((1 # 2) * Qpower 10 (- t) * Qpower 10 k)%Q by ring.
    exact H. }
  replace (18 - d - t) with (k - t) by (unfold k; lia).
  pose proof (Qpow10_pos (k - t)) as HH.
  pose proof (Qabs_nonneg P) as HP0.
  change (Qpower 2 (-51)) with (1 # 2251799813685248)%Q in E1.
  change (Qpower 2 (-50)) with (1 # 1125899906842624)%Q in H3.
  change (Qpower 2 (-49)) with (1 # 562949953421312)%Q.
  set (SK := (S * Qpower 10 k)%Q) in *.
  set (QK := (Qv * Qpower 10 k)%Q) in *.
  set (W := wad_to_Q price) in *.
  set (AP := Qabs P) in *. set (H2t := Qpower 10 (k - t)) in *.
  set (U := Qpower 10 (-18)) in *.
  apply Qabs_Qle_condition in E1. destruct E1 as [E1a E1b].
  apply Qabs_Qle_condition in E2. destruct E2 as [E2a E2b].
  assert (HPA : (- AP <= P <= AP)%Q).
  { apply Qabs_Qle_condition. apply Qle_refl. }
  assert (HAQ : (Qabs QK
                 <= (1 + (1 # 2251799813685248)) * AP + (1 # 2) * H2t)%Q).
  { apply Qabs_Qle_condition. split; lra. }
  set (AQ := Qabs QK) in *.
  apply Qabs_Qle_condition in H3. destruct H3 as [H3a H3b].
  apply Qabs_Qle_condition. split; lra.
Qed.

(** C1 (amended): the price that [place_order] submits is the binary64
    product of the caller's price and [10 ** -(18 - d)], converted exactly
    to a decimal and rounded, ties to even, to
    [abs(exponent of Decimal(minimumTickSize))] places; with [d = 18] the
    factor is 1 and the submitted price is the caller's price itself,
    scaled exactly and rounded; that price is the one in the request made
    to the client; with [0 <= d < 18] and a price of magnitude at least
    [2^-960] the product is finite and within a relative [2^-51] of the
    price times [10^-(18 - d)]; and when, for [0 <= d <= 18] and at most
    300 tick places, an order comes back with a wire price of the value
    submitted, the price of its translation is within
    [2^-49 * |p| + 10^(18 - d - t) + 10^-18] of the caller's price [p]:
    the two scalings undo each other up to the tick rounding, carried to
    the caller's scale, and the binary64 and [Wad] roundings. *)
Theorem place_order_price_is_rounded_binary64_product :
  forall (self : DydxApi) (pair : string) (p : F64.float)
         (mi id : pyval) (d t : Z),
    getitem (market_info self) pair = Ok mi ->
    tick_size mi t -> base_market_id mi id -> quote_decimals mi d ->
    order_price self pair p
    = (factor <- py_pow10 (- (18 - d)) ;;
       scaled <- float_mul p factor ;;
       Dec.round_ndigits (Dec.of_float scaled) t) /\
    (Z.abs (18 - d) < 2 ^ 53 ->
     order_price self pair p
     = (scaled <- float_mul p (pow10 (- (18 - d))) ;;
        Dec.round_ndigits (Dec.of_float scaled) t)) /\
    (d = 18 -> F64.valid p = true ->
     order_price self pair p = exact_order_price p d t) /\
    (forall is_sell amount q a tr,
        order_price self pair p = Ok q ->
        token_to_wei amount id = Ok a ->
        snd (place_order self pair is_sell p amount tr)
        = (tr ++ [place_order_req pair (if is_sell then "SELL" else "BUY")
                    q a false false])%list) /\
    (0 <= d < 18 -> F64.valid p = true ->
     (Qpower 2 (-960) <= Qabs (F64.to_Q p))%Q ->
     exists scaled,
       float_mul p (pow10 (- (18 - d))) = Ok scaled /\
       F64.is_finite scaled = true /\
       order_price self pair p
       = Dec.round_ndigits (Dec.of_float scaled) t /\
       (Qabs (F64.to_Q scaled - F64.to_Q p * Qpower 10 (- (18 - d)))
        <= Qpower 2 (-51) * Qabs (F64.to_Q p * Qpower 10 (- (18 - d))))%Q) /\
    (forall q item s v o,
        0 <= d <= 18 -> t <= 300 -> F64.valid p = true ->
        (Qpower 2 (-960) <= Qabs (F64.to_Q p))%Q ->
        order_price self pair p = Ok q ->
        getitem item "price" = Ok (PStr s) ->
        literal_value s = Some v -> (v == Dec.to_Q q)%Q ->
        DydxOrder_from_message item pair mi = Ok o ->
        (Qabs (wad_to_Q (Order.price o) - F64.to_Q p)
         <= Qpower 2 (-49) * Qabs (F64.to_Q p)
            + Qpower 10 (18 - d - t) + Qpower 10 (-18))%Q).
Proof.
  intros self pair p mi id d t Hmi Ht Hid Hd.
  pose proof (order_price_steps self pair p mi id d t Hmi Ht Hid Hd) as E0.
  pose proof (order_price_unfold self pair p mi id d t Hmi Ht Hid Hd) as E.
  split; [exact E0|]. split; [exact E|]. split; [|split; [|split]].
  - intros -> Hv. rewrite E by (vm_compute; reflexivity).
    change (- (18 - 18)) with 0.
    rewrite float_mul_pow10_zero by assumption. cbn [bind].
    unfold exact_order_price. change (- (18 - 18)) with 0.
    destruct (Dec.of_float p) as [s c e| |]; cbn [Dec.scale10]; try reflexivity.
    replace (e + 0) with e by lia. reflexivity.
  - intros is_sell amount q a tr Hq Ha.
    destruct Hid as (bc & Hbc & Hid).
    unfold place_order, bindM, lift, call.
    rewrite Hq. cbn [bind]. rewrite Hmi. cbn [bind]. rewrite Hbc. cbn [bind].
    rewrite Hid. cbn [bind]. rewrite Ha. cbn [bind fst snd].
    destruct (client _); reflexivity.
  - intros Hd18 Hv Hq.
    destruct (scaled_price_error p (18 - d) Hv ltac:(lia) Hq)
      as (scaled & Hmul & Hfin & Herr).
    exists scaled. rewrite E, Hmul by lia. cbn [bind].
    repeat split; assumption.
  - intros q item s v o Hd18 Ht300 Hv Hq Hop Hpv Hlit Hecho Ho.
    rewrite E in Hop by lia.
    apply bind_Ok in Hop. destruct Hop as (scaled & Hsc & Hr).
    destruct (DydxOrder_from_message_inv _ _ _ _ Ho)
      as (d' & pv & pf & scaled' & price & oid & cv & ts & sv & bv & bf & bi
          & w & amount & Hd' & Hpv' & Hpf & Hsc' & Hpr & _ & _ & _ & _ & _
          & _ & _ & _ & _ & ->).
    cbn [Order.price].
    assert (d' = d) by (eapply quote_decimals_unique; eauto). subst d'.
    assert (pv = PStr s) by congruence. subst pv.
    assert (Ht0 : 0 <= t).
    { destruct Ht as (tv & td & te & _ & _ & _ & ->). lia. }
    exact (round_trip_bound p d t scaled q s v pf scaled' price Hd18
             (conj Ht0 Ht300) Hv Hq Hsc Hr Hlit Hecho Hpf Hsc' Hpr).
Qed.

(** *** The sign of a converted balance against the wire value *)

Lemma Wad_from_decimal_positive (c e : Z) (r : Wad) :
  1 <= c -> 10 ^ (- (e + 18)) <= c ->
  Wad_from_number (NDecimal (Dec.DFinite false c e)) = Ok r ->
  1 <= wad_value r.
Proof.
  intros Hc Hlow. unfold Wad_from_number, Dec.mul. cbn [bind xorb].
  assert (H18 : 0 < 10 ^ 18) by (apply Z.pow_pos_nonneg; lia).
  assert (Hlow' : 10 ^ (- (e + 0 + 0)) <= c * 10 ^ 18).
  { replace (- (e + 0 + 0)) with (- e) by lia.
    destruct (Z.le_gt_cases (- e) 18) as [Hs|Hb].
    - destruct (Z.le_gt_cases 0 (- e)) as [Hp|Hn].
      + assert (10 ^ (- e) <= 10 ^ 18) by (apply Z.pow_le_mono_r; lia). nia.
      + rewrite Z.pow_neg_r by lia. nia.
    - replace (- e) with (- (e + 18) + 18) by lia.
      rewrite Z.pow_add_r by lia. nia. }
  destruct (round_context_lower 0 false (c * 10 ^ 18) (e + 0)
              ltac:(nia) Hlow') as (c' & e' & -> & Hc' & Hl').
  replace (- (e' + 0)) with (- e') in Hl' by lia.
  intros H. apply bind_Ok in H. destruct H as (v & Hv & H).
  rewrite (Ok_wad_value _ _ H).
  exact (to_integral_down_lower false c' e' v Hc' Hl' Hv).
Qed.

Lemma converted_amount_zero_or_positive (n : Z) (neg : bool)
  (c1 c2 : number) (u : string) (wad : Wad) :
  from_wei (Z.abs n) u = Ok c1 ->
  (if neg then number_mul_int c1 (-1) else Ok c1) = Ok c2 ->
  Wad_from_number c2 = Ok wad ->
  (neg = true -> n <= 0) -> (neg = false -> 0 <= n) ->
  (n = 0 -> wad_value wad = 0) /\ (0 < n -> 0 < wad_value wad).
Proof.
  intros Hc1 Hc2 Hw Ht Hf.
  destruct (from_wei_cases _ _ _ Hc1) as [[H0 ->]|(k & Hk & Ha & ->)].
  - assert (n = 0) by lia. subst n.
    assert (c2 = NInt 0) by (destruct neg; simpl in Hc2; congruence).
    subst c2. rewrite Wad_from_number_zero in Hw.
    rewrite (Ok_wad_value _ _ Hw). split; [reflexivity|lia].
  - split; [lia|]. intros Hpos.
    destruct neg; [specialize (Ht eq_refl); lia|].
    assert (c2 = NDecimal (Dec.DFinite false (Z.abs n) (- k)))
      by congruence.
    subst c2. apply units_decimals in Hk.
    assert (Hlow : 10 ^ (- (- k + 18)) <= Z.abs n).
    { destruct Hk as [-> | ->];
        [replace (10 ^ _) with 1 by reflexivity
        |replace (10 ^ _) with 0 by reflexivity]; lia. }
    pose proof (Wad_from_decimal_positive (Z.abs n) (- k) wad
                  ltac:(lia) Hlow Hw).
    lia.
Qed.

(** [int(x)] is the value of [x] cut toward zero. *)
Lemma to_Z_floor (s : bool) (m : positive) (e n : Z) :
  F64.to_Z (S754_finite s m e) = Ok n ->
  exists a,
    n = (if s then - a else a) /\ 0 <= a /\
    (inject_Z a <= inject_Z (Z.pos m) * Qpower 2 e)%Q /\
    (inject_Z (Z.pos m) * Qpower 2 e < inject_Z a + 1)%Q.
Proof.
  unfold F64.to_Z. destruct e as [|k|k]; intros H.
  - exists (Z.pos m). split; [congruence|]. split; [lia|].
    change (Qpower 2 0) with 1%Q.
    set (M := inject_Z (Z.pos m)). split; lra.
  - set (a := Z.pos m * 2 ^ Z.pos k) in *.
    assert (Hp : 0 < 2 ^ Z.pos k) by (apply Z.pow_pos_nonneg; lia).
    exists a. split; [congruence|]. split; [unfold a; nia|].
    assert (E : (inject_Z (Z.pos m) * Qpower 2 (Z.pos k) == inject_Z a)%Q).
    { unfold a. rewrite inject_Z_mult, (Qpow2_inject (Z.pos k)) by lia.
      reflexivity. }
    rewrite E. set (A := inject_Z a). split; lra.
  - set (P := 2 ^ Z.pos k) in *.
    assert (HP : 0 < P) by (apply Z.pow_pos_nonneg; lia).
    set (a := Z.pos m / P) in *.
    exists a. split; [congruence|].
    split; [apply Z.div_pos; lia|].
    pose proof (Z.mul_div_le (Z.pos m) P HP) as H1.
    pose proof (Z.mul_succ_div_gt (Z.pos m) P HP) as H2.
    fold a in H1, H2.
    pose proof (inject_Z_pos P HP) as HPq.
    assert (EP : (inject_Z (Z.pos m) * Qpower 2 (Z.neg k) * inject_Z P
                  == inject_Z (Z.pos m))%Q).
    { unfold P. rewrite <- (Qpow2_inject (Z.pos k)) by lia.
      assert (Cn : (Qpower 2 (Z.pos k) * Qpower 2 (- Z.pos k) == 1)%Q)
        by (apply Qpow_cancel; discriminate).
      change (- Z.pos k) with (Z.neg k) in Cn.
      setoid_replace (inject_Z (Z.pos m) * Qpower 2 (Z.neg k)
                      * Qpower 2 (Z.pos k))%Q
        with (inject_Z (Z.pos m)
              * (Qpower 2 (Z.pos k) * Qpower 2 (Z.neg k)))%Q by ring.
      rewrite Cn. ring. }
    split.
    + apply (Qmult_le_r _ _ (inject_Z P) HPq). rewrite EP.
      rewrite <- inject_Z_mult, <- Zle_Qle. lia.
    + apply (Qmult_lt_r _ _ (inject_Z P) HPq). rewrite EP.
      change 1%Q with (inject_Z 1).
      rewrite <- inject_Z_plus, <- inject_Z_mult, <- Zlt_Qlt. lia.
Qed.

(** Rounding to the nearest float does not take a value that is at least
    1 below 1. *)
Lemma nearest_at_least_one (m' : positive) (e' g : Z) (V : Q) :
  Z.pos (digits2_pos m') = 53 -> g <= e' ->
  (Qabs (inject_Z (Z.pos m') * Qpower 2 e' - V) <= Qpower 2 (g - 1))%Q ->
  (1 <= V)%Q ->
  (1 <= inject_Z (Z.pos m') * Qpower 2 e')%Q.
Proof.
  intros Hd Hg Herr HV.
  pose proof (digits2_pos_bounds m') as [Hlo Hhi]. rewrite Hd in Hlo, Hhi.
  change (53 - 1) with 52 in Hlo.
  pose proof (Qpow2_pos e') as Hpe.
  destruct (Z.le_gt_cases (-52) e') as [Hbig|Hsmall].
  - assert (H1 : (Qpower 2 (-52) <= Qpower 2 e')%Q)
      by (apply Qpower_le_compat_l; [lia|discriminate]).
    assert (H2 : (inject_Z (2 ^ 52) <= inject_Z (Z.pos m'))%Q)
      by (rewrite <- Zle_Qle; exact Hlo).
    apply Qle_trans with (inject_Z (2 ^ 52) * Qpower 2 e')%Q.
    + apply Qle_trans with (inject_Z (2 ^ 52) * Qpower 2 (-52))%Q.
      * apply Qle_bool_imp_le. vm_compute. reflexivity.
      * apply Qmult_le_l; [reflexivity|exact H1].
    + apply Qmult_le_compat_r; [exact H2|apply Qlt_le_weak; exact Hpe].
  - exfalso.
    assert (H1 : (Qpower 2 e' <= Qpower 2 (-53))%Q)
      by (apply Qpower_le_compat_l; [lia|discriminate]).
    assert (H2 : (Qpower 2 (g - 1) <= Qpower 2 (-54))%Q)
      by (apply Qpower_le_compat_l; [lia|discriminate]).
    assert (H3 : (inject_Z (Z.pos m') <= inject_Z (2 ^ 53 - 1))%Q)
      by (rewrite <- Zle_Qle; lia).
    assert (H4 : (inject_Z (Z.pos m') * Qpower 2 e'
                  <= inject_Z (2 ^ 53 - 1) * Qpower 2 (-53))%Q).
    { apply Qle_trans with (inject_Z (2 ^ 53 - 1) * Qpower 2 e')%Q.
      - apply Qmult_le_compat_r; [exact H3|apply Qlt_le_weak; exact Hpe].
      - apply Qmult_le_l; [reflexivity|exact H1]. }
    change (inject_Z (2 ^ 53 - 1) * Qpower 2 (-53))%Q
      with (9007199254740991 * (1 # 9007199254740992))%Q in H4.
    change (Qpower 2 (-54)) with (1 # 18014398509481984)%Q in H2.
    apply Qabs_Qle_condition in Herr. destruct Herr as [He1 He2].
    set (X := (inject_Z (Z.pos m') * Qpower 2 e')%Q) in *.
    set (G := Qpower 2 (g - 1)) in *.
    lra.
Qed.

(** The float of a literal of magnitude at least 1 truncates to a
    non-zero integer with the sign of the literal. *)
Lemma int_of_float_of_large (neg : bool) (p : positive) (e n : Z) :
  (1 <= inject_Z (Z.pos p) * Qpower 10 e)%Q ->
  F64.to_Z (F64.of_decimal neg (Z.pos p) e) = Ok n ->
  if neg then n <= -1 else 1 <= n.
Proof.
  intros HV Hn.
  assert (Hlow : (Qpower 2 (-1000) <= inject_Z (Z.pos p) * Qpower 10 e)%Q).
  { eapply Qle_trans; [|exact HV].
    apply Qle_bool_imp_le. vm_compute. reflexivity. }
  destruct (of_decimal_nearest neg p e Hlow)
    as [Hinf|(m' & e' & g & Hx & Hd & Hg & _ & Herr & _)].
  { rewrite Hinf in Hn. discriminate. }
  rewrite Hx in Hn.
  pose proof (nearest_at_least_one m' e' g _ Hd (proj2 Hg) Herr HV) as HX.
  destruct (to_Z_floor neg m' e' n Hn) as (a & -> & Ha0 & Ha1 & Ha2).
  assert (Ha : 1 <= a).
  { assert (H : (inject_Z 0 < inject_Z a)%Q).
    { change (inject_Z 0) with 0%Q.
      set (X := (inject_Z (Z.pos m') * Qpower 2 e')%Q) in *.
      set (A := inject_Z a) in *. lra. }
    rewrite <- Zlt_Qlt in H. lia. }
  destruct neg; lia.
Qed.

(** A literal of magnitude at least [2^-1000] whose float truncates to a
    non-zero integer is above [1 - 2^-53] in magnitude. *)
Lemma large_of_int_of_float (neg : bool) (p : positive) (e n : Z) :
  (Qpower 2 (-1000) <= inject_Z (Z.pos p) * Qpower 10 e)%Q ->
  F64.to_Z (F64.of_decimal neg (Z.pos p) e) = Ok n -> n <> 0 ->
  (1 - Qpower 2 (-53) < inject_Z (Z.pos p) * Qpower 10 e)%Q.
Proof.
  intros Hlow Hn Hne.
  destruct (of_decimal_nearest neg p e Hlow)
    as [Hinf|(m' & e' & g & Hx & Hd & Hg & _ & Herr & Hlo)].
  { rewrite Hinf in Hn. discriminate. }
  rewrite Hx in Hn.
  pose proof (half_ulp_relative g _ _ Herr Hlo) as Hrel.
  destruct (to_Z_floor neg m' e' n Hn) as (a & -> & Ha0 & Ha1 & Ha2).
  assert (Ha : 1 <= a) by (destruct neg; lia).
  assert (HA : (1 <= inject_Z a)%Q).
  { change 1%Q with (inject_Z 1). rewrite <- Zle_Qle. exact Ha. }
  change (Qpower 2 (-53)) with (1 # 9007199254740992)%Q in *.
  apply Qabs_Qle_condition in Hrel. destruct Hrel as [Hr1 Hr2].
  set (X := (inject_Z (Z.pos m') * Qpower 2 e')%Q) in *.
  set (V := (inject_Z (Z.pos p) * Qpower 10 e)%Q) in *.
  set (A := inject_Z a) in *. lra.
Qed.

Lemma int_sign_against_wire (s : string) (v : Q) (x : F64.float) (n : Z) :
  py_float (PStr s) = Ok x -> F64.to_Z x = Ok n ->
  literal_value s = Some v ->
  ((v <= -1)%Q -> n < 0) /\
  (n < 0 -> (v < 0)%Q) /\
  ((Qpower 2 (-1000) <= Qabs v)%Q -> n < 0 ->
   (v < - (1 - Qpower 2 (-53)))%Q) /\
  ((v == 0)%Q -> n = 0) /\
  ((exists z, (v == inject_Z z)%Q) -> (n < 0 <-> (v < 0)%Q)).
Proof.
  intros Hx Hn Hv.
  pose proof (negative_float_of_negative_literal s x n Hx Hn) as Hneg.
  unfold py_float in Hx. unfold literal_value in Hv.
  destruct (Lit.float_literal s) as [[neg m e| |]|] eqn:El;
    try discriminate.
  pose proof (float_literal_nonneg s neg m e El) as Hm.
  assert (Ex : x = F64.of_decimal neg m e) by congruence.
  assert (Ev : v = (if neg then - (inject_Z m * Qpower 10 e)
                    else inject_Z m * Qpower 10 e)%Q) by congruence.
  clear Hx Hv. subst x v.
  pose proof (Qpow10_pos e) as He.
  pose proof (Qpow2_pos (-1000)) as H1000.
  destruct m as [|p|p]; [| |lia].
  - (* the literal denotes zero *)
    assert (n = 0) by (cbn in Hn; congruence). subst n.
    assert (E0 : ((if neg then - (inject_Z 0 * Qpower 10 e)
                   else inject_Z 0 * Qpower 10 e) == 0)%Q)
      by (destruct neg; change (inject_Z 0) with 0%Q; ring).
    split; [intros H; rewrite E0 in H; lra|].
    split; [lia|]. split; [lia|]. split; [reflexivity|].
    intros _. split; [lia|]. intros H. rewrite E0 in H. lra.
  - pose proof (inject_Z_pos (Z.pos p) eq_refl) as Hp.
    assert (Ha : (0 < inject_Z (Z.pos p) * Qpower 10 e)%Q)
      by (apply Qmult_lt_0_compat; assumption).
    assert (Hsign : n < 0 -> neg = true).
    { intros Hlt. destruct (Hneg Hlt) as (m1 & e1 & E1). congruence. }
    assert (HA : ((if neg then - (inject_Z (Z.pos p) * Qpower 10 e)
                   else inject_Z (Z.pos p) * Qpower 10 e) <= -1)%Q ->
                 n < 0).
    { intros Hle. destruct neg.
      - pose proof (int_of_float_of_large true p e n) as H.
        cbv beta iota in H.
        set (a := (inject_Z (Z.pos p) * Qpower 10 e)%Q) in *.
        assert (H1 : (1 <= a)%Q) by lra.
        specialize (H H1 Hn). lia.
      - set (a := (inject_Z (Z.pos p) * Qpower 10 e)%Q) in *. lra. }
    assert (HC : n < 0 ->
                 ((if neg then - (inject_Z (Z.pos p) * Qpower 10 e)
                   else inject_Z (Z.pos p) * Qpower 10 e) < 0)%Q).
    { intros Hlt. rewrite (Hsign Hlt).
      set (a := (inject_Z (Z.pos p) * Qpower 10 e)%Q) in *. lra. }
    split; [exact HA|]. split; [exact HC|]. split; [|split].
    + intros Hlow Hlt. rewrite (Hsign Hlt) in *.
      rewrite Qabs_opp, Qabs_pos in Hlow by (apply Qlt_le_weak; exact Ha).
      pose proof (large_of_int_of_float true p e n Hlow Hn ltac:(lia)) as H.
      set (a := (inject_Z (Z.pos p) * Qpower 10 e)%Q) in *.
      set (u := Qpower 2 (-53)) in *. lra.
    + intros H0. exfalso.
      set (a := (inject_Z (Z.pos p) * Qpower 10 e)%Q) in *.
      destruct neg; lra.
    + intros (z & Hz). split; [exact HC|].
      intros Hlt. apply HA. rewrite Hz in Hlt |- *.
      change 0%Q with (inject_Z 0) in Hlt. rewrite <- Zlt_Qlt in Hlt.
      change (-1)%Q with (inject_Z (-1)). rewrite <- Zle_Qle. lia.
Qed.

(** C3 (amended): a wire balance of -1,000,000 wei converted with 6
    decimals is the negative amount -1 (that is -1,000,000 / 10^6), and
    a balance whose market id is that of USDC is converted with 6
    decimals.  For every balance entry the sign of the derived amount is
    the sign of [n = int(float(wei))], the wire value rounded to binary64
    and then cut toward zero: negative, zero or positive as [n] is.  For
    a wire string of value [v] the amount is negative whenever [v <= -1],
    and only when [v < 0]; it is negative exactly when [v < 0] if [v] is
    an integer; with [|v| >= 2^-1000] it is negative only when
    [v < -(1 - 2^-53)]; and [v = 0] gives 0.  Between -1 and 0 the
    rounding decides: ["-0.99999999999999999"] reads as the float -1.0
    and gives the amount [-10^-18]. *)
Theorem balance_sign_follows_int_of_float_of_wei :
  (forall kv,
      assoc "wei" kv = Some (PStr "-1000000") ->
      _convert_balance_to_wad (PDict kv) 6
      = Ok (dict_set "wad" (WadObj (mkWad (- 10 ^ 18)))
              (map (fun kx => (fst kx, Raw (snd kx))) kv))) /\
  (forall kv,
      assoc "wei" kv = Some (PStr "-0.99999999999999999") ->
      _convert_balance_to_wad (PDict kv) 18
      = Ok (dict_set "wad" (WadObj (mkWad (- 1)))
              (map (fun kx => (fst kx, Raw (snd kx))) kv))) /\
  (forall market_id balance,
      py_int (PStr market_id) = Ok (MARKET_USDC consts) ->
      MARKET_USDC consts <> MARKET_ETH consts ->
      MARKET_USDC consts <> MARKET_SAI consts ->
      balance_entry (market_id, balance)
      = (b <- setitem balance "currency" (PStr "USDC") ;;
         _convert_balance_to_wad b 6)) /\
  (forall balance decimals out,
      _convert_balance_to_wad balance decimals = Ok out ->
      exists wv x n w,
        getitem balance "wei" = Ok wv /\ py_float wv = Ok x /\
        F64.to_Z x = Ok n /\ assoc "wad" out = Some (WadObj w) /\
        (wad_value w < 0 <-> n < 0) /\
        (wad_value w = 0 <-> n = 0) /\
        (0 < wad_value w <-> 0 < n) /\
        (forall s v,
            wv = PStr s -> literal_value s = Some v ->
            ((v <= -1)%Q -> wad_value w < 0) /\
            (wad_value w < 0 -> (v < 0)%Q) /\
            ((exists z, (v == inject_Z z)%Q) ->
             (wad_value w < 0 <-> (v < 0)%Q)) /\
            ((Qpower 2 (-1000) <= Qabs v)%Q -> wad_value w < 0 ->
             (v < - (1 - Qpower 2 (-53)))%Q) /\
            ((v == 0)%Q -> wad_value w = 0))).
Proof.
  split; [|split; [|split]].
  - intros kv H. unfold _convert_balance_to_wad, getitem. rewrite H.
    vm_compute. reflexivity.
  - intros kv H. unfold _convert_balance_to_wad, getitem. rewrite H.
    vm_compute. reflexivity.
  - intros market_id balance Hid Hne1 Hne2. unfold balance_entry.
    rewrite Hid. cbn [bind].
    destruct (Z.eqb_spec (MARKET_USDC consts) (MARKET_ETH consts)); [contradiction|].
    destruct (Z.eqb_spec (MARKET_USDC consts) (MARKET_SAI consts)); [contradiction|].
    rewrite Z.eqb_refl.
    destruct (setitem balance "currency" (PStr "USDC")); reflexivity.
  - intros balance decimals out H.
    destruct (convert_balance_inv _ _ _ H)
      as (wv & x & n & c0 & c1 & c2 & wad & kv & Hwv & Hx & Hn & Hc0 & Hc1
          & Hc2 & Hw & -> & ->).
    destruct (ltb0_sign _ _ Hn) as [Ht Hf].
    assert (Hsign : (wad_value wad < 0 <-> n < 0) /\
                    (n = 0 -> wad_value wad = 0) /\
                    (0 < n -> 0 < wad_value wad)).
    { destruct (decimals =? 6).
      - split; [eapply converted_amount_sign; eauto|].
        eapply converted_amount_zero_or_positive; eauto.
      - assert (c1 = c0) by congruence. subst c1.
        split; [eapply converted_amount_sign; eauto|].
        eapply converted_amount_zero_or_positive; eauto. }
    destruct Hsign as (Hs1 & Hs2 & Hs3).
    exists wv, x, n, wad.
    split; [exact Hwv|]. split; [exact Hx|]. split; [exact Hn|].
    split; [apply assoc_dict_set_same|].
    split; [exact Hs1|]. split; [lia|]. split; [lia|].
    intros s v -> Hv.
    destruct (int_sign_against_wire s v x n Hx Hn Hv)
      as (HA & HC & HB & HD & HE).
    split; [intros Hle; apply Hs1, HA, Hle|].
    split; [intros Hlt; apply HC, Hs1, Hlt|].
    split; [intros Hz; rewrite Hs1; exact (HE Hz)|].
    split; [intros Hlow Hlt; apply (HB Hlow), Hs1, Hlt|].
    intros H0. apply Hs2, HD, H0.
Qed.

End Adapter.

(** ** The properties on the sample exchange *)

(** Cancelling ["0xa2"] when the client reports ["0xa1"] returns [false]. *)
Lemma cancel_order_witness :
  exists b : bool,
    cancel_order sample_client "0xa2" []
      = (Ok b, ([] ++ [cancel_order_req "0xa2"])%list) /\
    (b = true <-> PStr "0xa1" = PStr "0xa2") /\
    (PStr "0xa1" <> PStr "0xa2" -> b = false).
Proof.
  apply (cancel_order_true_iff_id_matches sample_client "0xa2"
           (PDict [("order", PDict [("id", PStr "0xa1")])])
           (PDict [("id", PStr "0xa1")]) (PStr "0xa1") []);
    reflexivity.
Defined.

Lemma sample_orders_have_status : Forall has_status sample_orders.
Proof.
  repeat constructor; eexists; reflexivity.
Defined.

Lemma sample_fills_have_status : Forall has_status sample_fills.
Proof.
  repeat constructor; eexists; reflexivity.
Defined.

(** Of the three sample orders only the open one is translated. *)
Lemma get_orders_witness :
  fst (get_orders sample_clock sample_client sample_self "WETH-DAI" [])
  = mapM (fun item =>
            DydxOrder_from_message sample_clock item "WETH-DAI" (sample_market 18))
         (filter is_open sample_orders).
Proof.
  exact (proj1 (get_orders_keeps_exactly_open sample_clock sample_client
                  sample_self "WETH-DAI"
                  (PDict [("orders", PList sample_orders)]) (sample_market 18)
                  sample_orders [] eq_refl eq_refl eq_refl
                  sample_orders_have_status)).
Defined.

(** Of the three sample fills only the two confirmed ones are translated. *)
Lemma get_all_trades_witness :
  fst (get_all_trades sample_clock sample_client sample_self "WETH-DAI" 1 [])
  = mapM (fun item =>
            DydxTrade_from_message sample_clock item "WETH-DAI" (sample_market 18))
         (filter is_confirmed sample_fills).
Proof.
  exact (proj1 (get_all_trades_keeps_exactly_confirmed sample_clock
                  sample_client sample_self "WETH-DAI"
                  (PDict [("fills", PList sample_fills)]) (sample_market 18)
                  sample_fills [] eq_refl eq_refl eq_refl
                  sample_fills_have_status)).
Defined.

(** Page 2 is refused before the client is called. *)
Lemma get_all_trades_page_witness :
  get_all_trades sample_clock sample_client sample_self "WETH-DAI" 2 []
  = (Raise AssertionError, []).
Proof.
  apply (proj1 (get_all_trades_page_check sample_clock sample_client
                  sample_self "WETH-DAI" []) 2).
  discriminate.
Defined.


Lemma seven_is_unknown : ~ known_market sample_consts 7.
Proof.
  unfold known_market. simpl. intros [H|[H|[H|H]]]; discriminate.
Defined.

(** Market id 7 is none of 0, 1, 2, 3: its balance is converted with 18
    decimals and gets no label. *)
Lemma unknown_market_witness :
  balance_entry sample_consts ("7", PDict [("wei", PStr "-0.5")])
  = _convert_balance_to_wad (PDict [("wei", PStr "-0.5")]) 18.
Proof.
  exact (proj1 (unknown_market_is_passed_through sample_consts "7"
                  (PDict [("wei", PStr "-0.5")]) 7 eq_refl seven_is_unknown)).
Defined.

(** The open sample order has a non-negative amount. *)
Lemma order_amount_witness :
  0 <= wad_value (mkWad 1000000000000000000).
Proof.
  apply (proj1 (order_amount_is_abs_of_truncated_base_amount sample_clock
                  (sample_order "0xa1" "OPEN" "100.0" "1000000000000000000")
                  "WETH-DAI" (sample_market 18)
                  (Order.mk (PStr "0xa1") 1577836800 "WETH-DAI" true
                     (mkWad 100000000000000000000)
                     (mkWad 1000000000000000000))
                  ltac:(vm_compute; reflexivity))).
Defined.



Lemma sample_tick_size : tick_size (sample_market 18) 14.
Proof.
  exists (PStr "0.00000000000001"), (Dec.DFinite false 1 (-14)), (-14).
  repeat split.
Defined.

Lemma sample_base_market_id : base_market_id (sample_market 18) (PInt 0).
Proof.
  exists (PDict [("decimals", PInt 18); ("soloMarketId", PInt 0)]).
  split; reflexivity.
Defined.

Lemma sample_quote_decimals : quote_decimals (sample_market 18) 18.
Proof.
  exists (PDict [("decimals", PInt 18)]), (PInt 18). repeat split.
Defined.


(** ** Where the stated properties fail *)

(** C1: on the 6-decimal market with tick [10^-14], the price
    [float("0.055")] is submitted as [5 * 10^-14], while the price times
    [10^-12], scaled exactly and rounded to 14 places, is [6 * 10^-14]: the
    binary64 product falls below the midpoint that the exact product lies
    above. *)
Lemma place_order_price_counterexample :
  py_float (PStr "0.055") = Ok price_0_055 /\
  quote_decimals (sample_market 6) 6 /\ tick_size (sample_market 6) 14 /\
  order_price sample_self "WETH-USDC" price_0_055
    = Ok (Dec.DFinite false 5 (-14)) /\
  exact_order_price price_0_055 6 14 = Ok (Dec.DFinite false 6 (-14)) /\
  order_price sample_self "WETH-USDC" price_0_055
    <> exact_order_price price_0_055 6 14.
Proof.
  split; [vm_compute; reflexivity|].
  split; [exists (PDict [("decimals", PInt 6)]), (PInt 6); repeat split|].
  split; [exists (PStr "0.00000000000001"), (Dec.DFinite false 1 (-14)), (-14);
          repeat split|].
  split; [vm_compute; reflexivity|].
  split; [vm_compute; reflexivity|].
  vm_compute. discriminate.
Qed.

(** C2: on the 6-decimal market the wire price ["0.0000000000007"] is
    translated to 0.7000000000000001, not to [0.0000000000007 * 10^12 =
    0.7]. *)
Lemma normalized_price_counterexample :
  exists o,
    DydxOrder_from_message sample_clock
      (sample_order "0xa4" "OPEN" "0.0000000000007" "1000000000000000000")
      "WETH-USDC" (sample_market 6) = Ok o /\
    wad_value (Order.price o) = 700000000000000100 /\
    literal_value "0.0000000000007" = Some (inject_Z 7 * Qpower 10 (-13))%Q /\
    ~ (wad_to_Q (Order.price o)
       == (inject_Z 7 * Qpower 10 (-13)) * Qpower 10 (18 - 6))%Q.
Proof.
  eexists. split; [vm_compute; reflexivity|].
  split; [reflexivity|]. split; [vm_compute; reflexivity|].
  vm_compute. discriminate.
Qed.

(** C3: the wire balance ["-0.5"] is negative and its derived amount is 0,
    which is not negative. *)
Lemma balance_sign_counterexample :
  exists out w,
    _convert_balance_to_wad (PDict [("wei", PStr "-0.5")]) 18 = Ok out /\
    assoc "wad" out = Some (WadObj w) /\
    literal_value "-0.5" = Some (- (inject_Z 5 * Qpower 10 (-1)))%Q /\
    (- (inject_Z 5 * Qpower 10 (-1)) < 0)%Q /\
    ~ wad_value w < 0.
Proof.
  eexists. eexists. split; [vm_compute; reflexivity|].
  split; [reflexivity|]. split; [vm_compute; reflexivity|].
  split; [vm_compute; reflexivity|].
  vm_compute. discriminate.
Qed.

(** C9: the base amount ["9007199254740993"] ([2^53 + 1] wei) is translated
    to the amount [2^53 * 10^-18], one wei short. *)
Lemma order_amount_counterexample :
  exists o,
    DydxOrder_from_message sample_clock
      (sample_order "0xa5" "OPEN" "100.0" "9007199254740993")
      "WETH-DAI" (sample_market 18) = Ok o /\
    wad_value (Order.amount o) = 9007199254740992 /\
    literal_value "9007199254740993" = Some (inject_Z 9007199254740993 * Qpower 10 0)%Q /\
    ~ (wad_to_Q (Order.amount o)
       == (inject_Z 9007199254740993 * Qpower 10 0) * Qpower 10 (-18))%Q.
Proof.
  eexists. split; [vm_compute; reflexivity|].
  split; [reflexivity|]. split; [vm_compute; reflexivity|].
  vm_compute. discriminate.
Qed.

(** ** The further properties on the sample exchange *)

(** The first sample fill has a non-negative amount. *)
Lemma trade_amount_witness :
  0 <= wad_value (mkWad 1000000000000000000).
Proof.
  apply (proj1 (trade_amount_is_abs_of_truncated_amount sample_clock
                  (sample_fill "f1" "CONFIRMED" "WETH-DAI" "100.0"
                     "1000000000000000000")
                  "WETH-DAI" (sample_market 18)
                  (Trade.mk (PStr "f1") 1577836800 (PStr "WETH-DAI") false
                     (mkWad 100000000000000000000)
                     (mkWad 1000000000000000000))
                  ltac:(vm_compute; reflexivity))).
Defined.

(** The open sample order has side ["SELL"] and is a sell. *)
Lemma is_sell_witness :
  exists sv,
    getitem (sample_order "0xa1" "OPEN" "100.0" "1000000000000000000") "side"
    = Ok sv /\
    (true = true <-> sv = PStr "SELL").
Proof.
  exact (proj1 (is_sell_iff_side_is_SELL sample_clock)
           (sample_order "0xa1" "OPEN" "100.0" "1000000000000000000")
           "WETH-DAI" (sample_market 18)
           (Order.mk (PStr "0xa1") 1577836800 "WETH-DAI" true
              (mkWad 100000000000000000000) (mkWad 1000000000000000000))
           ltac:(vm_compute; reflexivity)).
Defined.

(** All three sample fills are translated, the pending one included, also
    for page 7. *)
Lemma get_trades_witness :
  get_trades sample_clock sample_client sample_self "WETH-DAI" 7 []
  = (mapM (fun item =>
             DydxTrade_from_message sample_clock item "WETH-DAI"
               (sample_market 18))
          sample_fills,
     ([] ++ [get_my_fills_req ["WETH-DAI"]])%list).
Proof.
  exact (proj1 (get_trades_translates_every_fill sample_clock sample_client
                  sample_self "WETH-DAI" 7
                  (PDict [("fills", PList sample_fills)]) (sample_market 18)
                  sample_fills [] eq_refl eq_refl eq_refl)).
Defined.

(** The sample exchange has no WETH-SAI market: an order for it is refused
    before any request. *)
Lemma unknown_pair_witness :
  place_order sample_token_to_wei sample_client sample_self "WETH-SAI" true
    price_0_055 F64.one []
  = (Raise (KeyError "WETH-SAI"), []).
Proof.
  exact (proj1 (unknown_pair_raises_KeyError sample_clock sample_token_to_wei
                  sample_client sample_self "WETH-SAI"
                  [("WETH-DAI", sample_market 18);
                   ("WETH-USDC", sample_market 6)] [] eq_refl eq_refl)
           true price_0_055 F64.one).
Defined.

(** An infinite price cannot be rounded: nothing is sent. *)
Lemma place_order_failure_witness :
  place_order sample_token_to_wei sample_client sample_self "WETH-DAI" false
    (S754_infinity false) F64.one []
  = (Raise InvalidOperation, []).
Proof.
  exact (proj1 (place_order_sends_nothing_on_failure sample_token_to_wei
                  sample_client sample_self "WETH-DAI" false
                  (S754_infinity false) F64.one [])
           InvalidOperation eq_refl).
Defined.

(** Selling one token at 0.055 on the 18-decimal market: one request, and
    the id of the reply. *)
Lemma place_order_result_witness :
  place_order sample_token_to_wei sample_client sample_self "WETH-DAI" true
    price_0_055 F64.one []
  = (Ok (PStr "0xb1"),
     ([] ++ [place_order_req "WETH-DAI" "SELL"
               (Dec.DFinite false 5500000000000 (-14)) 1000000000000000000
               false false])%list).
Proof.
  exact (proj1 (place_order_returns_reply_id sample_token_to_wei sample_client
                  sample_self "WETH-DAI" true price_0_055 F64.one []
                  (Dec.DFinite false 5500000000000 (-14)) (sample_market 18)
                  (PInt 0) 1000000000000000000
                  ltac:(vm_compute; reflexivity) eq_refl
                  sample_base_market_id ltac:(vm_compute; reflexivity))
           (PDict [("order", PDict [("id", PStr "0xb1")])])
           (PDict [("id", PStr "0xb1")]) (PStr "0xb1")
           eq_refl eq_refl eq_refl).
Defined.

(** The price 0.055 is submitted with the 14 places of the tick. *)
Lemma order_price_places_witness :
  exists mi t,
    getitem (market_info sample_self) "WETH-DAI" = Ok mi /\
    tick_size mi t /\ 0 <= t /\
    (Dec.DFinite false 5500000000000 (-14) = Dec.DNaN \/
     exists s c,
       Dec.DFinite false 5500000000000 (-14) = Dec.DFinite s c (- t) /\
       0 <= c < 10 ^ 28).
Proof.
  exact (order_price_has_tick_places sample_self "WETH-DAI" price_0_055
           (Dec.DFinite false 5500000000000 (-14))
           ltac:(vm_compute; reflexivity)).
Defined.

(** A NaN price on the 18-decimal market is priced as the decimal NaN. *)
Lemma non_finite_price_witness :
  order_price sample_self "WETH-DAI" S754_nan = Ok Dec.DNaN.
Proof.
  apply (proj1 (place_order_of_non_finite_price sample_token_to_wei
                  sample_client sample_self "WETH-DAI" (sample_market 18)
                  (PInt 0) 18 14 eq_refl sample_tick_size
                  sample_base_market_id sample_quote_decimals
                  ltac:(lia))).
Defined.

(** A deposit of one DAI goes to market 0, that of ETH. *)
Lemma deposit_funds_witness :
  deposit_funds sample_token_to_wei sample_consts sample_client (PStr "DAI")
    F64.one []
  = (Ok (PDict [("status", PInt 1)]),
     ([] ++ [eth_deposit_req 0 1000000000000000000;
             eth_get_receipt_req (PStr "0xc1")])%list).
Proof.
  apply (proj2 (deposit_funds_routes_by_token sample_token_to_wei
                  sample_consts sample_client (PStr "DAI") F64.one [])
           ltac:(discriminate) 1000000000000000000 (PStr "0xc1")
           ltac:(vm_compute; reflexivity) eq_refl).
Defined.

(** An infinite amount has no wei value: nothing is deposited. *)
Lemma deposit_funds_failure_witness :
  deposit_funds sample_token_to_wei sample_consts sample_client (PStr "USDC")
    (S754_infinity false) []
  = (Raise OverflowError, []).
Proof.
  apply (proj1 (deposit_funds_stops_at_first_failure sample_token_to_wei
                  sample_consts sample_client (PStr "USDC")
                  (S754_infinity false) [] 2 eq_refl)
           OverflowError).
  vm_compute. reflexivity.
Defined.

(** The balance of market 2 is labelled USDC. *)
Lemma known_market_witness :
  assoc "currency"
    [("wei", Raw (PStr "-1000000")); ("currency", Raw (PStr "USDC"));
     ("wad", WadObj (mkWad (-1000000000000000000)))]
  = Some (Raw (PStr "USDC")).
Proof.
  apply (proj1 (proj2 (proj2 (known_markets_are_labelled sample_consts "2"
                                (PDict [("wei", PStr "-1000000")]) 2
                                [("wei", Raw (PStr "-1000000"));
                                 ("currency", Raw (PStr "USDC"));
                                 ("wad", WadObj (mkWad (-1000000000000000000)))]
                                eq_refl ltac:(vm_compute; reflexivity)))));
    [reflexivity | discriminate | discriminate].
Defined.

(** One and a half ether, in wei, converts to 1.5. *)
Lemma balance_conversion_witness :
  exists wv x n w,
    getitem (PDict [("wei", PStr "1500000000000000000")]) "wei" = Ok wv /\
    py_float wv = Ok x /\ F64.to_Z x = Ok n /\ Z.abs n <= MAX_WEI /\
    assoc "wad" [("wei", Raw (PStr "1500000000000000000"));
                 ("wad", WadObj (mkWad 1500000000000000000))]
    = Some (WadObj w) /\
    (Z.abs n < 10 ^ 28 -> wad_value w = if 18 =? 6 then n * 10 ^ 12 else n).
Proof.
  exact (balance_conversion_is_exact
           (PDict [("wei", PStr "1500000000000000000")]) 18
           [("wei", Raw (PStr "1500000000000000000"));
            ("wad", WadObj (mkWad 1500000000000000000))]
           ltac:(vm_compute; reflexivity)).
Defined.

(** The three sample balances come back as three converted entries. *)
Lemma get_balances_witness :
  exists outs,
    fst (get_balances sample_consts sample_client []) = Ok outs /\
    List.length outs = 3%nat.
Proof.
  assert (E : exists outs,
             fst (get_balances sample_consts sample_client []) = Ok outs)
    by (vm_compute; eexists; reflexivity).
  destruct E as [outs E]. exists outs. split; [exact E|].
  exact (proj1 (proj1 (get_balances_converts_every_entry sample_consts
                         sample_client
                         (PDict [("balances",
                                  PDict [("0", PDict [("wei", PStr "1500000000000000000")]);
                                         ("2", PDict [("wei", PStr "-1000000")]);
                                         ("7", PDict [("wei", PStr "-0.5")])])])
                         (PDict [("0", PDict [("wei", PStr "1500000000000000000")]);
                                 ("2", PDict [("wei", PStr "-1000000")]);
                                 ("7", PDict [("wei", PStr "-0.5")])])
                         [("0", PDict [("wei", PStr "1500000000000000000")]);
                          ("2", PDict [("wei", PStr "-1000000")]);
                          ("7", PDict [("wei", PStr "-0.5")])]
                         [] eq_refl eq_refl eq_refl)
                  outs E)).
Defined.

(** With a clock that reads no date, the first confirmed sample fill does
    not translate and [get_all_trades] raises. *)
Lemma all_or_nothing_witness :
  exists e',
    fst (get_all_trades (fun _ => Raise ValueError) sample_client sample_self
           "WETH-DAI" 1 [])
    = Raise e'.
Proof.
  apply (proj1 (proj2 (listings_are_all_or_nothing
                         (fun _ => Raise ValueError) sample_client sample_self
                         "WETH-DAI" (sample_market 18) [] eq_refl))
           (PDict [("fills", PList sample_fills)]) sample_fills
           (sample_fill "f1" "CONFIRMED" "WETH-DAI" "100.0"
              "1000000000000000000")
           ValueError eq_refl eq_refl).
  - simpl. auto.
  - right. split; vm_compute; reflexivity.
Defined.


(** The open sample order has a positive price, read from the positive
    wire price ["100.0"]. *)
Lemma price_sign_witness :
  exists pv x,
    getitem (sample_order "0xa1" "OPEN" "100.0" "1000000000000000000") "price"
    = Ok pv /\
    py_float pv = Ok x /\
    (100000000000000000000 < 0 -> exists m e, x = S754_finite true m e) /\
    (0 < 100000000000000000000 -> exists m e, x = S754_finite false m e).
Proof.
  exact (proj1 (price_sign_follows_wire_price sample_clock)
           (sample_order "0xa1" "OPEN" "100.0" "1000000000000000000")
           "WETH-DAI" (sample_market 18)
           (Order.mk (PStr "0xa1") 1577836800 "WETH-DAI" true
              (mkWad 100000000000000000000) (mkWad 1000000000000000000))
           ltac:(vm_compute; reflexivity)).
Defined.

(** The adapter constructed on the sample exchange is the sample adapter. *)
Lemma construction_witness :
  init sample_client [] = (Ok sample_self, ([] ++ [get_markets_req])%list).
Proof.
  exact (proj1 (proj1 (construction_caches_the_markets sample_client
                         (PDict [("markets", market_info sample_self)]) []
                         eq_refl)
                  (market_info sample_self) eq_refl)).
Defined.

(** The open sample order and the first sample fill, both priced ["100.0"]
    on the 18-decimal market, have the same price. *)
Lemma prices_agree_witness :
  mkWad 100000000000000000000 = mkWad 100000000000000000000.
Proof.
  exact (order_and_fill_prices_agree sample_clock
           (sample_order "0xa1" "OPEN" "100.0" "1000000000000000000")
           (sample_fill "f1" "CONFIRMED" "WETH-DAI" "100.0"
              "1000000000000000000")
           "WETH-DAI" "WETH-DAI" (sample_market 18) (sample_market 18)
           (Order.mk (PStr "0xa1") 1577836800 "WETH-DAI" true
              (mkWad 100000000000000000000) (mkWad 1000000000000000000))
           (Trade.mk (PStr "f1") 1577836800 (PStr "WETH-DAI") false
              (mkWad 100000000000000000000) (mkWad 1000000000000000000))
           18 ltac:(vm_compute; reflexivity) ltac:(vm_compute; reflexivity)
           sample_quote_decimals sample_quote_decimals eq_refl).
Defined.

(** ** The prices and the balances on the sample exchange *)

Lemma sample_usdc_tick_size : tick_size (sample_market 6) 14.
Proof.
  exists (PStr "0.00000000000001"), (Dec.DFinite false 1 (-14)), (-14).
  repeat split.
Defined.

Lemma sample_usdc_base_market_id : base_market_id (sample_market 6) (PInt 0).
Proof.
  exists (PDict [("decimals", PInt 18); ("soloMarketId", PInt 0)]).
  split; reflexivity.
Defined.

Lemma sample_usdc_quote_decimals : quote_decimals (sample_market 6) 6.
Proof.
  exists (PDict [("decimals", PInt 6)]), (PInt 6). repeat split.
Defined.

(** On the 6-decimal market with a tick of [10^-14] the price 0.055 is
    submitted as [5 * 10^-14]; the order that comes back with the wire
    price ["0.00000000000005"] is translated to the price 0.05, within
    [10^-2], the tick at the caller's scale, of 0.055. *)
Lemma place_order_price_witness :
  (Qabs (wad_to_Q (mkWad 50000000000000000) - F64.to_Q price_0_055)
   <= Qpower 2 (-49) * Qabs (F64.to_Q price_0_055)
      + Qpower 10 (18 - 6 - 14) + Qpower 10 (-18))%Q.
Proof.
  apply (proj2 (proj2 (proj2 (proj2 (proj2
           (place_order_price_is_rounded_binary64_product
              sample_clock sample_token_to_wei sample_client sample_self
              "WETH-USDC" price_0_055 (sample_market 6) (PInt 0) 6 14
              eq_refl sample_usdc_tick_size sample_usdc_base_market_id
              sample_usdc_quote_decimals)))))
           (Dec.DFinite false 5 (-14))
           (sample_order "0xa6" "OPEN" "0.00000000000005"
              "1000000000000000000")
           "0.00000000000005" (inject_Z 5 * Qpower 10 (-14))%Q
           (Order.mk (PStr "0xa6") 1577836800 "WETH-USDC" true
              (mkWad 50000000000000000) (mkWad 1000000000000000000))).
  - lia.
  - lia.
  - reflexivity.
  - apply Qle_bool_imp_le. vm_compute. reflexivity.
  - vm_compute. reflexivity.
  - reflexivity.
  - vm_compute. reflexivity.
  - vm_compute. reflexivity.
  - vm_compute. reflexivity.
Defined.

(** On the 6-decimal market the wire price ["0.0000000000007"] is
    translated to 0.7000000000000001, within the bound of
    [7 * 10^-13 * 10^12 = 0.7]. *)
Lemma normalized_price_witness :
  (Qabs (wad_to_Q (mkWad 700000000000000100)
         - inject_Z 7 * Qpower 10 (-13) * Qpower 10 (18 - 6))
   <= Qpower 2 (-50)
      * Qabs (inject_Z 7 * Qpower 10 (-13) * Qpower 10 (18 - 6))
      + Qpower 10 (-18))%Q.
Proof.
  destruct (proj1 (normalized_price_is_near_scaled_wire_price sample_clock)
              (sample_order "0xa4" "OPEN" "0.0000000000007"
                 "1000000000000000000")
              "WETH-USDC" (sample_market 6)
              (Order.mk (PStr "0xa4") 1577836800 "WETH-USDC" true
                 (mkWad 700000000000000100) (mkWad 1000000000000000000))
              ltac:(vm_compute; reflexivity))
    as (d & pv & x & scaled & Hd & Hpv & _ & _ & _ & _ & _ & _ & Hb).
  assert (Ed : d = 6)
    by exact (quote_decimals_unique (sample_market 6) d 6 Hd
                sample_usdc_quote_decimals).
  subst d.
  apply (proj2 (Hb "0.0000000000007" (inject_Z 7 * Qpower 10 (-13))%Q
                  ltac:(vm_compute in Hpv; congruence)
                  ltac:(vm_compute; reflexivity))).
  - lia.
  - apply Qle_bool_imp_le. vm_compute. reflexivity.
Defined.

(** The USDC balance of -1,000,000 wei is an integer below zero: the
    derived amount, -1, is negative. *)
Lemma balance_sign_witness :
  wad_value (mkWad (- 10 ^ 18)) < 0.
Proof.
  destruct (proj2 (proj2 (proj2
              (balance_sign_follows_int_of_float_of_wei sample_consts)))
              (PDict [("wei", PStr "-1000000")]) 6
              [("wei", Raw (PStr "-1000000"));
               ("wad", WadObj (mkWad (- 10 ^ 18)))]
              ltac:(vm_compute; reflexivity))
    as (wv & x & n & w & Hwv & _ & _ & Hw & _ & _ & _ & Hwire).
  vm_compute in Hw. injection Hw as Hw. subst w.
  apply (proj1 (Hwire "-1000000" (- (inject_Z 1000000 * Qpower 10 0))%Q
                  ltac:(vm_compute in Hwv; congruence)
                  ltac:(vm_compute; reflexivity))).
  apply Qle_bool_imp_le. vm_compute. reflexivity.
Defined.
